(** * libbitcoin-network: a shallow embedding of the session, protocol,
      message and authority code, with the properties checked against it.

    Layout: the embedding first (one module per translation unit of the
    C++ sources), then the theorems.

    Conventions of the embedding.
    - C++ unsigned integers are [Z]; wrap-around is written out where the
      source can reach it ([size_t] counters modulo [2^64]).
    - Bytes are [Z] in [0, 255]; byte buffers are [list Z]; text is
      [list ascii].
    - Code that runs on the network strand is a transformer of a [world]
      record holding the fields the sources read and write.  What the code
      does to objects whose classes are outside the translated sources
      (channels, sockets, connectors, timers, strands) is recorded, in
      order, as [event]s in the world's trace.
    - A [result_handler] is a function from the error code to a world
      transformer, so that [handler(ec)] is function application. *)

From Stdlib Require Import ZArith List Bool Ascii String Lia.
From stdpp Require Import base decidable countable gmap.
Import ListNotations.

Local Open Scope Z_scope.
Local Open Scope list_scope.

(** ** src/error.cpp: the error codes

    The enumeration itself is declared in error.hpp; its members are
    those of the message map of error.cpp, and [channel_conflict], which
    session.cpp names. *)

Module error.

Inductive code : Type :=
  | success | unknown | bypassed
  | address_not_found | seeding_unsuccessful
  | file_load | file_save | file_system
  | bad_stream
  | listen_failed | accept_failed | oversubscribed
  | address_blocked | address_in_use | resolve_failed | connect_failed
  | invalid_heading | invalid_magic
  | oversized_payload | invalid_checksum | invalid_message | unknown_message
  | protocol_violation | channel_conflict | invalid_configuration
  | operation_timeout | operation_canceled | operation_failed
  | channel_timeout | channel_dropped | channel_stopped
  | service_stopped | subscriber_stopped.

#[global] Instance code_eq_dec : EqDecision code.
Proof. solve_decision. Defined.

(** [ec == other] on codes. *)
Definition eqb (a b : code) : bool := bool_decide (a = b).

(** The contextual conversion [if (ec)]: true for every code but
    [success]. *)
Definition to_bool (ec : code) : bool := negb (eqb ec success).

End error.

Import error.

(** [is_zero] of libbitcoin-system. *)
Definition is_zero (n : Z) : bool := n =? 0.

(** [x mod 2^64]: the value a [size_t] or [uint64_t] holds. *)
Definition wrap64 (n : Z) : Z := n mod 2 ^ 64.

(** ** include/bitcoin/network/impl/async/subscriber.ipp *)

Module subscriber.
Section subscriber.

(** [Handler] stands for the stored [std::function]s, [Args] for the
  argument pack [Args...]. *)
Context {Handler Args : Type}.

Record t : Type := make {
  stopped_ : bool;
  queue_ : list Handler
}.

(** One [boost::asio::post(strand_, std::bind(handler, args...))]: the
  handler will run on the strand with these arguments. *)
Definition posted : Type := (Handler * Args)%type.

(** The constructor: [stopped_(false)], empty queue. *)
Definition create : t := {| stopped_ := false; queue_ := [] |}.

Definition subscribe (notify : Handler) (s : t) : t :=
  if negb (stopped_ s)
  then {| stopped_ := stopped_ s; queue_ := queue_ s ++ [notify] |}
  else s.

(** [notify] is const: it returns the posts it makes. *)
Definition notify (args : Args) (s : t) : list posted :=
  if stopped_ s then []
  else map (fun handler => (handler, args)) (queue_ s).

(** [stop] sets [stopped_] and then calls [notify] on the subscriber as
  it is at that point, then clears the queue. *)
Definition stop (args : Args) (s : t) : t * list posted :=
  if stopped_ s then (s, [])
  else
    let s1 := {| stopped_ := true; queue_ := queue_ s |} in
    let posts := notify args s1 in
    ({| stopped_ := stopped_ s1; queue_ := [] |}, posts).

(** A client's calls on one subscriber, run in order; the posts of all
  calls are collected in order. *)
Inductive call : Type :=
  | call_subscribe (notify : Handler)
  | call_notify (args : Args)
  | call_stop (args : Args).

Definition step (c : call) (s : t) : t * list posted :=
  match c with
  | call_subscribe h => (subscribe h s, [])
  | call_notify args => (s, notify args s)
  | call_stop args => stop args s
  end.

Fixpoint run (calls : list call) (s : t) : t * list posted :=
  match calls with
  | [] => (s, [])
  | c :: rest =>
      let (s1, posts1) := step c s in
      let (s2, posts2) := run rest s1 in
      (s2, posts1 ++ posts2)
  end.

End subscriber.
Arguments t : clear implicits.
Arguments call : clear implicits.
End subscriber.

(** ** Text: characters and numerals

    Text is a [list ascii]; [txt] turns a literal into text. *)

Definition text : Type := list ascii.

Definition txt (s : string) : text := list_ascii_of_string s.

Definition char_code (c : ascii) : Z := Z.of_N (N_of_ascii c).

Definition char_of_code (n : Z) : ascii := ascii_of_N (Z.to_N n).

Definition char_eqb (a b : ascii) : bool := Ascii.eqb a b.

Definition is_empty {A : Type} (l : list A) : bool :=
  match l with [] => true | _ => false end.

(** ['0'..'9']. *)
Definition is_digit (c : ascii) : bool :=
  (48 <=? char_code c) && (char_code c <=? 57).

(** [std::isspace] in the classic locale: space, \t, \n, \v, \f, \r. *)
Definition is_space (c : ascii) : bool :=
  (char_code c =? 32) || ((9 <=? char_code c) && (char_code c <=? 13)).

(** The digit characters of the bases up to sixteen, lower case. *)
Definition digit_char (d : Z) : ascii :=
  if d <? 10 then char_of_code (48 + d) else char_of_code (87 + d).

(** The numeral of [n] in [base], most significant digit first, without
    leading zeros; [fuel] bounds the number of digits. *)
Fixpoint numeral (base : Z) (fuel : nat) (n : Z) (acc : text) : text :=
  match fuel with
  | O => acc
  | S k =>
      let acc' := digit_char (n mod base) :: acc in
      if n / base =? 0 then acc' else numeral base k (n / base) acc'
  end.

(** ["%u"], and [operator<<] of an unsigned integer. *)
Definition print_dec (n : Z) : text := numeral 10 20 n [].

(** ["%x"]. *)
Definition print_hex (n : Z) : text := numeral 16 16 n [].

(** ** The address conversions of boost::asio

    [asio::ipv6::from_string] and [to_string] are [inet_pton] and
    [inet_ntop] for [AF_INET6] (the scope id is zero here, and the text
    the authority passes on never holds a ['%']).  Both are library code;
    the model follows the BIND-derived implementation of the C library,
    the one whose output the tests of the repository expect (an
    IPv4-compatible address prints as [::1.2.240.1]). *)

Module asio.

(** [hex_digit_value]: the value of a hexadecimal digit of either case. *)
Definition hex_digit_value (c : ascii) : option Z :=
  let n := char_code c in
  if (48 <=? n) && (n <=? 57) then Some (n - 48)
  else if (97 <=? n) && (n <=? 102) then Some (n - 87)
  else if (65 <=? n) && (n <=? 70) then Some (n - 55)
  else None.

(** *** inet_ntop *)

(** [inet_ntop4]: ["%u.%u.%u.%u"] of the first four bytes. *)
Definition inet_ntop4 (src : list Z) : text :=
  print_dec (nth 0 src 0) ++ txt "." ++ print_dec (nth 1 src 0) ++ txt "."
  ++ print_dec (nth 2 src 0) ++ txt "." ++ print_dec (nth 3 src 0).

(** [words[i / 2] = (src[i] << 8) | src[i + 1]]. *)
Definition words_of (src : list Z) : list Z :=
  map (fun i => Z.lor (Z.shiftl (nth (2 * i) src 0) 8) (nth (2 * i + 1) src 0))
    (seq 0 8).

(** [struct { int base, len; }]: a run of zero words; [base = -1] is "no
    run". *)
Record run : Type := make_run { base : Z; len : Z }.

(** The first loop of [inet_ntop6]: it reads the words only through
    [words[i] == 0], so it runs here on those tests. *)
Fixpoint scan_runs (zeros : list bool) (i : Z) (best cur : run) : run * run :=
  match zeros with
  | [] => (best, cur)
  | true :: rest =>
      if base cur =? -1 then scan_runs rest (i + 1) best (make_run i 1)
      else scan_runs rest (i + 1) best (make_run (base cur) (len cur + 1))
  | false :: rest =>
      if negb (base cur =? -1) then
        let best' :=
          if (base best =? -1) || (len cur >? len best) then cur else best in
        scan_runs rest (i + 1) best' (make_run (-1) (len cur))
      else scan_runs rest (i + 1) best cur
  end.

(** The choice of the run to compress, after the first loop: the last
    run is taken into account, and a run of one word is not compressed. *)
Definition best_of (zeros : list bool) : run :=
  let '(best, cur) :=
    scan_runs zeros 0 (make_run (-1) 0) (make_run (-1) 0) in
  let best1 :=
    if negb (base cur =? -1) then
      if (base best =? -1) || (len cur >? len best) then cur else best
    else best in
  if negb (base best1 =? -1) && (len best1 <? 2)
  then make_run (-1) (len best1) else best1.

Definition best_run (words : list Z) : run :=
  best_of (map (fun w => w =? 0) words).

(** Whether word [i] is printed as the dotted tail: "Is this address an
    encapsulated IPv4?" *)
Definition encapsulated_ipv4 (best : run) (words : list Z) (i : Z) : bool :=
  (i =? 6) && (base best =? 0)
  && ((len best =? 6) || ((len best =? 5) && (nth 5 words 0 =? 0xffff))).

(** The second loop of [inet_ntop6], from word [i] on; [rest] is the
    words from [i].  The dotted tail ends the loop ([break]). *)
Fixpoint format_words (src words : list Z) (best : run) (i : Z)
    (rest : list Z) : text :=
  match rest with
  | [] => []
  | w :: rest' =>
      if negb (base best =? -1) && (base best <=? i)
         && (i <? base best + len best)
      then
        (if i =? base best then txt ":" else [])
        ++ format_words src words best (i + 1) rest'
      else
        (if negb (i =? 0) then txt ":" else [])
        ++ (if encapsulated_ipv4 best words i then inet_ntop4 (skipn 12 src)
            else print_hex w ++ format_words src words best (i + 1) rest')
  end.

Definition inet_ntop6 (src : list Z) : text :=
  let words := words_of src in
  let best := best_run words in
  format_words src words best 0 words
  ++ (if negb (base best =? -1) && (base best + len best =? 8)
      then txt ":" else []).

(** *** inet_pton *)

(** The loop of [inet_pton4]: [done] is the octets before [*tp], [cur]
    is [*tp]. *)
Fixpoint pton4_loop (src : text) (done : list Z) (cur : Z) (saw_digit : bool)
    (octets : Z) : option (list Z) :=
  match src with
  | [] => if octets <? 4 then None else Some (done ++ [cur])
  | ch :: rest =>
      if is_digit ch then
        let new := cur * 10 + (char_code ch - 48) in
        if saw_digit && (cur =? 0) then None
        else if new >? 255 then None
        else if negb saw_digit then
          if octets + 1 >? 4 then None
          else pton4_loop rest done new true (octets + 1)
        else pton4_loop rest done new saw_digit octets
      else if char_eqb ch "."%char && saw_digit then
        if octets =? 4 then None
        else pton4_loop rest (done ++ [cur]) 0 false octets
      else None
  end.

Definition inet_pton4 (src : text) : option (list Z) :=
  pton4_loop src [] 0 false 0.

(** [*tp++ = (val >> 8) & 0xff; *tp++ = val & 0xff]. *)
Definition put_word (val : Z) (tp : list Z) : list Z :=
  tp ++ [Z.land (Z.shiftr val 8) 0xff; Z.land val 0xff].

(** After the loop of [inet_pton6]: the last group is stored, the gap
    left by ["::"] is filled with zeros ([colonp] is the offset of the
    gap), and all sixteen bytes must be there. *)
Definition pton6_finish (tp : list Z) (colonp : option nat)
    (xdigits_seen val : Z) : option (list Z) :=
  let stored :=
    if xdigits_seen >? 0 then
      if (Z.of_nat (length tp) + 2 >? 16) then None else Some (put_word val tp)
    else Some tp in
  match stored with
  | None => None
  | Some tp1 =>
      match colonp with
      | Some gap =>
          if (length tp1 =? 16)%nat then None
          else Some (firstn gap tp1 ++ repeat 0 (16 - length tp1)
                     ++ skipn gap tp1)
      | None => if (length tp1 =? 16)%nat then Some tp1 else None
      end
  end.

(** The loop of [inet_pton6]: [tp] is the bytes stored so far, [curtok]
    the text from the start of the current group. *)
Fixpoint pton6_loop (src curtok : text) (tp : list Z) (colonp : option nat)
    (xdigits_seen val : Z) : option (list Z) :=
  match src with
  | [] => pton6_finish tp colonp xdigits_seen val
  | ch :: rest =>
      match hex_digit_value ch with
      | Some digit =>
          if xdigits_seen =? 4 then None
          else
            let val' := Z.lor (Z.shiftl val 4) digit in
            if val' >? 0xffff then None
            else pton6_loop rest curtok tp colonp (xdigits_seen + 1) val'
      | None =>
          if char_eqb ch ":"%char then
            if xdigits_seen =? 0 then
              match colonp with
              | Some _ => None
              | None =>
                  pton6_loop rest rest tp (Some (length tp)) xdigits_seen val
              end
            else if is_empty rest then None
            else if Z.of_nat (length tp) + 2 >? 16 then None
            else pton6_loop rest rest (put_word val tp) colonp 0 0
          else if char_eqb ch "."%char
                  && (Z.of_nat (length tp) + 4 <=? 16) then
            match inet_pton4 curtok with
            | Some octets => pton6_finish (tp ++ octets) colonp 0 val
            | None => None
            end
          else None
      end
  end.

(** "Leading :: requires some special handling." *)
Definition inet_pton6 (src : text) : option (list Z) :=
  match src with
  | [] => None
  | ch :: rest =>
      if char_eqb ch ":"%char then
        match rest with
        | ch' :: _ =>
            if char_eqb ch' ":"%char then pton6_loop rest rest [] None 0 0
            else None
        | [] => None
        end
      else pton6_loop src src [] None 0 0
  end.

(** [asio::ipv6::from_string]; [None] is the thrown [system_error]. *)
Definition from_string (s : text) : option (list Z) := inet_pton6 s.

(** [asio::ipv6::to_string]. *)
Definition to_string (ip : list Z) : text := inet_ntop6 ip.

End asio.

(** ** src/config/authority.cpp

    An authority holds [ip_], an [asio::ipv6] (sixteen address bytes; the
    scope id of an address built from bytes or from text is zero and is
    left out), and [port_], a [uint16_t]. *)

Module config.

Record authority : Type := make_authority {
  ip_ : list Z;
  port_ : Z
}.

Definition ip (a : authority) : list Z := ip_ a.
Definition port (a : authority) : Z := port_ a.

#[global] Instance authority_eq_dec : EqDecision authority.
Proof. solve_decision. Defined.

(** [authority::operator==]: [port() == other.port() && ip() == other.ip()]. *)
Definition eqb (a b : authority) : bool :=
  (port a =? port b) && bool_decide (ip a = ip b).

(** [authority::operator bool]. *)
Definition to_bool (a : authority) : bool := negb (port_ a =? 0).

(** The values an authority can hold: sixteen bytes and a 16-bit port. *)
Definition valid (a : authority) : bool :=
  (length (ip_ a) =? 16)%nat
  && forallb (fun b => (0 <=? b) && (b <? 256)) (ip_ a)
  && (0 <=? port_ a) && (port_ a <? 65536).

(** [s.find(c) != npos]. *)
Definition contains_char (c : ascii) (s : text) : bool :=
  existsb (char_eqb c) s.

(** [s.find(c) == 0]. *)
Definition starts_with_char (c : ascii) (s : text) : bool :=
  match s with
  | ch :: _ => char_eqb ch c
  | [] => false
  end.

(** host: [[2001:db8::2]] or [2001:db8::2] or [1.2.240.1]. *)
Definition to_host_name (host : text) : text :=
  if negb (contains_char ":" host) || starts_with_char "[" host then host
  else txt "[" ++ host ++ txt "]".

Definition to_text (host : text) (port : Z) : text :=
  to_host_name host
  ++ (if negb (is_zero port) then txt ":" ++ print_dec port else []).

(** [to_ipv6(const std::string&)]. *)
Definition to_ipv6 (ipv4_address : text) : text :=
  txt "::ffff:" ++ ipv4_address.

(** The longest prefix of [s] whose characters satisfy [p], and the rest. *)
Fixpoint span (p : ascii -> bool) (s : text) : text * text :=
  match s with
  | [] => ([], [])
  | c :: rest =>
      if p c then let '(taken, others) := span p rest in (c :: taken, others)
      else ([], s)
  end.

(** [s] without the prefix [prefix], if it starts with it. *)
Fixpoint strip_prefix (prefix s : text) : option text :=
  match prefix, s with
  | [], _ => Some s
  | p :: prefix', c :: s' =>
      if char_eqb p c then strip_prefix prefix' s' else None
  | _ :: _, [] => None
  end.

(** The class [[0-9\.]]. *)
Definition digit_or_dot (c : ascii) : bool :=
  is_digit c || char_eqb c ".".

(** The class [[0-9a-f:\.]]. *)
Definition ipv6_char (c : ascii) : bool :=
  is_digit c || ((97 <=? char_code c) && (char_code c <=? 102))
  || char_eqb c ":" || char_eqb c ".".

(** The regular expression [^::ffff:([0-9\.]+)$] of [to_ipv4_hostname],
    on a text without line breaks: the first group, if the text matches. *)
Definition mapped_regular (address : text) : option text :=
  match strip_prefix (txt "::ffff:") address with
  | Some group =>
      if negb (is_empty group) && forallb digit_or_dot group
      then Some group else None
  | None => None
  end.

Definition to_ipv4_hostname (ip_address : list Z) : text :=
  match mapped_regular (asio.to_string ip_address) with
  | None => []
  | Some group => group
  end.

Definition to_ipv6_hostname (ip_address : list Z) : text :=
  txt "[" ++ asio.to_string ip_address ++ txt "]".

Definition to_hostname (a : authority) : text :=
  let ipv4_hostname := to_ipv4_hostname (ip_ a) in
  if is_empty ipv4_hostname then to_ipv6_hostname (ip_ a) else ipv4_hostname.

(** [operator<<]. *)
Definition format (a : authority) : text :=
  to_text (to_hostname a) (port a).

(** [authority::to_string]. *)
Definition to_string (a : authority) : text := format a.

(** [input >> value] into a [std::string]: leading white space is
    skipped and the characters up to the next white space are taken. *)
Fixpoint skip_space (s : text) : text :=
  match s with
  | c :: rest => if is_space c then skip_space rest else s
  | [] => []
  end.

Definition extract (input : text) : text :=
  fst (span (fun c => negb (is_space c)) (skip_space input)).

(** The tail [(:([0-9]{1,5}))?$] of the authority expression: group 5. *)
Definition match_port (rest : text) : option text :=
  match rest with
  | [] => Some []
  | c :: digits =>
      if char_eqb c ":" && negb (is_empty digits)
         && (length digits <=? 5)%nat && forallb is_digit digits
      then Some digits else None
  end.

(** The regular expression
    [^(([0-9\.]+)|\[([0-9a-f:\.]+)])(:([0-9]{1,5}))?$] of [operator>>], on
    a text without line breaks: the groups 2, 3 and 5 of the match.  The
    alternatives start with different characters, and a class repetition
    can only end where a character outside the class follows, so the
    match, if there is one, is the one found here. *)
Definition regular (value : text) : option (text * text * text) :=
  if starts_with_char "[" value then
    let '(group3, rest) := span ipv6_char (tl value) in
    if is_empty group3 then None
    else if starts_with_char "]" rest then
      match match_port (tl rest) with
      | Some group5 => Some ([], group3, group5)
      | None => None
      end
    else None
  else
    let '(group2, rest) := span digit_or_dot value in
    if is_empty group2 then None
    else
      match match_port rest with
      | Some group5 => Some (group2, [], group5)
      | None => None
      end.

(** The decimal value of a text of digits. *)
Definition decimal_value (digits : text) : Z :=
  fold_left (fun n c => n * 10 + (char_code c - 48)) digits 0.

(** [boost::lexical_cast<uint16_t>] of a text of one to five digits;
    [None] is [bad_lexical_cast]. *)
Definition lexical_cast_uint16 (digits : text) : option Z :=
  if negb (is_empty digits) && forallb is_digit digits
     && (decimal_value digits <=? 65535)
  then Some (decimal_value digits) else None.

(** [operator>>]; [None] is the thrown [istream_exception]. *)
Definition parse (input : text) : option authority :=
  let value := extract input in
  match regular value with
  | None => None
  | Some (group2, group3, group5) =>
      let port := group5 in
      let ip_address := if is_empty group3 then to_ipv6 group2 else group3 in
      match asio.from_string ip_address with
      | None => None
      | Some ip =>
          match (if is_empty port then Some 0 else lexical_cast_uint16 port) with
          | None => None
          | Some p => Some (make_authority ip p)
          end
      end
  end.

End config.

(** ** The objects the sessions drive

    Their classes (channel, socket, connector, acceptor) are not among the
    translated sources; an object is its identity together with the
    properties the sessions read from it. *)

Record channel : Type := make_channel {
  channel_ptr : nat;       (* identity of the shared object *)
  nonce : Z                (* channel->nonce(), a uint64_t *)
}.

Record socket : Type := make_socket {
  socket_ptr : nat;
  authority : config.authority   (* socket->authority() *)
}.

Definition connector : Type := nat.
Definition acceptor : Type := nat.

(** The fields of [network::settings] the sessions read. *)
Record settings : Type := make_settings {
  outbound_connections : Z;
  host_pool_capacity : Z;
  connect_batch_size : Z;
  inbound_connections : Z;
  connect_timeout : Z;
  blacklists : list config.authority;
  whitelists : list config.authority
}.

(** What a session does to the objects around it, in program order. *)
Inductive event : Type :=
| handler_invoked (h : nat) (ec : code)
    (* a handler supplied by the session's caller is called with [ec] *)
| channel_stop (c : channel) (ec : code)
    (* channel->stop(ec) *)
| attach_handshake_posted (c : channel)
    (* post(channel->strand(), BIND2(do_attach_handshake, channel, shake)) *)
| connectors_created (ks : list connector)
    (* create_connectors(batch_) *)
| connector_stop_subscribed (k : connector)
    (* stop_subscriber_->subscribe([=](const code&){ connector->stop(); }) *)
| connector_stop (k : connector)
    (* connector->stop() *)
| fetch_requested (k : connector)
    (* fetch(BIND4(start_batch, _1, _2, connector, start)) *)
| connect_requested (k : connector) (host : config.authority)
    (* connector->connect(host, handler) *)
| timer_started (ks : list connector) (timeout : Z)
    (* timer_->start(BIND1(start_connect, connectors), timeout) *)
| socket_stop (s : socket)
    (* socket->stop() *)
| accept_requested (a : acceptor)
    (* acceptor->accept(BIND3(handle_accept, _1, _2, acceptor)) *)
| accept_deferred (a : acceptor)
    (* defer(BIND2(start_accept, _1, acceptor)) *)
| channel_created (s : socket) (c : channel)
    (* create_channel(socket, false) *).

(** The state on the network strand: the session's members, the members
    of [session_outbound], and what the session reads from [p2p]. *)
Record world : Type := make_world {
  stopped_ : bool;                 (* session::stopped_ *)
  pending_ : gset nat;             (* session::pending_, by channel identity *)
  batch_ : Z;                      (* session_outbound::batch_ *)
  count_ : Z;                      (* session_outbound::count_ *)
  nonces_ : gset Z;                (* p2p: the pended handshake nonces *)
  address_count : Z;               (* p2p::address_count() *)
  inbound_channel_count : Z;       (* p2p::inbound_channel_count() *)
  next_connector : nat;            (* supply of connector identities *)
  trace : list event
}.

Definition set_stopped (b : bool) (w : world) : world :=
  make_world b (pending_ w) (batch_ w) (count_ w) (nonces_ w)
    (address_count w) (inbound_channel_count w) (next_connector w) (trace w).

Definition set_pending (p : gset nat) (w : world) : world :=
  make_world (stopped_ w) p (batch_ w) (count_ w) (nonces_ w)
    (address_count w) (inbound_channel_count w) (next_connector w) (trace w).

Definition set_count (n : Z) (w : world) : world :=
  make_world (stopped_ w) (pending_ w) (batch_ w) n (nonces_ w)
    (address_count w) (inbound_channel_count w) (next_connector w) (trace w).

Definition set_nonces (s : gset Z) (w : world) : world :=
  make_world (stopped_ w) (pending_ w) (batch_ w) (count_ w) s
    (address_count w) (inbound_channel_count w) (next_connector w) (trace w).

Definition set_next_connector (n : nat) (w : world) : world :=
  make_world (stopped_ w) (pending_ w) (batch_ w) (count_ w) (nonces_ w)
    (address_count w) (inbound_channel_count w) n (trace w).

Definition emit (e : event) (w : world) : world :=
  make_world (stopped_ w) (pending_ w) (batch_ w) (count_ w) (nonces_ w)
    (address_count w) (inbound_channel_count w) (next_connector w)
    (trace w ++ [e]).

Definition action : Type := world -> world.
Definition result_handler : Type := code -> action.
Definition channel_handler : Type := code -> option channel -> action.

(** Statement sequencing: [f >>> g] runs [f], then [g]. *)
Definition seq_action (f g : action) : action := fun w => g (f w).
Notation "f >>> g" := (seq_action f g) (at level 61, left associativity).

Definition skip : action := fun w => w.

(** A handler of the session's caller, known by name: calling it is an
    event. *)
Definition external (h : nat) : result_handler :=
  fun ec => emit (handler_invoked h ec).

(** ** src/sessions/session.cpp *)

Module session.

(** The constructor leaves a session stopped, with nothing pending. *)
Definition create (nonces : gset Z) (addresses inbound_channels : Z) : world :=
  make_world true ∅ 0 0 nonces addresses inbound_channels 0 [].

Definition start (handler : result_handler) : action := fun w =>
  if negb (stopped_ w) then handler operation_failed w
  else (set_stopped false >>> handler success) w.

(** Modelled from the spec: [p2p::pend] is not among the sources; "pend
    returns false on duplicate", and otherwise records the nonce. *)
Definition pend (n : Z) (w : world) : bool * world :=
  if decide (n ∈ nonces_ w) then (false, w)
  else (true, set_nonces ({[ n ]} ∪ nonces_ w) w).

(** [contains(settings().blacklists, authority)]. *)
Definition blacklisted (cfg : settings) (a : config.authority) : bool :=
  existsb (config.eqb a) (blacklists cfg).

(** Modelled from the spec: [session::whitelisted] is not among the
    sources; "check whitelist (if non-empty, require membership)". *)
Definition whitelisted (cfg : settings) (a : config.authority) : bool :=
  match whitelists cfg with
  | [] => true
  | _ => existsb (config.eqb a) (whitelists cfg)
  end.

(** [inbound] is the virtual [inbound()] of the derived session.  In
    [!inbound() && !network_.pend(channel->nonce())] the nonce is pended
    only when the session is not inbound. *)
Definition start_channel (inbound : bool) (c : channel)
    (started stopped : result_handler) : action := fun w =>
  if stopped_ w then
    (emit (channel_stop c service_stopped) >>>
     started service_stopped >>>
     stopped service_stopped) w
  else
    let '(conflict, w1) :=
      if inbound then (false, w)
      else let '(pended, w') := pend (nonce c) w in (negb pended, w') in
    if conflict then
      (emit (channel_stop c channel_conflict) >>>
       started channel_conflict >>>
       stopped channel_conflict) w1
    else
      (set_pending ({[ channel_ptr c ]} ∪ pending_ w1) >>>
       emit (attach_handshake_posted c)) w1.

End session.

(** ** src/sessions/session_outbound.cpp *)

Module session_outbound.

(** [inbound()] of this session. *)
Definition inbound : bool := false.

(** The constructor on top of [session]'s:
    [batch_(std::max(connect_batch_size, 1u)), count_(zero)]. *)
Definition create (cfg : settings) (nonces : gset Z)
    (addresses inbound_channels : Z) : world :=
  make_world true ∅ (Z.max (connect_batch_size cfg) 1) 0 nonces addresses
    inbound_channels 0 [].

(** [create_connectors(batch_)]: [batch_] new connectors. *)
Definition create_connectors (n : Z) (w : world) : list connector * world :=
  let ks := seq (next_connector w) (Z.to_nat n) in
  (ks, (set_next_connector (next_connector w + Z.to_nat n)%nat >>>
        emit (connectors_created ks)) w).

(** [for (const auto& connector: *connectors) body(connector)]. *)
Fixpoint for_each (body : connector -> action) (ks : list connector) : action :=
  match ks with
  | [] => skip
  | k :: rest => body k >>> for_each body rest
  end.

(** [batch] binds [handle_batch] over the handler and asks the address
    store for one host per connector; each answer arrives later, as a
    call of [start_batch]. *)
Definition batch (connectors : list connector) : action :=
  for_each (fun k => emit (fetch_requested k)) connectors.

Definition start_connect (connectors : list connector) : action := fun w =>
  if stopped_ w then w
  else batch connectors w.

Definition handle_channel_start (ec : code) (c : channel) : action := skip.

Definition handle_channel_stop (ec : code) (connectors : list connector)
    : action :=
  start_connect connectors.

(** A null channel never comes with [success]; on that (unreachable) path
    the model does nothing. *)
Definition handle_connect (cfg : settings) (ec : code) (c : option channel)
    (connectors : list connector) : action := fun w =>
  if error.eqb ec service_stopped then w
  else if to_bool ec then
    emit (timer_started connectors (connect_timeout cfg)) w
  else
    match c with
    | None => w
    | Some ch =>
        if stopped_ w then emit (channel_stop ch service_stopped) w
        else
          session.start_channel inbound ch
            (fun ec' => handle_channel_start ec' ch)
            (fun ec' => handle_channel_stop ec' connectors) w
    end.

Definition start_batch (cfg : settings) (ec : code) (host : config.authority)
    (k : connector) (handler : channel_handler) : action := fun w =>
  if stopped_ w then handler service_stopped None w
  else if to_bool ec then handler ec None w
  else if session.blacklisted cfg host then handler address_blocked None w
  else emit (connect_requested k host) w.

(** "Called once for each call to start_batch."  [++count_] is on a
    [size_t]. *)
Definition handle_batch (ec : code) (c : option channel)
    (connectors : list connector) (handler : channel_handler) : action :=
  fun w =>
  let w1 := set_count (wrap64 (count_ w + 1)) w in
  let finish := count_ w1 =? batch_ w1 in
  if negb (to_bool ec) then
    let w2 :=
      if negb finish then
        (set_count (batch_ w1) >>>
         for_each (fun k => emit (connector_stop k)) connectors) w1
      else w1 in
    handler success c w2
  else if finish then handler connect_failed None w1
  else w1.

(** The handler [start_connect] binds for its batch. *)
Definition batch_handler (cfg : settings) (connectors : list connector)
    : channel_handler :=
  fun ec c => handle_connect cfg ec c connectors.

(** [for (size_t peer = 0; peer < outbound_connections; ++peer)]. *)
Fixpoint start_peers (peers : nat) : action :=
  match peers with
  | O => skip
  | S n => fun w =>
      let '(connectors, w1) := create_connectors (batch_ w) w in
      (for_each (fun k => emit (connector_stop_subscribed k)) connectors >>>
       start_connect connectors >>>
       start_peers n) w1
  end.

Definition handle_started (cfg : settings) (ec : code)
    (handler : result_handler) : action := fun w =>
  if to_bool ec then handler ec w
  else (start_peers (Z.to_nat (outbound_connections cfg)) >>>
        handler success) w.

Definition start (cfg : settings) (handler : result_handler) : action :=
  fun w =>
  if is_zero (outbound_connections cfg) || is_zero (host_pool_capacity cfg)
  then handler success w
  else if is_zero (address_count w) then handler address_not_found w
  else session.start (fun ec => handle_started cfg ec handler) w.

End session_outbound.

(** ** src/sessions/session_inbound.cpp *)

Module session_inbound.

Definition inbound : bool := true.

Definition start_accept (ec : code) (a : acceptor) : action := fun w =>
  if stopped_ w then w
  else if to_bool ec then w
  else emit (accept_requested a) w.

Definition handle_channel_start (ec : code) (c : channel) : action := skip.
Definition handle_channel_stop (ec : code) (c : channel) : action := skip.

(** [create_channel(socket, false)] is not among the sources: the channel
    it returns is the argument [fresh]. *)
Definition create_channel (s : socket) (fresh : channel) : action :=
  emit (channel_created s fresh).

(** [socket] is null exactly when [ec] is an error (the assertion in the
    error branch); a null socket with [success] is not reachable, and the
    model stops after re-arming there. *)
Definition handle_accept (cfg : settings) (ec : code) (s : option socket)
    (a : acceptor) (fresh : channel) : action := fun w =>
  if stopped_ w then
    match s with
    | Some sock => emit (socket_stop sock) w
    | None => w
    end
  else if to_bool ec then emit (accept_deferred a) w
  else
    let w1 := start_accept success a w in
    match s with
    | None => w1
    | Some sock =>
        if negb (session.whitelisted cfg (authority sock)) then
          emit (socket_stop sock) w1
        else if session.blacklisted cfg (authority sock) then
          emit (socket_stop sock) w1
        else if inbound_connections cfg <=? inbound_channel_count w1 then
          emit (socket_stop sock) w1
        else
          (create_channel sock fresh >>>
           session.start_channel inbound fresh
             (fun ec' => handle_channel_start ec' fresh)
             (fun ec' => handle_channel_stop ec' fresh)) w1
    end.

End session_inbound.

(** ** src/protocols/protocol_ping_60001.cpp *)

Module protocol_ping_60001.

(** What the protocol does to its channel. *)
Inductive effect : Type :=
| stop (ec : code)                 (* stop(ec) *)
| subscribe_pong (nonce : Z)       (* SUBSCRIBE3(pong, handle_receive_pong, _1, _2, nonce) *)
| send_ping_message (nonce : Z)    (* SEND2(ping{ nonce }, handle_send_ping, ...) *)
| send_pong_message (nonce : Z).   (* SEND2(pong{ message->nonce }, handle_send, ...) *)

Record protocol : Type := make {
  pending_ : bool;
  channel_stopped : bool;          (* the channel's stopped state *)
  effects : list effect
}.

(** The constructor: [pending_(false)]. *)
Definition create : protocol := make false false [].

Definition set_pending (b : bool) (p : protocol) : protocol :=
  make b (channel_stopped p) (effects p).

Definition do_stop (ec : code) (p : protocol) : protocol :=
  make (pending_ p) true (effects p ++ [stop ec]).

Definition do_effect (e : effect) (p : protocol) : protocol :=
  make (pending_ p) (channel_stopped p) (effects p ++ [e]).

Section protocol.

(** [protocol::stopped(const code&)] belongs to the base class, which is
    not among the sources: it is a parameter. *)
Variable stopped : protocol -> code -> bool.

(** [random] is the value of [pseudo_random::next<uint64_t>()]. *)
Definition send_ping (ec : code) (random : Z) (p : protocol) : protocol :=
  if stopped p ec then p
  else if to_bool ec && negb (error.eqb ec channel_timeout) then do_stop ec p
  else if pending_ p then do_stop channel_timeout p
  else
    let p1 := set_pending true p in
    let nonce := random in
    do_effect (send_ping_message nonce) (do_effect (subscribe_pong nonce) p1).

Definition handle_send_ping (ec : code) (p : protocol) : protocol :=
  if stopped p ec then p
  else if to_bool ec then do_stop ec p
  else p.

(** The result is the handler's return value (whether the subscription
    is kept) and the state after it. *)
Definition handle_receive_ping (ec : code) (message_nonce : Z) (p : protocol)
    : bool * protocol :=
  if stopped p ec then (false, p)
  else if to_bool ec then (false, do_stop ec p)
  else (true, do_effect (send_pong_message message_nonce) p).

Definition handle_receive_pong (ec : code) (message_nonce nonce : Z)
    (p : protocol) : bool * protocol :=
  if stopped p ec then (false, p)
  else if to_bool ec then (false, do_stop ec p)
  else
    let p1 := set_pending false p in
    if negb (message_nonce =? nonce) then (false, do_stop bad_stream p1)
    else (false, p1).

End protocol.

(** The base-class test as the channel's state alone; used to run the
    protocol on concrete inputs. *)
Definition channel_state_stopped (p : protocol) (ec : code) : bool :=
  channel_stopped p.

End protocol_ping_60001.

(** ** The reader and the writer of libbitcoin-system

    The messages read from a [system::reader] and write to a
    [system::writer].  Both belong to libbitcoin-system; they are modelled
    by their contract: a reader is the bytes not yet consumed and a
    validity flag that only [invalidate] and a read past the end change,
    and never back to valid; a read from a reader that is exhausted or
    invalid yields zero. *)

Module system.

Record reader : Type := make_reader {
  remaining : list Z;
  valid : bool
}.

(** [read::bytes::copy reader(data)] and [operator bool]. *)
Definition reader_of (data : list Z) : reader := make_reader data true.

Definition invalidate (r : reader) : reader := make_reader (remaining r) false.

Definition read_byte (r : reader) : Z * reader :=
  if valid r then
    match remaining r with
    | [] => (0, invalidate r)
    | b :: rest => (b, make_reader rest true)
    end
  else (0, r).

(** [n] bytes, in stream order. *)
Fixpoint read_bytes (n : nat) (r : reader) : list Z * reader :=
  match n with
  | O => ([], r)
  | S k =>
      let '(b, r1) := read_byte r in
      let '(bs, r2) := read_bytes k r1 in
      (b :: bs, r2)
  end.

Fixpoint from_little_endian (bs : list Z) : Z :=
  match bs with
  | [] => 0
  | b :: rest => Z.lor b (Z.shiftl (from_little_endian rest) 8)
  end.

Definition read_little_endian (n : nat) (r : reader) : Z * reader :=
  let '(bs, r1) := read_bytes n r in (from_little_endian bs, r1).

Definition varint_two_bytes : Z := 0xfd.
Definition varint_four_bytes : Z := 0xfe.
Definition varint_eight_bytes : Z := 0xff.

Definition read_variable (r : reader) : Z * reader :=
  let '(value, r1) := read_byte r in
  if value =? varint_eight_bytes then read_little_endian 8 r1
  else if value =? varint_four_bytes then read_little_endian 4 r1
  else if value =? varint_two_bytes then read_little_endian 2 r1
  else (value, r1).

(** [read_size(limit)]: a size above the limit invalidates the reader and
    reads as zero. *)
Definition read_size (limit : Z) (r : reader) : Z * reader :=
  let '(size, r1) := read_variable r in
  if size >? limit then (0, invalidate r1) else (size, r1).

(** The sink of a writer: the bytes written so far, in order. *)
Definition writer : Type := list Z.

(** [sink.get_write_position()]. *)
Definition get_write_position (sink : writer) : Z := Z.of_nat (length sink).

Definition write_byte (b : Z) (sink : writer) : writer := sink ++ [b].

Definition write_bytes (bs : list Z) (sink : writer) : writer := sink ++ bs.

Fixpoint to_little_endian (n : nat) (value : Z) : list Z :=
  match n with
  | O => []
  | S k => Z.land value 0xff :: to_little_endian k (Z.shiftr value 8)
  end.

Definition write_little_endian (n : nat) (value : Z) (sink : writer) : writer :=
  write_bytes (to_little_endian n value) sink.

Definition write_variable (value : Z) (sink : writer) : writer :=
  if value <? varint_two_bytes then write_byte value sink
  else if value <=? 0xffff then
    write_little_endian 2 value (write_byte varint_two_bytes sink)
  else if value <=? 0xffffffff then
    write_little_endian 4 value (write_byte varint_four_bytes sink)
  else write_little_endian 8 value (write_byte varint_eight_bytes sink).

Definition variable_size (value : Z) : Z :=
  if value <? varint_two_bytes then 1
  else if value <=? 0xffff then 3
  else if value <=? 0xffffffff then 5
  else 9.

(** [size_variable(first_byte)]: the width of a variable integer, from its
    first byte. *)
Definition size_variable (first : Z) : Z :=
  if first =? varint_eight_bytes then 9
  else if first =? varint_four_bytes then 5
  else if first =? varint_two_bytes then 3
  else 1.

(** [chain::header]: its six wire fields and the hash cache that
    [set_hash] fills. *)
Record header : Type := make_header {
  version : Z;
  previous_block_hash : list Z;
  merkle_root : list Z;
  timestamp : Z;
  bits : Z;
  nonce : Z;
  hash : option (list Z)
}.

Definition hash_size : nat := 32.

(** [chain::header::serialized_size()]. *)
Definition serialized_size : Z := 4 + 32 + 32 + 4 + 4 + 4.

(** The header's wire fields are well formed: 32-byte hashes. *)
Definition well_formed (h : header) : bool :=
  (length (previous_block_hash h) =? hash_size)%nat
  && (length (merkle_root h) =? hash_size)%nat.

(** [chain::header{ source }]. *)
Definition read_header (r : reader) : header * reader :=
  let '(v, r1) := read_little_endian 4 r in
  let '(previous, r2) := read_bytes hash_size r1 in
  let '(merkle, r3) := read_bytes hash_size r2 in
  let '(time, r4) := read_little_endian 4 r3 in
  let '(b, r5) := read_little_endian 4 r4 in
  let '(n, r6) := read_little_endian 4 r5 in
  (make_header v previous merkle time b n None, r6).

(** [header->to_data(sink)]. *)
Definition to_data (h : header) (sink : writer) : writer :=
  write_little_endian 4 (nonce h)
    (write_little_endian 4 (bits h)
      (write_little_endian 4 (timestamp h)
        (write_bytes (merkle_root h)
          (write_bytes (previous_block_hash h)
            (write_little_endian 4 (version h) sink))))).

Definition set_hash (digest : list Z) (h : header) : header :=
  make_header (version h) (previous_block_hash h) (merkle_root h)
    (timestamp h) (bits h) (nonce h) (Some digest).

End system.

(** ** src/messages *)

Module messages.
Import system.

(** The protocol levels of enums/level.hpp and the limit of
    enums/magic_numbers.hpp that the two messages name; the headers are
    not among the sources, so the values are parameters. *)
Record levels : Type := make_levels {
  headers_protocol : Z;
  bip37 : Z;
  maximum_protocol : Z;
  max_get_headers : Z
}.

(** *** src/messages/headers.cpp *)

Module headers.
Section headers.

Variable level : levels.

(** [bitcoin_hash(size, pointer)], the double SHA-256 of libbitcoin-system. *)
Variable bitcoin_hash : list Z -> list Z.

Definition version_minimum : Z := headers_protocol level.
Definition version_maximum : Z := maximum_protocol level.

(** "Each header must trail a zero byte". *)
Definition trail : Z := 0x00.

(** [sizeof(trail)]. *)
Definition sizeof_trail : Z := 1.

(** The message: its [header_ptrs]. *)
Definition t : Type := list header.

(** The loop of [deserialize]: [count] headers, each followed by its
    trail byte. *)
Fixpoint read_header_ptrs (count : nat) (source : reader) : t * reader :=
  match count with
  | O => ([], source)
  | S k =>
      let '(h, s1) := read_header source in
      let '(b, s2) := read_byte s1 in
      let s3 := if negb (b =? trail) then invalidate s2 else s2 in
      let '(rest, s4) := read_header_ptrs k s3 in
      (h :: rest, s4)
  end.

(** [headers::deserialize(uint32_t version, reader& source)]. *)
Definition deserialize (version : Z) (source : reader) : t * reader :=
  let s0 :=
    if (version <? version_minimum) || (version >? version_maximum)
    then invalidate source else source in
  let '(size, s1) := read_size (max_get_headers level) s0 in
  read_header_ptrs (Z.to_nat size) s1.

(** The loop that sets each header's hash from the wire bytes: [hash]
    is the data from the current header on. *)
Fixpoint set_hashes (message : t) (hash : list Z) : t :=
  match message with
  | [] => []
  | h :: rest =>
      set_hash (bitcoin_hash (firstn (Z.to_nat serialized_size) hash)) h
      :: set_hashes rest (skipn (Z.to_nat (serialized_size + 1)) hash)
  end.

(** [headers::deserialize(uint32_t version, const data_chunk& data)]:
    [None] is the null pointer.  [data.front()] is read after the reader
    was found valid, so [data] is not empty there. *)
Definition deserialize_ptr (version : Z) (data : list Z) : option t :=
  let '(message, reader) := deserialize version (reader_of data) in
  if negb (valid reader) then None
  else
    let front := match data with b :: _ => b | [] => 0 end in
    Some (set_hashes message (skipn (Z.to_nat (size_variable front)) data)).

(** [headers::serialize(uint32_t version, writer& sink)]. *)
Definition serialize (version : Z) (message : t) (sink : writer) : writer :=
  fold_left (fun s h => write_byte trail (to_data h s)) message
    (write_variable (Z.of_nat (length message)) sink).

(** [headers::size(uint32_t)]. *)
Definition size (version : Z) (message : t) : Z :=
  variable_size (Z.of_nat (length message)) +
  (Z.of_nat (length message) * serialized_size + sizeof_trail).

(** The bytes [serialize] adds to the sink:
    [sink.get_write_position() - start]. *)
Definition bytes_written (version : Z) (message : t) (sink : writer) : Z :=
  get_write_position (serialize version message sink) - get_write_position sink.

End headers.
End headers.

(** *** src/messages/bloom_filter_clear.cpp *)

Module bloom_filter_clear.
Section bloom_filter_clear.

Variable level : levels.

Definition version_minimum : Z := bip37 level.
Definition version_maximum : Z := maximum_protocol level.

(** The message has no fields. *)
Definition t : Type := unit.

Definition size (version : Z) : Z := 0.

Definition deserialize (version : Z) (source : reader) : t * reader :=
  let s0 :=
    if (version <? version_minimum) || (version >? version_maximum)
    then invalidate source else source in
  (tt, s0).

Definition serialize (version : Z) (message : t) (sink : writer) : writer :=
  sink.

End bloom_filter_clear.
End bloom_filter_clear.

(** Modelled from the spec: the pointer-returning deserialize of a
    message that has none of its own in the sources (bloom_filter_clear).
    "Decode: ... invoke the variant's deserialize(negotiated_version,
    reader) (else invalid_message)": the message is produced only when the
    reader is still valid, as in [headers::deserialize] from a data chunk. *)
Definition deserialize_ptr {M : Type} (deserialize : Z -> reader -> M * reader)
    (version : Z) (data : list Z) : option M :=
  let '(message, reader) := deserialize version (reader_of data) in
  if negb (valid reader) then None else Some message.

(** The message variants whose deserializers are among the sources. *)
Inductive variant : Type := headers_message | bloom_filter_clear_message.

Definition version_minimum (level : levels) (m : variant) : Z :=
  match m with
  | headers_message => headers.version_minimum level
  | bloom_filter_clear_message => bloom_filter_clear.version_minimum level
  end.

Definition version_maximum (level : levels) (m : variant) : Z :=
  match m with
  | headers_message => headers.version_maximum level
  | bloom_filter_clear_message => bloom_filter_clear.version_maximum level
  end.

(** The reader as [M::deserialize(version, source)] leaves it. *)
Definition source_after (level : levels) (m : variant) (version : Z)
    (source : reader) : reader :=
  match m with
  | headers_message => snd (headers.deserialize level version source)
  | bloom_filter_clear_message =>
      snd (bloom_filter_clear.deserialize level version source)
  end.

(** Whether decoding [data] as [m] produces a message value. *)
Definition decodes (level : levels) (bitcoin_hash : list Z -> list Z)
    (m : variant) (version : Z) (data : list Z) : bool :=
  match m with
  | headers_message =>
      match headers.deserialize_ptr level bitcoin_hash version data with
      | Some _ => true
      | None => false
      end
  | bloom_filter_clear_message =>
      match deserialize_ptr (bloom_filter_clear.deserialize level) version data with
      | Some _ => true
      | None => false
      end
  end.

End messages.

(** ** Runs of the sessions used in the statements below *)

(** The configuration of the runs below: one outbound slot, batches of
    two connectors, a pool of ten hosts, a connect timeout of five. *)
Definition two_connector_settings : settings :=
  make_settings 1 10 2 8 5 [] [].

(** A configuration that asks for no outbound connection. *)
Definition no_outbound_settings : settings :=
  make_settings 0 10 2 8 5 [] [].

(** The start sequence of a configured session: one batch of two
    connectors is created and started, then the handler is called. *)
Definition started_outbound : world :=
  session_outbound.start two_connector_settings (external 0)
    (session_outbound.create two_connector_settings ∅ 3 0).

(** One connect attempt of the batch [0; 1] fails. *)
Definition attempt_fails : action :=
  session_outbound.handle_batch connect_failed None [0%nat; 1%nat]
    (session_outbound.batch_handler two_connector_settings [0%nat; 1%nat]).

(** The first batch fails as a whole: the handler runs once with
    [connect_failed] and arms the retry timer. *)
Definition first_batch_failed : world :=
  (attempt_fails >>> attempt_fails) started_outbound.

(** The timer fires and [start_connect] starts the second batch. *)
Definition second_batch_started : world :=
  session_outbound.start_connect [0%nat; 1%nat] first_batch_failed.

(** An accepted socket from 1.2.240.1:42 and the channel made for it. *)
Definition peer_socket : socket :=
  make_socket 1
    (config.make_authority [0;0;0;0;0;0;0;0;0;0;255;255;1;2;240;1] 42).

Definition peer_channel : channel := make_channel 1 99.

Definition inbound_settings : settings :=
  make_settings 0 0 1 8 5 [] [].

(** An inbound session that has been stopped. *)
Definition stopped_inbound : world := session.create ∅ 0 0.

(** A block header with 32-byte hashes, and protocol levels to run the
    messages with. *)
Definition sample_header : system.header :=
  system.make_header 1 (repeat 0 32) (repeat 7 32) 1231006505 486604799
    2083236893 None.

Definition sample_levels : messages.levels :=
  messages.make_levels 31800 70001 70013 2000.

(** The two authorities of the tests: 2001:db8::2 and the IPv4-mapped
    1.2.240.1, both with port 42. *)
Definition ipv6_authority : config.authority :=
  config.make_authority [0x20; 0x01; 0x0d; 0xb8; 0; 0; 0; 0; 0; 0; 0; 0; 0; 0; 0; 2] 42.

Definition ipv4_authority : config.authority :=
  config.make_authority [0; 0; 0; 0; 0; 0; 0; 0; 0; 0; 0xff; 0xff; 1; 2; 0xf0; 1] 42.

(** ** Auxiliary definitions for the proofs about the address text *)

(** [f] holds of [count] integers from [start] on; of all below [n]. *)
Fixpoint all_from (f : Z -> bool) (count : nat) (start : Z) : bool :=
  match count with
  | O => true
  | S k => f start && all_from f k (start + 1)
  end.

Definition all_below (f : Z -> bool) (n : Z) : bool :=
  all_from f (Z.to_nat n) 0.

(** A 16-bit word from its bytes, as [inet_ntop6] builds it. *)
Definition word_of (hi lo : Z) : Z := Z.lor (Z.shiftl hi 8) lo.

(** The hexadecimal branch of [pton6_loop] alone, over a text of digits:
    the digits seen and the value after them. *)
Fixpoint hex_scan (digits : text) (seen val : Z) : option (Z * Z) :=
  match digits with
  | [] => Some (seen, val)
  | ch :: rest =>
      match asio.hex_digit_value ch with
      | Some digit =>
          if seen =? 4 then None
          else
            let val' := Z.lor (Z.shiftl val 4) digit in
            if val' >? 0xffff then None else hex_scan rest (seen + 1) val'
      | None => None
      end
  end.

(** The digit branch of [pton4_loop] alone, over a text of digits. *)
Fixpoint dec_scan (digits : text) (cur : Z) (saw_digit : bool) : option Z :=
  match digits with
  | [] => if saw_digit then Some cur else None
  | ch :: rest =>
      if is_digit ch then
        let new := cur * 10 + (char_code ch - 48) in
        if saw_digit && (cur =? 0) then None
        else if new >? 255 then None
        else dec_scan rest new true
      else None
  end.

(** The number of digits of a word in hexadecimal. *)
Definition hex_seen (w : Z) : Z := Z.of_nat (length (print_hex w)).

(** The groups after the first: each after a colon. *)
Definition tail_groups (ws : list Z) : text :=
  flat_map (fun w => ":"%char :: print_hex w) ws.

(** Groups joined by colons. *)
Definition join (ws : list Z) : text :=
  match ws with
  | [] => []
  | w :: rest => print_hex w ++ tail_groups rest
  end.

(** The bytes of the words [ws], stored after [tp]. *)
Definition store_words (ws : list Z) (tp : list Z) : list Z :=
  fold_left (fun t w => asio.put_word w t) ws tp.

(** The state of [pton6_loop] after the groups [ws], each after a colon,
    when it held the value [val] before them: the bytes stored and the
    value held. *)
Fixpoint pending_after (ws : list Z) (tp : list Z) (val : Z) : list Z * Z :=
  match ws with
  | [] => (tp, val)
  | w :: rest => pending_after rest (asio.put_word val tp) w
  end.

(** The forms of the text [inet_ntop6] produces: all eight groups; the
    groups before and after the compressed run; the IPv4-compatible and
    the IPv4-mapped forms with a dotted tail. *)
Inductive shape : Type :=
| full (ws : list Z)
| compressed (pre post : list Z)
| compatible (quad : list Z)
| mapped (quad : list Z).

Definition render (sh : shape) : text :=
  match sh with
  | full ws => join ws
  | compressed pre post => join pre ++ txt "::" ++ join post
  | compatible quad => txt "::" ++ asio.inet_ntop4 quad
  | mapped quad => txt "::ffff:" ++ asio.inet_ntop4 quad
  end.

Definition shape_bytes (sh : shape) : list Z :=
  match sh with
  | full ws => store_words ws []
  | compressed pre post =>
      store_words pre []
      ++ repeat 0 (16 - 2 * length pre - 2 * length post)
      ++ store_words post []
  | compatible quad => repeat 0 12 ++ quad
  | mapped quad => repeat 0 10 ++ [255; 255] ++ quad
  end.

(** The second loop of [inet_ntop6] again, reading the test
    [words[5] == 0xffff] from [is_mapped] and the dotted tail from the
    bytes [quad]. *)
Fixpoint format_with (is_mapped : bool) (quad : list Z) (best : asio.run)
    (i : Z) (rest : list Z) : text :=
  match rest with
  | [] => []
  | w :: rest' =>
      if negb (asio.base best =? -1) && (asio.base best <=? i)
         && (i <? asio.base best + asio.len best)
      then
        (if i =? asio.base best then txt ":" else [])
        ++ format_with is_mapped quad best (i + 1) rest'
      else
        (if negb (i =? 0) then txt ":" else [])
        ++ (if (i =? 6) && (asio.base best =? 0)
               && ((asio.len best =? 6) || ((asio.len best =? 5) && is_mapped))
            then asio.inet_ntop4 quad
            else print_hex w ++ format_with is_mapped quad best (i + 1) rest')
  end.

(** The form [inet_ntop6] gives an address with words [ws] and last four
    bytes [quad], when [best] is the run it compresses. *)
Definition shape_with (is_mapped : bool) (quad ws : list Z) (best : asio.run)
    : shape :=
  if asio.base best =? -1 then full ws
  else if (asio.base best =? 0) && (asio.len best =? 6) then compatible quad
  else if (asio.base best =? 0) && (asio.len best =? 5) && is_mapped then
    mapped quad
  else
    compressed (firstn (Z.to_nat (asio.base best)) ws)
      (skipn (Z.to_nat (asio.base best + asio.len best)) ws).

Definition is_word (w : Z) : bool := (0 <=? w) && (w <? 65536).
Definition is_byte (b : Z) : bool := (0 <=? b) && (b <? 256).

Definition shape_ok (sh : shape) : bool :=
  match sh with
  | full ws => (length ws =? 8)%nat && forallb is_word ws
  | compressed pre post =>
      (length pre + length post <=? 6)%nat
      && forallb is_word pre && forallb is_word post
  | compatible quad | mapped quad =>
      (length quad =? 4)%nat && forallb is_byte quad
  end.

(** What the run chosen by [best_of] is known to be: none, or at least
    two words, inside the address, all of them zero. *)
Definition run_ok (zeros : list bool) (r : asio.run) : bool :=
  (asio.base r =? -1)
  || ((0 <=? asio.base r) && (2 <=? asio.len r)
      && (asio.base r + asio.len r <=? 8)
      && forallb (fun i => nth i zeros false)
           (seq (Z.to_nat (asio.base r)) (Z.to_nat (asio.len r)))).

(** The properties of the numerals, as tests to run over all words,
    bytes and ports. *)
Definition lower_hex (c : ascii) : bool :=
  is_digit c || ((97 <=? char_code c) && (char_code c <=? 102)).

Definition check_hex (w : Z) : bool :=
  let digits := print_hex w in
  match hex_scan digits 0 0 with
  | Some (seen, val) =>
      (seen =? Z.of_nat (length digits)) && (val =? w) && (0 <? seen)
  | None => false
  end
  && forallb lower_hex digits.

Definition check_octet (a : Z) : bool :=
  let digits := print_dec a in
  match dec_scan digits 0 false with
  | Some v => v =? a
  | None => false
  end
  && match hex_scan digits 0 0 with
     | Some _ => true
     | None => false
     end
  && forallb is_digit digits.

Definition check_port (p : Z) : bool :=
  let digits := print_dec p in
  match config.lexical_cast_uint16 digits with
  | Some v => v =? p
  | None => false
  end
  && negb (is_empty digits) && (length digits <=? 5)%nat
  && forallb is_digit digits.

Definition check_bytes (hi lo : Z) : bool :=
  let w := word_of hi lo in
  is_word w
  && (Z.land (Z.shiftr w 8) 0xff =? hi)
  && (Z.land w 0xff =? lo)
  && (negb (w =? 0) || ((hi =? 0) && (lo =? 0))).

(** ** src/error.cpp: the mapping of the errors of boost::asio

    [boost_error_t] is [boost::system::errc::errc_t], the conditions the
    mapping compares an [error::boost_code] with; a code is modelled by
    the condition it is equivalent to. *)

Module boost.

Inductive boost_error_t : Type :=
| success | address_family_not_supported | address_in_use
| address_not_available | already_connected | argument_list_too_long
| argument_out_of_domain | bad_address | bad_file_descriptor | bad_message
| broken_pipe | connection_aborted | connection_already_in_progress
| connection_refused | connection_reset | cross_device_link
| destination_address_required | device_or_resource_busy
| directory_not_empty | executable_format_error | file_exists
| file_too_large | filename_too_long | function_not_supported
| host_unreachable | identifier_removed | illegal_byte_sequence
| inappropriate_io_control_operation | interrupted | invalid_argument
| invalid_seek | io_error | is_a_directory | message_size | network_down
| network_reset | network_unreachable | no_buffer_space | no_child_process
| no_link | no_lock_available | no_message_available | no_message
| no_protocol_option | no_space_on_device | no_stream_resources
| no_such_device_or_address | no_such_device | no_such_file_or_directory
| no_such_process | not_a_directory | not_a_socket | not_a_stream
| not_connected | not_enough_memory | not_supported | operation_canceled
| operation_in_progress | operation_not_permitted | operation_not_supported
| operation_would_block | owner_dead | permission_denied | protocol_error
| protocol_not_supported | read_only_file_system
| resource_deadlock_would_occur | resource_unavailable_try_again
| result_out_of_range | state_not_recoverable | stream_timeout
| text_file_busy | timed_out | too_many_files_open_in_system
| too_many_files_open | too_many_links | too_many_symbolic_link_levels
| value_too_large | wrong_protocol_type.

#[global] Instance boost_error_eq_dec : EqDecision boost_error_t.
Proof. solve_decision. Defined.

(** [ec == boost_error_t::condition]. *)
Definition eqb (a b : boost_error_t) : bool := bool_decide (a = b).

End boost.

Definition asio_is_canceled (ec : boost.boost_error_t) : bool :=
  boost.eqb ec boost.operation_canceled.

Definition asio_to_error_code (ec : boost.boost_error_t) : code :=
  if boost.eqb ec boost.success then success
  (* termination *)
  else if boost.eqb ec boost.connection_aborted
          || boost.eqb ec boost.operation_canceled
  then operation_canceled
  (* network *)
  else if boost.eqb ec boost.connection_refused
          || boost.eqb ec boost.connection_reset
          || boost.eqb ec boost.not_connected
          || boost.eqb ec boost.not_connected
          || boost.eqb ec boost.operation_not_permitted
          || boost.eqb ec boost.operation_not_supported
          || boost.eqb ec boost.owner_dead
          || boost.eqb ec boost.permission_denied
  then operation_failed
  (* connect-resolve *)
  else if boost.eqb ec boost.address_family_not_supported
          || boost.eqb ec boost.address_not_available
          || boost.eqb ec boost.bad_address
          || boost.eqb ec boost.destination_address_required
  then resolve_failed
  (* connect-resolve *)
  else if boost.eqb ec boost.broken_pipe
          || boost.eqb ec boost.host_unreachable
          || boost.eqb ec boost.network_down
          || boost.eqb ec boost.network_reset
          || boost.eqb ec boost.network_unreachable
          || boost.eqb ec boost.no_link
          || boost.eqb ec boost.no_protocol_option
          || boost.eqb ec boost.no_such_file_or_directory
          || boost.eqb ec boost.no_such_file_or_directory
          || boost.eqb ec boost.not_a_socket
          || boost.eqb ec boost.protocol_not_supported
          || boost.eqb ec boost.wrong_protocol_type
  then connect_failed
  (* connect-address *)
  else if boost.eqb ec boost.address_in_use
          || boost.eqb ec boost.already_connected
          || boost.eqb ec boost.connection_already_in_progress
          || boost.eqb ec boost.operation_in_progress
  then address_in_use
  (* I/O *)
  else if boost.eqb ec boost.bad_message
          || boost.eqb ec boost.illegal_byte_sequence
          || boost.eqb ec boost.io_error
          || boost.eqb ec boost.message_size
          || boost.eqb ec boost.no_message_available
          || boost.eqb ec boost.no_message
          || boost.eqb ec boost.no_stream_resources
          || boost.eqb ec boost.not_a_stream
          || boost.eqb ec boost.protocol_error
  then bad_stream
  (* timeout *)
  else if boost.eqb ec boost.stream_timeout
          || boost.eqb ec boost.timed_out
  then channel_timeout
  (* file system errors *)
  else if boost.eqb ec boost.cross_device_link
          || boost.eqb ec boost.bad_file_descriptor
          || boost.eqb ec boost.device_or_resource_busy
          || boost.eqb ec boost.directory_not_empty
          || boost.eqb ec boost.executable_format_error
          || boost.eqb ec boost.file_exists
          || boost.eqb ec boost.file_too_large
          || boost.eqb ec boost.filename_too_long
          || boost.eqb ec boost.invalid_seek
          || boost.eqb ec boost.is_a_directory
          || boost.eqb ec boost.no_space_on_device
          || boost.eqb ec boost.no_such_device
          || boost.eqb ec boost.no_such_device_or_address
          || boost.eqb ec boost.read_only_file_system
          || boost.eqb ec boost.resource_unavailable_try_again
          || boost.eqb ec boost.text_file_busy
          || boost.eqb ec boost.too_many_files_open
          || boost.eqb ec boost.too_many_files_open_in_system
          || boost.eqb ec boost.too_many_links
          || boost.eqb ec boost.too_many_symbolic_link_levels
  then file_system
  else unknown.

(** ** The protocols the sessions attach

    [attach_handshake] and [attach_protocols] of session.cpp,
    session_inbound.cpp and session_outbound.cpp attach protocol classes
    to the channel; here each returns the classes it attaches, in order.
    The settings read and the levels of enums/level.hpp are arguments. *)

Module protocols.

Inductive protocol_class : Type :=
| version_31402 | version_70001 | version_70002
| ping_31402 | ping_60001
| alert_31402 | reject_70002 | address_31402.

#[global] Instance protocol_class_eq_dec : EqDecision protocol_class.
Proof. solve_decision. Defined.

Record protocol_settings : Type := make_protocol_settings {
  enable_reject : bool;
  enable_alert : bool;
  protocol_maximum : Z
}.

Record protocol_levels : Type := make_protocol_levels {
  bip31 : Z;
  bip37 : Z;
  bip61 : Z
}.

Section protocols.

Variable level : protocol_levels.
Variable cfg : protocol_settings.

(** [session::attach_handshake]. *)
Definition session_attach_handshake : protocol_class :=
  let maximum_version := protocol_maximum cfg in
  if enable_reject cfg && (maximum_version >=? bip61 level) then version_70002
  else if maximum_version >=? bip37 level then version_70001
  else version_31402.

(** [session_inbound::attach_handshake]. *)
Definition session_inbound_attach_handshake : protocol_class :=
  let maximum_version := protocol_maximum cfg in
  let extended_version := maximum_version >=? bip37 level in
  let reject := enable_reject cfg && (maximum_version >=? bip61 level) in
  if reject then version_70002
  else if extended_version then version_70001
  else version_31402.

(** [session_outbound::attach_handshake]; [negotiated_version] is the
    channel's. *)
Definition session_outbound_attach_handshake (negotiated_version : Z)
    : protocol_class :=
  if negotiated_version >=? bip61 level then version_70002
  else version_31402.

(** [session::attach_protocols], which [session_inbound::attach_protocols]
    calls. *)
Definition session_attach_protocols (negotiated_version : Z)
    : list protocol_class :=
  [if negotiated_version >=? bip31 level then ping_60001 else ping_31402]
  ++ (if enable_alert cfg then [alert_31402] else [])
  ++ (if enable_reject cfg && (negotiated_version >=? bip61 level)
      then [reject_70002] else [])
  ++ [address_31402].

(** [session_outbound::attach_protocols]. *)
Definition session_outbound_attach_protocols (version : Z)
    : list protocol_class :=
  [if version >=? bip31 level then ping_60001 else ping_31402]
  ++ (if version >=? bip61 level then [reject_70002] else [])
  ++ [address_31402].

End protocols.
End protocols.

(** ** src/messages/headers.cpp: the queries on the headers *)

Module headers_queries.
Section headers_queries.

Variable bitcoin_hash : list Z -> list Z.

(** [chain::header::hash()] of libbitcoin-system: the hash set by
    [set_hash] if there is one, the hash of the serialized header
    otherwise. *)
Definition hash (h : system.header) : list Z :=
  match system.hash h with
  | Some digest => digest
  | None => bitcoin_hash (system.to_data h [])
  end.

(** The loop of [is_sequential]: [previous] is the hash of the header
    before [rest]. *)
Fixpoint linked (previous : list Z) (rest : list system.header) : bool :=
  match rest with
  | [] => true
  | h :: rest' =>
      if negb (bool_decide (system.previous_block_hash h = previous))
      then false
      else linked (hash h) rest'
  end.

Definition is_sequential (message : messages.headers.t) : bool :=
  match message with
  | [] => true
  | front :: rest => linked (hash front) rest
  end.

Definition to_hashes (message : messages.headers.t) : list (list Z) :=
  map hash message.

(** An [inventory_item] is its type and its hash. *)
Definition to_inventory {type_id : Type} (type : type_id)
    (message : messages.headers.t) : list (type_id * list Z) :=
  map (fun h => (type, hash h)) message.

End headers_queries.
End headers_queries.

(** ** Runs of connect attempts *)

(** [n] times the action [a]. *)
Fixpoint repeat_action (n : nat) (a : action) : action :=
  match n with
  | O => skip
  | S k => a >>> repeat_action k a
  end.

(** What the start sequence of the outbound session does for one slot
    whose connectors are [first .. first + count - 1]: they are created,
    each is registered for the session's stop, and a host is fetched for
    each. *)
Definition slot_events (first count : nat) : list event :=
  connectors_created (seq first count)
  :: map connector_stop_subscribed (seq first count)
  ++ map fetch_requested (seq first count).

(** The same for [slots] slots, one after the other. *)
Fixpoint slots_events (first count slots : nat) : list event :=
  match slots with
  | O => []
  | S n => slot_events first count ++ slots_events (first + count) count n
  end.

(** ** Headers on the wire *)

(** A [uint32_t] field. *)
Definition is_uint32 (v : Z) : bool := (0 <=? v) && (v <? 2 ^ 32).

(** A header whose fields have the types of [chain::header]: 32-byte
    hashes and four 32-bit integers. *)
Definition header_ok (h : system.header) : bool :=
  system.well_formed h
  && is_uint32 (system.version h) && is_uint32 (system.timestamp h)
  && is_uint32 (system.bits h) && is_uint32 (system.nonce h).

(** The header with an empty hash cache, as [chain::header{ source }]
    builds it. *)
Definition uncached (h : system.header) : system.header :=
  system.make_header (system.version h) (system.previous_block_hash h)
    (system.merkle_root h) (system.timestamp h) (system.bits h)
    (system.nonce h) None.

(** The bytes of one header in a headers message: the header and its
    trail byte. *)
Definition header_entry (h : system.header) : list Z :=
  system.write_byte messages.headers.trail (system.to_data h []).

(** ** The other constructors of the authority *)

(** [authority::authority(const std::string& host, uint16_t port)]:
    [std::stringstream(to_text(host, port)) >> *this]. *)
Definition from_host (host : text) (port : Z) : option config.authority :=
  config.parse (config.to_text host port).

(** A number that prints as at most five digits and is refused by
    [lexical_cast<uint16_t>]; a test to run over the numbers above the
    16-bit ports. *)
Definition check_large_port (p : Z) : bool :=
  let digits := print_dec p in
  match config.lexical_cast_uint16 digits with
  | Some _ => false
  | None => true
  end
  && negb (is_empty digits) && (length digits <=? 5)%nat
  && forallb is_digit digits.

(** * Properties *)

(** ** Subscriber *)

Lemma subscriber_notify_stopped {Handler Args : Type}
    (s : subscriber.t Handler) (args : Args) :
  subscriber.stopped_ s = true -> subscriber.notify args s = [].
Proof. unfold subscriber.notify. intros ->. reflexivity. Qed.

(** [stop] raises [stopped_] before it notifies, so its own [notify]
    takes the early return: no call of [stop] posts a handler. *)
Lemma subscriber_stop_posts_nothing {Handler Args : Type}
    (s : subscriber.t Handler) (args : Args) :
  snd (subscriber.stop args s) = [].
Proof.
  unfold subscriber.stop. destruct (subscriber.stopped_ s); reflexivity.
Qed.

(** C7, at a concrete subscriber: two handlers (1 and 2) are subscribed,
    then [stop] is called with [service_stopped].  Every handler should be
    posted once with [service_stopped]; the code posts nothing, and the
    queue is cleared, so the handlers are never invoked. *)
Theorem subscriber_stop_drops_handlers :
  subscriber.run
    [subscriber.call_subscribe 1%nat; subscriber.call_subscribe 2%nat;
     subscriber.call_stop service_stopped]
    subscriber.create
  = (subscriber.make true [], [])
  /\ subscriber.run
    [subscriber.call_subscribe 1%nat; subscriber.call_subscribe 2%nat;
     subscriber.call_stop service_stopped; subscriber.call_stop channel_stopped;
     subscriber.call_notify success]
    subscriber.create
  = (subscriber.make true [], []).
Proof. split; reflexivity. Qed.

(** ** session::start *)

(** C9: called on a started session, [session::start] invokes the handler
    with [operation_failed] on the unchanged state; called on a stopped
    session it marks the session started and then invokes the handler
    with [success]. *)
Theorem session_start_transitions :
  forall (handler : result_handler) (w : world),
    (stopped_ w = false ->
       session.start handler w = handler operation_failed w)
    /\ (stopped_ w = true ->
       session.start handler w = handler success (set_stopped false w)
       /\ stopped_ (set_stopped false w) = false).
Proof.
  intros handler w. unfold session.start, seq_action.
  split; intros ->; cbn; auto.
Qed.

Lemma session_start_transitions_witness :
  trace (session.start (external 7) (session.create ∅ 0 0))
    = [handler_invoked 7 success]
  /\ trace (session.start (external 8)
             (session.start (external 7) (session.create ∅ 0 0)))
    = [handler_invoked 7 success; handler_invoked 8 operation_failed].
Proof.
  split.
  - rewrite (proj1 (proj2 (session_start_transitions (external 7)
      (session.create ∅ 0 0)) eq_refl)). reflexivity.
  - rewrite (proj1 (session_start_transitions (external 8)
      (session.start (external 7) (session.create ∅ 0 0))) eq_refl).
    reflexivity.
Defined.

(** ** session::start_channel *)

Lemma pend_duplicate (n : Z) (w : world) :
  n ∈ nonces_ w -> session.pend n w = (false, w).
Proof. intros H. unfold session.pend. rewrite decide_True; auto. Qed.

(** C6: on a stopped session [start_channel] stops the channel with
    [service_stopped] and calls [started], then [stopped], with that code;
    on a running session that is not inbound, when the channel's nonce is
    already pended, it does the same with [channel_conflict].  It does
    nothing else: with handlers that are only observed, the pending set
    and the nonce table are as before. *)
Theorem start_channel_rejections :
  forall (inbound : bool) (c : channel) (started stopped : result_handler)
         (w : world),
    (stopped_ w = true ->
       session.start_channel inbound c started stopped w
       = stopped service_stopped
           (started service_stopped
             (emit (channel_stop c service_stopped) w)))
    /\ (stopped_ w = false -> inbound = false -> nonce c ∈ nonces_ w ->
       session.start_channel inbound c started stopped w
       = stopped channel_conflict
           (started channel_conflict
             (emit (channel_stop c channel_conflict) w)))
    /\ (forall ec a b,
         let w' := external b ec (external a ec (emit (channel_stop c ec) w)) in
         pending_ w' = pending_ w /\ nonces_ w' = nonces_ w
         /\ trace w' = trace w ++
              [channel_stop c ec; handler_invoked a ec; handler_invoked b ec]).
Proof.
  intros inbound c started stopped w. unfold session.start_channel, seq_action.
  split; [| split].
  - intros ->. reflexivity.
  - intros -> -> Hin. rewrite (pend_duplicate _ _ Hin). reflexivity.
  - intros ec a b. cbn. repeat split. rewrite <- !app_assoc. reflexivity.
Qed.

Lemma start_channel_rejections_witness :
  trace (session.start_channel false (make_channel 3 42) (external 1) (external 2)
           (session.create {[ 42 ]} 0 0))
    = [channel_stop (make_channel 3 42) service_stopped;
       handler_invoked 1 service_stopped; handler_invoked 2 service_stopped]
  /\ session.start_channel false (make_channel 3 42) (external 1) (external 2)
       (set_stopped false (session.create {[ 42 ]} 0 0))
    = external 2 channel_conflict
        (external 1 channel_conflict
          (emit (channel_stop (make_channel 3 42) channel_conflict)
            (set_stopped false (session.create {[ 42 ]} 0 0)))).
Proof.
  split.
  - rewrite (proj1 (start_channel_rejections false (make_channel 3 42)
      (external 1) (external 2) (session.create {[ 42 ]} 0 0)) eq_refl).
    reflexivity.
  - apply (proj1 (proj2 (start_channel_rejections false (make_channel 3 42)
      (external 1) (external 2)
      (set_stopped false (session.create {[ 42 ]} 0 0))))); reflexivity.
Defined.

(** ** session_outbound *)

(** C2, at the configuration with [outbound_connections = 0] (and again
    with [host_pool_capacity = 0]): the start is bypassed and no connector
    is created, but the handler is called with [success], not with
    [bypassed]; with an empty address store it is called with
    [address_not_found]. *)
Theorem session_outbound_start_bypass_reports_success :
  session_outbound.start no_outbound_settings (external 0)
      (session_outbound.create no_outbound_settings ∅ 3 0)
    = emit (handler_invoked 0 success)
        (session_outbound.create no_outbound_settings ∅ 3 0)
  /\ trace (session_outbound.start (make_settings 4 0 2 8 5 [] []) (external 0)
             (session_outbound.create (make_settings 4 0 2 8 5 [] []) ∅ 3 0))
     = [handler_invoked 0 success]
  /\ trace (session_outbound.start two_connector_settings (external 0)
             (session_outbound.create two_connector_settings ∅ 0 0))
     = [handler_invoked 0 address_not_found].
Proof. repeat split. Qed.

Lemma started_outbound_trace :
  trace started_outbound
  = [connectors_created [0%nat; 1%nat];
     connector_stop_subscribed 0%nat; connector_stop_subscribed 1%nat;
     fetch_requested 0%nat; fetch_requested 1%nat;
     handler_invoked 0 success]
  /\ count_ started_outbound = 0 /\ batch_ started_outbound = 2.
Proof. repeat split. Qed.


(** C1, on a session with batches of two: the first batch fails and is
    reported once ([timer_started] is the retry of [handle_connect]); the
    batch restarted by the timer fails as well, and nothing is reported:
    no handler call, no timer, the slot is never connected again. *)
Theorem outbound_second_batch_failure_unreported :
  trace first_batch_failed
    = trace started_outbound ++ [timer_started [0%nat; 1%nat] 5]
  /\ count_ first_batch_failed = 2
  /\ trace second_batch_started
    = trace first_batch_failed ++ [fetch_requested 0%nat; fetch_requested 1%nat]
  /\ (attempt_fails >>> attempt_fails) second_batch_started
    = set_count 4 second_batch_started.
Proof. repeat split. Qed.

(** ** session_inbound *)

Lemma whitelisted_unfold (cfg : settings) (a : config.authority) :
  negb (session.whitelisted cfg a)
  = negb (bool_decide (whitelists cfg = []))
    && negb (existsb (config.eqb a) (whitelists cfg)).
Proof.
  unfold session.whitelisted. destruct (whitelists cfg); reflexivity.
Qed.

(** C8 as stated fails on a stopped session: a socket accepted after the
    session has stopped is stopped, and the accept loop is not re-armed. *)
Lemma inbound_accept_after_stop_not_rearmed :
  session_inbound.handle_accept inbound_settings success (Some peer_socket)
      0%nat peer_channel stopped_inbound
    = emit (socket_stop peer_socket) stopped_inbound
  /\ ~ In (accept_requested 0%nat)
       (trace (session_inbound.handle_accept inbound_settings success
                 (Some peer_socket) 0%nat peer_channel stopped_inbound)).
Proof.
  split; [reflexivity |].
  cbn. intros [H | []]. discriminate H.
Qed.

(** C8, amended: for every socket accepted with success while the session
    is not stopped, the accept loop is re-armed first and at once; then, if
    the whitelist is non-empty and lacks the socket's authority, or the
    blacklist has it, or the inbound channel count has reached
    [inbound_connections], the socket is stopped and no channel is made;
    otherwise a channel is created and handed to [start_channel] (which,
    the session running, pends it and posts the handshake attach).  When
    the session is stopped, the socket is stopped and nothing else
    happens: the accept loop is not re-armed, no channel is created and
    the pending set stays as it is. *)
Theorem inbound_accept_success :
  forall (cfg : settings) (sock : socket) (a : acceptor) (fresh : channel)
         (w : world),
    (stopped_ w = false ->
     let refused :=
       (negb (bool_decide (whitelists cfg = []))
        && negb (existsb (config.eqb (authority sock)) (whitelists cfg)))
       || existsb (config.eqb (authority sock)) (blacklists cfg)
       || (inbound_connections cfg <=? inbound_channel_count w) in
     session_inbound.handle_accept cfg success (Some sock) a fresh w
     = (if refused then
          (emit (accept_requested a) >>> emit (socket_stop sock)) w
        else
          (emit (accept_requested a) >>> emit (channel_created sock fresh) >>>
           session.start_channel true fresh
             (fun ec => session_inbound.handle_channel_start ec fresh)
             (fun ec => session_inbound.handle_channel_stop ec fresh)) w)
     /\ (refused = false ->
         let w' :=
           session_inbound.handle_accept cfg success (Some sock) a fresh w in
         trace w' = trace w ++ [accept_requested a; channel_created sock fresh;
                                attach_handshake_posted fresh]
         /\ pending_ w' = {[ channel_ptr fresh ]} ∪ pending_ w))
    /\ (stopped_ w = true ->
        let w' :=
          session_inbound.handle_accept cfg success (Some sock) a fresh w in
        w' = emit (socket_stop sock) w
        /\ trace w' = trace w ++ [socket_stop sock]
        /\ ~ In (accept_requested a) (skipn (length (trace w)) (trace w'))
        /\ ~ In (channel_created sock fresh)
               (skipn (length (trace w)) (trace w'))
        /\ pending_ w' = pending_ w).
Proof.
  intros cfg sock a fresh w. split.
  - intros Hrun refused.
    assert (Heq :
      session_inbound.handle_accept cfg success (Some sock) a fresh w
      = (if refused then
           (emit (accept_requested a) >>> emit (socket_stop sock)) w
         else
           (emit (accept_requested a) >>> emit (channel_created sock fresh) >>>
            session.start_channel true fresh
              (fun ec => session_inbound.handle_channel_start ec fresh)
              (fun ec => session_inbound.handle_channel_stop ec fresh)) w)).
    { unfold session_inbound.handle_accept, session_inbound.start_accept,
        session_inbound.create_channel, seq_action.
      rewrite Hrun. cbn [to_bool error.eqb negb].
      change (to_bool success) with false. cbn iota.
      subst refused. rewrite <- whitelisted_unfold.
      unfold session.blacklisted. cbn [inbound_channel_count emit].
      destruct (session.whitelisted cfg (authority sock)),
        (existsb (config.eqb (authority sock)) (blacklists cfg)),
        (inbound_connections cfg <=? inbound_channel_count w); reflexivity. }
    split; [exact Heq |].
    intros Hacc w'. subst w'. rewrite Heq, Hacc.
    unfold session.start_channel, seq_action. cbn. rewrite Hrun. cbn.
    split; [| reflexivity].
    rewrite <- !app_assoc. reflexivity.
  - intros Hstop w'.
    assert (Heq : w' = emit (socket_stop sock) w).
    { subst w'. unfold session_inbound.handle_accept. rewrite Hstop.
      reflexivity. }
    rewrite Heq. cbn [emit trace pending_].
    rewrite skipn_app, skipn_all, Nat.sub_diag. cbn [app skipn In].
    repeat split; try reflexivity; intros [H | []]; discriminate H.
Qed.

Lemma inbound_accept_success_witness :
  trace (session_inbound.handle_accept inbound_settings success
           (Some peer_socket) 0%nat peer_channel
           (set_stopped false stopped_inbound))
  = [accept_requested 0%nat; channel_created peer_socket peer_channel;
     attach_handshake_posted peer_channel]
  /\ session_inbound.handle_accept inbound_settings success
       (Some peer_socket) 0%nat peer_channel stopped_inbound
     = emit (socket_stop peer_socket) stopped_inbound.
Proof.
  split.
  - apply (proj1 (proj2 (proj1 (inbound_accept_success inbound_settings
      peer_socket 0%nat peer_channel (set_stopped false stopped_inbound))
      eq_refl) eq_refl)).
  - apply (proj1 (proj2 (inbound_accept_success inbound_settings peer_socket
      0%nat peer_channel stopped_inbound) eq_refl)).
Defined.

(** ** protocol_ping_60001 *)

Module ping := protocol_ping_60001.

(** C3 as stated fails: a pong whose nonce (1) differs from the nonce of
    the outstanding ping (2) clears the pending flag all the same, before
    the channel is stopped with [bad_stream]. *)
Lemma pong_mismatch_clears_pending :
  ping.pending_ (ping.make true false []) = true
  /\ 1 <> 2
  /\ ping.handle_receive_pong ping.channel_state_stopped success 1 2 (ping.make true false [])
     = (false, ping.make false true [ping.stop bad_stream]).
Proof. repeat split. discriminate. Qed.

(** C3, amended.  On a channel that is not stopped, when the heartbeat
    fires (with [success] or [channel_timeout]): if a ping is pending the
    channel is stopped with [channel_timeout] and nothing is sent;
    otherwise the pending flag is set, a pong subscription for the drawn
    nonce is registered and [ping{nonce}] is sent.  For a pong received
    without error the pending flag is cleared whether or not the nonce
    matches; when it differs from the nonce of the outstanding ping the
    channel is then stopped with [bad_stream]. *)
Theorem ping_60001_cycle :
  forall (stopped : ping.protocol -> code -> bool) (ec : code)
         (random message_nonce nonce : Z) (p : ping.protocol),
    (stopped p ec = false -> ec = success \/ ec = channel_timeout ->
       (ping.pending_ p = true ->
          ping.send_ping stopped ec random p
          = ping.make true true (ping.effects p ++ [ping.stop channel_timeout]))
       /\ (ping.pending_ p = false ->
          ping.send_ping stopped ec random p
          = ping.make true (ping.channel_stopped p)
              (ping.effects p ++ [ping.subscribe_pong random; ping.send_ping_message random])))
    /\ (stopped p success = false ->
       (message_nonce <> nonce ->
          ping.handle_receive_pong stopped success message_nonce nonce p
          = (false, ping.make false true (ping.effects p ++ [ping.stop bad_stream])))
       /\ (message_nonce = nonce ->
          ping.handle_receive_pong stopped success message_nonce nonce p
          = (false, ping.make false (ping.channel_stopped p) (ping.effects p)))).
Proof.
  intros stopped ec random message_nonce nonce p. split.
  - intros Hrun Hec. unfold ping.send_ping. rewrite Hrun.
    assert (Hgate : to_bool ec && negb (error.eqb ec channel_timeout) = false)
      by (destruct Hec as [-> | ->]; reflexivity).
    rewrite Hgate. split; intros Hp; rewrite Hp.
    + unfold ping.do_stop. rewrite Hp. reflexivity.
    + unfold ping.do_effect, ping.set_pending. cbn. rewrite <- app_assoc. reflexivity.
  - intros Hrun. unfold ping.handle_receive_pong. rewrite Hrun.
    change (to_bool success) with false. cbn iota.
    split; intros Hn.
    + apply Z.eqb_neq in Hn. rewrite Hn. reflexivity.
    + apply Z.eqb_eq in Hn. rewrite Hn. reflexivity.
Qed.

Lemma ping_60001_cycle_witness :
  ping.send_ping ping.channel_state_stopped channel_timeout 77 (ping.make true false [])
    = ping.make true true [ping.stop channel_timeout]
  /\ ping.send_ping ping.channel_state_stopped success 77 ping.create
    = ping.make true false [ping.subscribe_pong 77; ping.send_ping_message 77]
  /\ ping.handle_receive_pong ping.channel_state_stopped success 77 77
       (ping.make true false [ping.subscribe_pong 77; ping.send_ping_message 77])
    = (false, ping.make false false [ping.subscribe_pong 77; ping.send_ping_message 77]).
Proof.
  split; [| split].
  - apply (proj1 (proj1 (ping_60001_cycle ping.channel_state_stopped channel_timeout
      77 0 0 (ping.make true false [])) eq_refl (or_intror eq_refl)) eq_refl).
  - apply (proj2 (proj1 (ping_60001_cycle ping.channel_state_stopped success
      77 0 0 ping.create) eq_refl (or_introl eq_refl)) eq_refl).
  - apply (proj2 (proj2 (ping_60001_cycle ping.channel_state_stopped success 0 77 77
      (ping.make true false [ping.subscribe_pong 77; ping.send_ping_message 77])) eq_refl)
      eq_refl).
Defined.

(** ** Messages: the reader never becomes valid again *)

Module reader_facts.
Import system.

Lemma read_byte_invalid (r : reader) :
  valid r = false -> valid (snd (read_byte r)) = false.
Proof. unfold read_byte. intros H. rewrite H. exact H. Qed.

Lemma read_bytes_invalid (n : nat) : forall r : reader,
  valid r = false -> valid (snd (read_bytes n r)) = false.
Proof.
  induction n as [| k IH]; intros r H; cbn [read_bytes]; [exact H |].
  pose proof (read_byte_invalid r H) as H1.
  destruct (read_byte r) as [b r1]. cbn [snd] in H1.
  specialize (IH r1 H1). destruct (read_bytes k r1) as [bs r2]. exact IH.
Qed.

Lemma read_little_endian_invalid (n : nat) (r : reader) :
  valid r = false -> valid (snd (read_little_endian n r)) = false.
Proof.
  intros H. unfold read_little_endian.
  pose proof (read_bytes_invalid n r H) as H1.
  destruct (read_bytes n r) as [bs r1]. exact H1.
Qed.

Lemma read_variable_invalid (r : reader) :
  valid r = false -> valid (snd (read_variable r)) = false.
Proof.
  intros H. unfold read_variable.
  pose proof (read_byte_invalid r H) as H1.
  destruct (read_byte r) as [value r1]. cbn [snd] in H1.
  repeat match goal with
  | |- context [if ?c then _ else _] => destruct c
  end; auto using read_little_endian_invalid.
Qed.

Lemma read_size_invalid (limit : Z) (r : reader) :
  valid r = false -> valid (snd (read_size limit r)) = false.
Proof.
  intros H. unfold read_size.
  pose proof (read_variable_invalid r H) as H1.
  destruct (read_variable r) as [size r1]. cbn [snd] in H1.
  destruct (size >? limit); [reflexivity | exact H1].
Qed.

Lemma read_header_invalid (r : reader) :
  valid r = false -> valid (snd (read_header r)) = false.
Proof.
  intros H. unfold read_header.
  repeat match goal with
  | Hr : valid ?r0 = false |- context [read_little_endian ?n ?r0] =>
      let H' := fresh "H" in
      pose proof (read_little_endian_invalid n r0 Hr) as H';
      destruct (read_little_endian n r0); cbn [snd] in H'; clear Hr
  | Hr : valid ?r0 = false |- context [read_bytes ?n ?r0] =>
      let H' := fresh "H" in
      pose proof (read_bytes_invalid n r0 Hr) as H';
      destruct (read_bytes n r0); cbn [snd] in H'; clear Hr
  end.
  assumption.
Qed.

Lemma read_header_ptrs_invalid (count : nat) : forall r : reader,
  valid r = false ->
  valid (snd (messages.headers.read_header_ptrs count r)) = false.
Proof.
  induction count as [| k IH]; intros r H;
    cbn [messages.headers.read_header_ptrs]; [exact H |].
  pose proof (read_header_invalid r H) as H1.
  destruct (read_header r) as [h s1]. cbn [snd] in H1.
  pose proof (read_byte_invalid s1 H1) as H2.
  destruct (read_byte s1) as [b s2]. cbn [snd] in H2.
  assert (H3 : valid (if negb (b =? messages.headers.trail)
                      then invalidate s2 else s2) = false)
    by (destruct (negb (b =? messages.headers.trail)); [reflexivity | exact H2]).
  specialize (IH _ H3).
  destruct (messages.headers.read_header_ptrs k _) as [rest s4]. exact IH.
Qed.

End reader_facts.

Lemma out_of_range_test (version lo hi : Z) :
  version < lo \/ version > hi ->
  (version <? lo) || (version >? hi) = true.
Proof.
  intros [H | H].
  - apply Z.ltb_lt in H. rewrite H. reflexivity.
  - apply Z.gtb_gt in H. rewrite H. apply orb_true_r.
Qed.

Lemma headers_deserialize_out_of_range (level : messages.levels) (version : Z)
    (source : system.reader) :
  version < messages.headers.version_minimum level
    \/ version > messages.headers.version_maximum level ->
  system.valid (snd (messages.headers.deserialize level version source)) = false.
Proof.
  intros H. unfold messages.headers.deserialize.
  rewrite (out_of_range_test _ _ _ H).
  pose proof (reader_facts.read_size_invalid (messages.max_get_headers level)
    (system.invalidate source) eq_refl) as H1.
  destruct (system.read_size _ _) as [size s1]. cbn [snd] in H1.
  apply reader_facts.read_header_ptrs_invalid. exact H1.
Qed.

(** C5, for the message variants whose deserializers are among the sources
    (headers and bloom_filter_clear): for every negotiated version outside
    the variant's [version_minimum, version_maximum], [deserialize] leaves
    the source invalid, whatever the source held, and decoding any payload
    yields no message value (the pointer-returning deserialize is null). *)
Theorem deserialize_out_of_range_yields_no_message :
  forall (level : messages.levels) (bitcoin_hash : list Z -> list Z)
         (m : messages.variant) (version : Z)
         (source : system.reader) (data : list Z),
    version < messages.version_minimum level m
      \/ version > messages.version_maximum level m ->
    system.valid (messages.source_after level m version source) = false
    /\ messages.decodes level bitcoin_hash m version data = false
    /\ (m = messages.headers_message ->
        messages.headers.deserialize_ptr level bitcoin_hash version data = None).
Proof.
  intros level bitcoin_hash m version source data H.
  assert (Hh : forall d, m = messages.headers_message ->
    messages.headers.deserialize_ptr level bitcoin_hash version d = None).
  { intros d ->. cbn in H. unfold messages.headers.deserialize_ptr.
    pose proof (headers_deserialize_out_of_range level version
      (system.reader_of d) H) as Hv.
    destruct (messages.headers.deserialize _ _ _) as [message reader].
    cbn [snd] in Hv. rewrite Hv. reflexivity. }
  split; [| split].
  - destruct m; cbn [messages.source_after].
    + apply headers_deserialize_out_of_range. exact H.
    + cbn in H. unfold messages.bloom_filter_clear.deserialize.
      rewrite (out_of_range_test _ _ _ H). reflexivity.
  - destruct m; cbn [messages.decodes].
    + rewrite (Hh data eq_refl). reflexivity.
    + cbn in H. unfold messages.deserialize_ptr,
        messages.bloom_filter_clear.deserialize.
      rewrite (out_of_range_test _ _ _ H). reflexivity.
  - apply Hh.
Qed.

Lemma deserialize_out_of_range_yields_no_message_witness :
  messages.headers.deserialize_ptr sample_levels (fun bs => bs) 31402 [0] = None
  /\ messages.decodes sample_levels (fun bs => bs)
       messages.bloom_filter_clear_message 60001 [] = false.
Proof.
  split.
  - apply (deserialize_out_of_range_yields_no_message sample_levels
      (fun bs => bs) messages.headers_message 31402 (system.reader_of [0]) [0]).
    + left. reflexivity.
    + reflexivity.
  - apply (deserialize_out_of_range_yields_no_message sample_levels
      (fun bs => bs) messages.bloom_filter_clear_message 60001
      (system.reader_of []) []).
    left. reflexivity.
Defined.

(** In range the same payloads do decode, so the theorem above is about
    the version test. *)
Lemma headers_empty_decodes_in_range :
  messages.headers.deserialize_ptr sample_levels (fun bs => bs) 70001 [0]
    = Some []
  /\ messages.decodes sample_levels (fun bs => bs)
       messages.bloom_filter_clear_message 70001 [] = true.
Proof. split; reflexivity. Qed.

(** ** headers: size against serialize *)

Lemma length_to_little_endian (n : nat) : forall value : Z,
  length (system.to_little_endian n value) = n.
Proof.
  induction n as [| k IH]; intros value; cbn [system.to_little_endian length];
    [reflexivity | rewrite IH; reflexivity].
Qed.

Lemma length_to_data (h : system.header) (sink : system.writer) :
  system.well_formed h = true ->
  length (system.to_data h sink) = (length sink + 80)%nat.
Proof.
  unfold system.well_formed, system.hash_size. intros H.
  apply andb_prop in H as [Hp Hm].
  apply Nat.eqb_eq in Hp. apply Nat.eqb_eq in Hm.
  unfold system.to_data, system.write_little_endian, system.write_bytes.
  rewrite !length_app, !length_to_little_endian, Hp, Hm. lia.
Qed.

Lemma length_write_variable (value : Z) (sink : system.writer) :
  Z.of_nat (length (system.write_variable value sink))
  = Z.of_nat (length sink) + system.variable_size value.
Proof.
  unfold system.write_variable, system.variable_size,
    system.write_little_endian, system.write_bytes, system.write_byte.
  repeat match goal with
  | |- context [if ?c then _ else _] => destruct c
  end; rewrite ?length_app, ?length_to_little_endian; cbn [length]; lia.
Qed.

Lemma length_write_headers (message : list system.header) :
  forall sink : system.writer,
  forallb system.well_formed message = true ->
  length (fold_left
            (fun s h => system.write_byte messages.headers.trail
                          (system.to_data h s)) message sink)
  = (length sink + 81 * length message)%nat.
Proof.
  induction message as [| h rest IH]; intros sink Hwf; cbn [fold_left length].
  - lia.
  - cbn [forallb] in Hwf. apply andb_prop in Hwf as [Hh Hrest].
    rewrite (IH _ Hrest). unfold system.write_byte.
    rewrite length_app, (length_to_data _ _ Hh). cbn [length]. lia.
Qed.

(** What [serialize] writes: the count prefix and 81 bytes per header. *)
Lemma headers_bytes_written (version : Z) (message : messages.headers.t)
    (sink : system.writer) :
  forallb system.well_formed message = true ->
  messages.headers.bytes_written version message sink
  = system.variable_size (Z.of_nat (length message))
    + 81 * Z.of_nat (length message).
Proof.
  intros Hwf.
  unfold messages.headers.bytes_written, messages.headers.serialize,
    system.get_write_position.
  rewrite (length_write_headers _ _ Hwf).
  rewrite Nat2Z.inj_add, length_write_variable, Nat2Z.inj_mul. lia.
Qed.

(** What [size] returns: the trail byte is counted once, not per header. *)
Lemma headers_size_value (version : Z) (message : messages.headers.t) :
  messages.headers.size version message
  = system.variable_size (Z.of_nat (length message))
    + 80 * Z.of_nat (length message) + 1.
Proof.
  unfold messages.headers.size, system.serialized_size,
    messages.headers.sizeof_trail. lia.
Qed.

(** [size] and [serialize] agree for messages of one header only. *)
Lemma headers_size_agrees_iff_single (version : Z)
    (message : messages.headers.t) (sink : system.writer) :
  forallb system.well_formed message = true ->
  messages.headers.size version message
    = messages.headers.bytes_written version message sink
  <-> length message = 1%nat.
Proof.
  intros Hwf. rewrite headers_size_value, (headers_bytes_written _ _ _ Hwf).
  lia.
Qed.

(** C10, at the empty headers message and at a message of two headers:
    [size] returns 2 where [serialize] writes 1 byte, and 162 where it
    writes 163 (the assertion at the end of [serialize] compares the
    two). *)
Theorem headers_size_differs_from_serialized :
  messages.headers.size 70001 [] = 2
  /\ messages.headers.serialize 70001 [] [] = [0]
  /\ messages.headers.bytes_written 70001 [] [] = 1
  /\ messages.headers.size 70001 [sample_header; sample_header] = 162
  /\ messages.headers.bytes_written 70001 [sample_header; sample_header] []
     = 163.
Proof. repeat split. Qed.

(** ** Authority text: the numerals, checked over their whole range *)

Lemma all_from_spec (f : Z -> bool) (count : nat) : forall start : Z,
  all_from f count start = true ->
  forall z, start <= z < start + Z.of_nat count -> f z = true.
Proof.
  induction count as [| k IH]; intros start H z Hz; [lia |].
  cbn [all_from] in H. apply andb_prop in H as [Hs Hrest].
  destruct (Z.eq_dec z start) as [-> | Hne]; [exact Hs |].
  apply (IH (start + 1) Hrest). lia.
Qed.

Lemma all_below_spec (f : Z -> bool) (n : Z) :
  all_below f n = true -> forall z, 0 <= z < n -> f z = true.
Proof.
  intros H z Hz. apply (all_from_spec f (Z.to_nat n) 0 H). lia.
Qed.

Lemma all_words_checked : all_below check_hex 65536 = true.
Proof. vm_compute. reflexivity. Qed.

Lemma all_octets_checked : all_below check_octet 256 = true.
Proof. vm_compute. reflexivity. Qed.

Lemma all_ports_checked : all_below check_port 65536 = true.
Proof. vm_compute. reflexivity. Qed.

Lemma all_byte_pairs_checked :
  all_below (fun hi => all_below (check_bytes hi) 256) 256 = true.
Proof. vm_compute. reflexivity. Qed.

Lemma is_word_range (w : Z) : is_word w = true <-> 0 <= w < 65536.
Proof. unfold is_word. lia. Qed.

Lemma is_byte_range (b : Z) : is_byte b = true <-> 0 <= b < 256.
Proof. unfold is_byte. lia. Qed.

Lemma word_checked (w : Z) : is_word w = true -> check_hex w = true.
Proof.
  intros H. apply is_word_range in H.
  apply (all_below_spec _ _ all_words_checked). exact H.
Qed.

Lemma octet_checked (a : Z) : is_byte a = true -> check_octet a = true.
Proof.
  intros H. apply is_byte_range in H.
  apply (all_below_spec _ _ all_octets_checked). exact H.
Qed.

Lemma port_checked (p : Z) : 0 <= p < 65536 -> check_port p = true.
Proof. intros H. apply (all_below_spec _ _ all_ports_checked). exact H. Qed.

Lemma byte_pair_checked (hi lo : Z) :
  is_byte hi = true -> is_byte lo = true -> check_bytes hi lo = true.
Proof.
  intros Hh Hl. apply is_byte_range in Hh. apply is_byte_range in Hl.
  pose proof (all_below_spec _ _ all_byte_pairs_checked hi Hh) as H.
  cbv beta in H. apply (all_below_spec _ _ H). exact Hl.
Qed.

(** ** Authority text: reading back what inet_ntop wrote *)

Lemma hex_digit_not_colon (c : ascii) (d : Z) :
  asio.hex_digit_value c = Some d -> char_eqb c ":" = false.
Proof.
  destruct c as [[] [] [] [] [] [] [] []]; vm_compute;
    first [reflexivity | discriminate].
Qed.

Lemma lower_hex_is_hex_digit (c : ascii) :
  lower_hex c = true -> exists d, asio.hex_digit_value c = Some d.
Proof.
  destruct c as [[] [] [] [] [] [] [] []]; vm_compute;
    first [discriminate | intros _; eexists; reflexivity].
Qed.

Lemma lower_hex_is_ipv6_char (c : ascii) :
  lower_hex c = true -> config.ipv6_char c = true.
Proof.
  destruct c as [[] [] [] [] [] [] [] []]; vm_compute;
    first [discriminate | reflexivity].
Qed.

Lemma digit_is_digit_or_dot (c : ascii) :
  is_digit c = true -> config.digit_or_dot c = true.
Proof. unfold config.digit_or_dot. intros ->. reflexivity. Qed.

Lemma digit_or_dot_is_ipv6_char (c : ascii) :
  config.digit_or_dot c = true -> config.ipv6_char c = true.
Proof.
  destruct c as [[] [] [] [] [] [] [] []]; vm_compute;
    first [discriminate | reflexivity].
Qed.

Lemma ipv6_char_not_space (c : ascii) :
  config.ipv6_char c = true -> is_space c = false.
Proof.
  destruct c as [[] [] [] [] [] [] [] []]; vm_compute;
    first [discriminate | reflexivity].
Qed.

Lemma ipv6_char_not_bracket (c : ascii) :
  config.ipv6_char c = true -> char_eqb c "]" = false /\ char_eqb c "[" = false.
Proof.
  destruct c as [[] [] [] [] [] [] [] []]; vm_compute;
    first [discriminate | split; reflexivity].
Qed.

Lemma digit_or_dot_not_colon (c : ascii) :
  config.digit_or_dot c = true -> char_eqb ":" c = false /\ char_eqb c "[" = false.
Proof.
  destruct c as [[] [] [] [] [] [] [] []]; vm_compute;
    first [discriminate | split; reflexivity].
Qed.

(** *** The groups of hexadecimal digits *)

Lemma pton6_loop_hex (digits : text) :
  forall (rest curtok : text) (tp : list Z) (colonp : option nat)
         (seen val seen' val' : Z),
    hex_scan digits seen val = Some (seen', val') ->
    asio.pton6_loop (digits ++ rest) curtok tp colonp seen val
    = asio.pton6_loop rest curtok tp colonp seen' val'.
Proof.
  induction digits as [| ch digits IH];
    intros rest curtok tp colonp seen val seen' val' H.
  - cbn in H. injection H as <- <-. reflexivity.
  - cbn [hex_scan] in H. cbn [app asio.pton6_loop].
    destruct (asio.hex_digit_value ch) as [digit |]; [| discriminate].
    destruct (seen =? 4); [discriminate |].
    cbv zeta in H |- *.
    destruct (Z.lor (Z.shiftl val 4) digit >? 65535); [discriminate |].
    apply IH. exact H.
Qed.

Lemma hex_seen_positive (w : Z) : is_word w = true -> 0 < hex_seen w.
Proof.
  intros H. pose proof (word_checked w H) as Hc. unfold check_hex in Hc.
  cbv zeta in Hc. apply andb_prop in Hc as [Hc _].
  destruct (hex_scan (print_hex w) 0 0) as [[seen val] |]; [| discriminate].
  unfold hex_seen. lia.
Qed.

Lemma print_hex_scan (w : Z) :
  is_word w = true -> hex_scan (print_hex w) 0 0 = Some (hex_seen w, w).
Proof.
  intros H. pose proof (word_checked w H) as Hc. unfold check_hex in Hc.
  cbv zeta in Hc. apply andb_prop in Hc as [Hc _].
  destruct (hex_scan (print_hex w) 0 0) as [[seen val] |]; [| discriminate].
  unfold hex_seen. f_equal. f_equal; lia.
Qed.

Lemma print_hex_lower (w : Z) :
  is_word w = true -> forallb lower_hex (print_hex w) = true.
Proof.
  intros H. pose proof (word_checked w H) as Hc. unfold check_hex in Hc.
  cbv zeta in Hc. apply andb_prop in Hc as [_ Hc]. exact Hc.
Qed.

Lemma print_hex_cons (w : Z) :
  is_word w = true ->
  exists c rest, print_hex w = c :: rest /\ lower_hex c = true.
Proof.
  intros H. pose proof (hex_seen_positive w H) as Hp.
  pose proof (print_hex_lower w H) as Hl. unfold hex_seen in Hp.
  destruct (print_hex w) as [| c rest]; [cbn in Hp; lia |].
  exists c, rest. cbn in Hl. apply andb_prop in Hl as [Hc _]. auto.
Qed.

(** One group: its digits are consumed, the value is held. *)
Lemma pton6_loop_group (w : Z) (rest curtok : text) (tp : list Z)
    (colonp : option nat) :
  is_word w = true ->
  asio.pton6_loop (print_hex w ++ rest) curtok tp colonp 0 0
  = asio.pton6_loop rest curtok tp colonp (hex_seen w) w.
Proof. intros H. apply pton6_loop_hex, print_hex_scan, H. Qed.

Lemma gtb_false (a b : Z) : a <= b -> (a >? b) = false.
Proof. intros H. rewrite Z.gtb_ltb. apply Z.ltb_ge. exact H. Qed.

Lemma length_put_word (val : Z) (tp : list Z) :
  length (asio.put_word val tp) = (length tp + 2)%nat.
Proof. unfold asio.put_word. rewrite length_app. reflexivity. Qed.

Lemma length_store_words (ws : list Z) : forall tp : list Z,
  length (store_words ws tp) = (length tp + 2 * length ws)%nat.
Proof.
  induction ws as [| w ws IH]; intros tp; cbn [store_words fold_left length].
  - lia.
  - fold (store_words ws (asio.put_word w tp)).
    rewrite IH, length_put_word. lia.
Qed.

Lemma store_words_app (ws : list Z) : forall tp : list Z,
  store_words ws tp = tp ++ store_words ws [].
Proof.
  induction ws as [| w ws IH]; intros tp; cbn [store_words fold_left].
  - rewrite app_nil_r. reflexivity.
  - fold (store_words ws (asio.put_word w tp)).
    fold (store_words ws (asio.put_word w [])).
    rewrite (IH (asio.put_word w tp)), (IH (asio.put_word w [])).
    unfold asio.put_word. cbn [app]. rewrite <- app_assoc. reflexivity.
Qed.

Lemma pending_after_store (ws : list Z) : forall (tp : list Z) (val : Z),
  asio.put_word (snd (pending_after ws tp val)) (fst (pending_after ws tp val))
  = store_words (val :: ws) tp.
Proof.
  induction ws as [| w ws IH]; intros tp val; cbn [pending_after].
  - reflexivity.
  - rewrite IH. reflexivity.
Qed.

Lemma length_pending_after (ws : list Z) : forall (tp : list Z) (val : Z),
  length (fst (pending_after ws tp val)) = (length tp + 2 * length ws)%nat.
Proof.
  induction ws as [| w ws IH]; intros tp val; cbn [pending_after length].
  - cbn. lia.
  - rewrite IH, length_put_word. lia.
Qed.

(** The groups that follow a held value: each colon stores the value
    held and the digits after it give the next. *)
Lemma pton6_loop_tail_groups (ws : list Z) :
  forall (rest curtok : text) (tp : list Z) (colonp : option nat)
         (seen val : Z),
    0 < seen ->
    forallb is_word ws = true ->
    (length tp + 2 * length ws <= 16)%nat ->
    exists curtok' seen',
      0 < seen'
      /\ asio.pton6_loop (tail_groups ws ++ rest) curtok tp colonp seen val
         = asio.pton6_loop rest curtok' (fst (pending_after ws tp val)) colonp
             seen' (snd (pending_after ws tp val)).
Proof.
  induction ws as [| w ws IH];
    intros rest curtok tp colonp seen val Hseen Hws Hlen.
  - exists curtok, seen. split; [exact Hseen | reflexivity].
  - cbn [forallb] in Hws. apply andb_prop in Hws as [Hw Hws].
    cbn [length] in Hlen.
    destruct (print_hex_cons w Hw) as (c & digits & Hc & _).
    cbn [tail_groups flat_map app]. fold (tail_groups ws).
    rewrite <- app_assoc.
    cbn [asio.pton6_loop]. change (asio.hex_digit_value ":") with (@None Z).
    cbv iota. change (char_eqb ":" ":") with true. cbv iota.
    replace (seen =? 0) with false by (symmetry; apply Z.eqb_neq; lia).
    replace (is_empty (print_hex w ++ tail_groups ws ++ rest)) with false
      by (rewrite Hc; reflexivity).
    replace (Z.of_nat (length tp) + 2 >? 16) with false
      by (symmetry; apply gtb_false; lia).
    rewrite (pton6_loop_group w _ _ _ _ Hw).
    cbn [pending_after].
    apply IH.
    + apply hex_seen_positive, Hw.
    + exact Hws.
    + rewrite length_put_word. lia.
Qed.
(** *** The end of the text *)

Lemma pton6_finish_held (tp : list Z) (colonp : option nat) (seen val : Z) :
  0 < seen -> (length tp + 2 <= 16)%nat ->
  asio.pton6_finish tp colonp seen val
  = asio.pton6_finish (asio.put_word val tp) colonp 0 0.
Proof.
  intros Hseen Hlen. unfold asio.pton6_finish.
  replace (seen >? 0) with true by (symmetry; apply Z.gtb_lt; exact Hseen).
  rewrite gtb_false by lia. reflexivity.
Qed.

Lemma pton6_finish_val (tp : list Z) (colonp : option nat) (val : Z) :
  asio.pton6_finish tp colonp 0 val = asio.pton6_finish tp colonp 0 0.
Proof. reflexivity. Qed.

Lemma pton6_finish_plain (tp : list Z) :
  length tp = 16%nat -> asio.pton6_finish tp None 0 0 = Some tp.
Proof. intros H. unfold asio.pton6_finish. cbn. rewrite H. reflexivity. Qed.

Lemma pton6_finish_gap (tp filled : list Z) :
  (length tp + length filled < 16)%nat ->
  asio.pton6_finish (tp ++ filled) (Some (length tp)) 0 0
  = Some (tp ++ repeat 0 (16 - length tp - length filled) ++ filled).
Proof.
  intros H. unfold asio.pton6_finish. cbn [Z.gtb Z.compare].
  rewrite length_app.
  replace (length tp + length filled =? 16)%nat with false
    by (symmetry; apply Nat.eqb_neq; lia).
  rewrite firstn_app, Nat.sub_diag, firstn_all, firstn_O, app_nil_r.
  rewrite skipn_app, Nat.sub_diag, skipn_all, skipn_O. cbn [app].
  replace (16 - (length tp + length filled))%nat
    with (16 - length tp - length filled)%nat by lia.
  reflexivity.
Qed.

(** Groups joined by colons, then [rest]: all but the last are stored
    and the last is held. *)
Lemma pton6_loop_join (w : Z) (ws : list Z) (rest curtok : text)
    (tp : list Z) (colonp : option nat) :
  forallb is_word (w :: ws) = true ->
  (length tp + 2 * length ws <= 16)%nat ->
  exists curtok' seen',
    0 < seen'
    /\ asio.pton6_loop (join (w :: ws) ++ rest) curtok tp colonp 0 0
       = asio.pton6_loop rest curtok' (fst (pending_after ws tp w)) colonp
           seen' (snd (pending_after ws tp w)).
Proof.
  intros Hws Hlen. cbn [forallb] in Hws. apply andb_prop in Hws as [Hw Hws].
  cbn [join]. rewrite <- app_assoc. rewrite (pton6_loop_group w _ _ _ _ Hw).
  apply pton6_loop_tail_groups; auto using hex_seen_positive.
Qed.

(** Groups joined by colons at the end of the text. *)
Lemma pton6_loop_join_end (w : Z) (ws : list Z) (curtok : text)
    (tp : list Z) (colonp : option nat) :
  forallb is_word (w :: ws) = true ->
  (length tp + 2 * length (w :: ws) <= 16)%nat ->
  asio.pton6_loop (join (w :: ws)) curtok tp colonp 0 0
  = asio.pton6_finish (store_words (w :: ws) tp) colonp 0 0.
Proof.
  intros Hws Hlen. cbn [length] in Hlen.
  destruct (pton6_loop_join w ws [] curtok tp colonp Hws ltac:(lia))
    as (curtok' & seen' & Hseen & Heq).
  rewrite app_nil_r in Heq. rewrite Heq. cbn [asio.pton6_loop].
  rewrite pton6_finish_held;
    [| exact Hseen | rewrite length_pending_after; lia].
  rewrite pending_after_store. reflexivity.
Qed.

(** After the colon that opens a gap: the groups to the end of the text
    go behind the zeros. *)
Lemma pton6_loop_gap (post : list Z) (curtok : text) (tp : list Z) :
  forallb is_word post = true ->
  (length tp + 2 * length post < 16)%nat ->
  asio.pton6_loop (":"%char :: join post) curtok tp None 0 0
  = Some (tp ++ repeat 0 (16 - length tp - 2 * length post)
          ++ store_words post []).
Proof.
  intros Hpost Hlen. cbn [asio.pton6_loop].
  change (asio.hex_digit_value ":") with (@None Z). cbv iota.
  change (char_eqb ":" ":") with true. cbv iota. cbn [Z.eqb].
  destruct post as [| w ws].
  - cbn [join asio.pton6_loop]. cbn [length] in Hlen.
    pose proof (pton6_finish_gap tp [] ltac:(cbn [length]; lia)) as H.
    rewrite app_nil_r in H. rewrite H. cbn [length store_words fold_left].
    repeat f_equal; lia.
  - rewrite pton6_loop_join_end; [| exact Hpost | lia].
    rewrite store_words_app.
    rewrite pton6_finish_gap; rewrite length_store_words; cbn [length].
    + repeat f_equal; lia.
    + cbn [length] in Hlen. lia.
Qed.
(** *** The dotted tail *)

Lemma pton4_loop_digits (digits : text) :
  forall (rest : text) (done : list Z) (cur : Z) (saw : bool) (octets v : Z),
    dec_scan digits cur saw = Some v ->
    (saw = false -> octets < 4) ->
    asio.pton4_loop (digits ++ rest) done cur saw octets
    = asio.pton4_loop rest done v true (if saw then octets else octets + 1).
Proof.
  induction digits as [| ch digits IH];
    intros rest done cur saw octets v H Hoct.
  - cbn in H. destruct saw; [| discriminate]. injection H as <-. reflexivity.
  - cbn [dec_scan] in H. cbn [app asio.pton4_loop].
    destruct (is_digit ch); [| discriminate]. cbv zeta in H |- *.
    destruct (saw && (cur =? 0)); [discriminate |].
    destruct (cur * 10 + (char_code ch - 48) >? 255); [discriminate |].
    destruct saw; cbn [negb].
    + rewrite (IH rest done _ true octets v H); [reflexivity | discriminate].
    + rewrite gtb_false by (specialize (Hoct eq_refl); lia).
      rewrite (IH rest done _ true (octets + 1) v H);
        [reflexivity | discriminate].
Qed.

Lemma print_dec_octet (a : Z) :
  is_byte a = true ->
  dec_scan (print_dec a) 0 false = Some a
  /\ (exists seen val, hex_scan (print_dec a) 0 0 = Some (seen, val))
  /\ forallb is_digit (print_dec a) = true.
Proof.
  intros H. pose proof (octet_checked a H) as Hc. unfold check_octet in Hc.
  cbv zeta in Hc. apply andb_prop in Hc as [Hc Hd].
  apply andb_prop in Hc as [Hs Hh]. repeat split.
  - destruct (dec_scan (print_dec a) 0 false); [| discriminate].
    f_equal. lia.
  - destruct (hex_scan (print_dec a) 0 0) as [[seen val] |]; [| discriminate].
    eauto.
  - exact Hd.
Qed.

Lemma print_dec_octet_cons (a : Z) :
  is_byte a = true -> is_empty (print_dec a) = false.
Proof.
  intros H. destruct (print_dec_octet a H) as (Hs & _ & _).
  destruct (print_dec a); [discriminate Hs | reflexivity].
Qed.

Lemma pton4_loop_octet (a : Z) (rest : text) (done : list Z) (octets : Z) :
  is_byte a = true -> octets < 4 ->
  asio.pton4_loop (print_dec a ++ rest) done 0 false octets
  = asio.pton4_loop rest done a true (octets + 1).
Proof.
  intros H Hoct. destruct (print_dec_octet a H) as (Hs & _ & _).
  rewrite (pton4_loop_digits _ rest done 0 false octets a Hs); auto.
Qed.

Lemma pton4_loop_dot (rest : text) (done : list Z) (cur octets : Z) :
  octets <> 4 ->
  asio.pton4_loop ("."%char :: rest) done cur true octets
  = asio.pton4_loop rest (done ++ [cur]) 0 false octets.
Proof.
  intros H. cbn [asio.pton4_loop]. change (is_digit ".") with false.
  cbv iota. change (char_eqb "." "." && true) with true. cbv iota.
  replace (octets =? 4) with false by (symmetry; apply Z.eqb_neq; exact H).
  reflexivity.
Qed.

Lemma quad_bytes (quad : list Z) :
  (length quad =? 4)%nat && forallb is_byte quad = true ->
  exists a b c d, quad = [a; b; c; d]
    /\ is_byte a = true /\ is_byte b = true
    /\ is_byte c = true /\ is_byte d = true.
Proof.
  intros H. apply andb_prop in H as [Hlen Hb]. apply Nat.eqb_eq in Hlen.
  destruct quad as [| a [| b [| c [| d [| e quad]]]]]; try discriminate Hlen.
  cbn [forallb] in Hb.
  repeat (apply andb_prop in Hb as [? Hb]).
  exists a, b, c, d. auto.
Qed.

Lemma inet_pton4_ntop4 (quad : list Z) :
  (length quad =? 4)%nat && forallb is_byte quad = true ->
  asio.inet_pton4 (asio.inet_ntop4 quad) = Some quad.
Proof.
  intros H. destruct (quad_bytes quad H) as (a & b & c & d & -> & Ha & Hb & Hc & Hd).
  unfold asio.inet_pton4, asio.inet_ntop4. cbn [nth txt list_ascii_of_string app].
  rewrite pton4_loop_octet by (auto; lia).
  rewrite pton4_loop_dot by lia.
  rewrite pton4_loop_octet by (auto; lia).
  rewrite pton4_loop_dot by lia.
  rewrite pton4_loop_octet by (auto; lia).
  rewrite pton4_loop_dot by lia.
  rewrite <- (app_nil_r (print_dec d)).
  rewrite pton4_loop_octet by (auto; lia).
  reflexivity.
Qed.

(** The dotted tail inside [inet_pton6]: the digits of the first octet
    are read as a group, and the dot hands the tail to [inet_pton4]. *)
Lemma pton6_loop_quad (quad : list Z) (tp : list Z) (colonp : option nat) :
  (length quad =? 4)%nat && forallb is_byte quad = true ->
  (length tp + 4 <= 16)%nat ->
  asio.pton6_loop (asio.inet_ntop4 quad) (asio.inet_ntop4 quad) tp colonp 0 0
  = asio.pton6_finish (tp ++ quad) colonp 0 0.
Proof.
  intros H Hlen. pose proof (inet_pton4_ntop4 quad H) as Hquad.
  destruct (quad_bytes quad H) as (a & b & c & d & -> & Ha & _).
  destruct (print_dec_octet a Ha) as (_ & (seen & val & Hscan) & _).
  remember (asio.inet_ntop4 [a; b; c; d]) as curtok eqn:Hcur.
  rewrite Hcur at 1. unfold asio.inet_ntop4.
  cbn [nth txt list_ascii_of_string app].
  rewrite (pton6_loop_hex _ _ _ _ _ _ _ _ _ Hscan).
  cbn [asio.pton6_loop]. change (asio.hex_digit_value ".") with (@None Z).
  cbv iota. change (char_eqb "." ":") with false.
  change (char_eqb "." ".") with true. cbv iota.
  replace (Z.of_nat (length tp) + 4 <=? 16) with true
    by (symmetry; apply Z.leb_le; lia).
  cbn [andb]. rewrite Hquad. reflexivity.
Qed.
(** *** Every form reads back as its bytes *)

Lemma pton6_loop_colon_store (rest curtok : text) (tp : list Z)
    (colonp : option nat) (seen val : Z) :
  0 < seen -> is_empty rest = false -> (length tp + 2 <= 16)%nat ->
  asio.pton6_loop (":"%char :: rest) curtok tp colonp seen val
  = asio.pton6_loop rest rest (asio.put_word val tp) colonp 0 0.
Proof.
  intros Hseen Hrest Hlen. cbn [asio.pton6_loop].
  change (asio.hex_digit_value ":") with (@None Z). cbv iota.
  change (char_eqb ":" ":") with true. cbv iota.
  replace (seen =? 0) with false by (symmetry; apply Z.eqb_neq; lia).
  rewrite Hrest, gtb_false by lia. reflexivity.
Qed.

Lemma pton6_loop_colon_gap (rest curtok : text) (tp : list Z) (val : Z) :
  asio.pton6_loop (":"%char :: rest) curtok tp None 0 val
  = asio.pton6_loop rest rest tp (Some (length tp)) 0 val.
Proof. reflexivity. Qed.

Lemma join_cons_head (w : Z) (ws : list Z) :
  is_word w = true ->
  exists c rest, join (w :: ws) = c :: rest /\ char_eqb c ":" = false.
Proof.
  intros Hw. destruct (print_hex_cons w Hw) as (c & digits & Hc & Hl).
  exists c, (digits ++ tail_groups ws). split.
  - cbn [join]. rewrite Hc. reflexivity.
  - destruct (lower_hex_is_hex_digit c Hl) as [d Hd].
    apply (hex_digit_not_colon c d Hd).
Qed.

Lemma inet_pton6_group_first (w : Z) (ws : list Z) (rest : text) :
  is_word w = true ->
  asio.inet_pton6 (join (w :: ws) ++ rest)
  = asio.pton6_loop (join (w :: ws) ++ rest) (join (w :: ws) ++ rest)
      [] None 0 0.
Proof.
  intros Hw. destruct (join_cons_head w ws Hw) as (c & tail & Hj & Hc).
  unfold asio.inet_pton6. rewrite Hj. cbn [app]. rewrite Hc. reflexivity.
Qed.

Lemma inet_pton6_full (ws : list Z) :
  shape_ok (full ws) = true ->
  asio.inet_pton6 (render (full ws)) = Some (shape_bytes (full ws)).
Proof.
  cbn [shape_ok render shape_bytes]. intros H.
  apply andb_prop in H as [Hlen Hws]. apply Nat.eqb_eq in Hlen.
  destruct ws as [| w ws]; [discriminate Hlen |].
  assert (Hw : is_word w = true)
    by (cbn [forallb] in Hws; apply andb_prop in Hws as [? _]; assumption).
  rewrite <- (app_nil_r (join (w :: ws))) at 1.
  rewrite (inet_pton6_group_first w ws [] Hw), app_nil_r.
  rewrite pton6_loop_join_end; [| exact Hws | cbn [length] in *; lia].
  apply pton6_finish_plain. rewrite length_store_words. cbn [length] in *. lia.
Qed.

Lemma inet_pton6_compressed (pre post : list Z) :
  shape_ok (compressed pre post) = true ->
  asio.inet_pton6 (render (compressed pre post))
  = Some (shape_bytes (compressed pre post)).
Proof.
  cbn [shape_ok render shape_bytes]. intros H.
  apply andb_prop in H as [H Hpost]. apply andb_prop in H as [Hlen Hpre].
  apply Nat.leb_le in Hlen.
  destruct pre as [| w ws].
  - cbn [join app txt list_ascii_of_string asio.inet_pton6].
    change (char_eqb ":" ":") with true. cbv iota.
    rewrite pton6_loop_gap; [| exact Hpost | cbn [length] in *; lia].
    cbn [length app store_words fold_left]. repeat f_equal; lia.
  - assert (Hw : is_word w = true)
      by (cbn [forallb] in Hpre; apply andb_prop in Hpre as [? _]; assumption).
    rewrite (inet_pton6_group_first w ws _ Hw).
    destruct (pton6_loop_join w ws (txt "::" ++ join post)
                (join (w :: ws) ++ txt "::" ++ join post) [] None Hpre
                ltac:(cbn [length] in *; lia))
      as (curtok' & seen' & Hseen & Heq).
    rewrite Heq. cbn [txt list_ascii_of_string app asio.pton6_loop].
    change (asio.hex_digit_value ":") with (@None Z). cbv iota.
    change (char_eqb ":" ":") with true. cbv iota.
    replace (seen' =? 0) with false by (symmetry; apply Z.eqb_neq; lia).
    cbn [is_empty].
    rewrite gtb_false
      by (rewrite length_pending_after; cbn [length] in *; lia).
    rewrite pending_after_store.
    change (if char_eqb ":" ":" then ?x else ?y) with x.
    pose proof (pton6_loop_gap post (join post) (store_words (w :: ws) [])
      Hpost) as Hgap.
    rewrite length_store_words in Hgap. cbn [length] in Hgap, Hlen.
    specialize (Hgap ltac:(lia)).
    cbn [asio.pton6_loop] in Hgap.
    change (asio.hex_digit_value ":") with (@None Z) in Hgap.
    cbv iota in Hgap. change (char_eqb ":" ":") with true in Hgap.
    cbv iota in Hgap. cbn [Z.eqb] in Hgap.
    cbn [Z.eqb]. rewrite Hgap.
    cbn [length]. repeat f_equal; lia.
Qed.

Lemma inet_pton6_compatible (quad : list Z) :
  shape_ok (compatible quad) = true ->
  asio.inet_pton6 (render (compatible quad))
  = Some (shape_bytes (compatible quad)).
Proof.
  cbn [shape_ok render shape_bytes]. intros H.
  cbn [txt list_ascii_of_string app asio.inet_pton6].
  change (char_eqb ":" ":") with true. cbv iota.
  cbn [asio.pton6_loop]. change (asio.hex_digit_value ":") with (@None Z).
  cbv iota. change (char_eqb ":" ":") with true. cbv iota. cbn [Z.eqb].
  rewrite pton6_loop_quad; [| exact H | cbn [length]; lia].
  destruct (quad_bytes quad H) as (a & b & c & d & -> & _).
  reflexivity.
Qed.

Lemma inet_pton6_mapped (quad : list Z) :
  shape_ok (mapped quad) = true ->
  asio.inet_pton6 (render (mapped quad)) = Some (shape_bytes (mapped quad)).
Proof.
  cbn [shape_ok render shape_bytes]. intros H.
  destruct (quad_bytes quad H) as (a & b & c & d & Hq & Ha & _).
  assert (Hne : is_empty (asio.inet_ntop4 quad) = false).
  { rewrite Hq. unfold asio.inet_ntop4. cbn [nth].
    pose proof (print_dec_octet_cons a Ha) as He.
    destruct (print_dec a); [discriminate He | reflexivity]. }
  cbn [txt list_ascii_of_string app asio.inet_pton6].
  change (char_eqb ":" ":") with true. cbv iota.
  rewrite pton6_loop_colon_gap.
  change ("f"%char :: "f"%char :: "f"%char :: "f"%char :: ":"%char
          :: asio.inet_ntop4 quad)
    with (txt "ffff" ++ ":"%char :: asio.inet_ntop4 quad) at 1.
  rewrite (pton6_loop_hex (txt "ffff") _ _ _ _ 0 0 4 65535 eq_refl).
  rewrite pton6_loop_colon_store; [| lia | exact Hne | cbn [length]; lia].
  change (asio.put_word 65535 []) with [255; 255].
  rewrite pton6_loop_quad; [| exact H | cbn [length]; lia].
  rewrite Hq. reflexivity.
Qed.

Theorem inet_pton6_render (sh : shape) :
  shape_ok sh = true -> asio.inet_pton6 (render sh) = Some (shape_bytes sh).
Proof.
  destruct sh; auto using inet_pton6_full, inet_pton6_compressed,
    inet_pton6_compatible, inet_pton6_mapped.
Qed.

(** *** The forms of inet_ntop6 *)

Lemma best_of_ok (z0 z1 z2 z3 z4 z5 z6 z7 : bool) :
  run_ok [z0; z1; z2; z3; z4; z5; z6; z7]
    (asio.best_of [z0; z1; z2; z3; z4; z5; z6; z7]) = true.
Proof. destruct z0, z1, z2, z3, z4, z5, z6, z7; vm_compute; reflexivity. Qed.

(** The bytes of a word and the word of two bytes. *)
Lemma word_of_bytes (hi lo : Z) :
  is_byte hi = true -> is_byte lo = true ->
  is_word (word_of hi lo) = true
  /\ asio.put_word (word_of hi lo) [] = [hi; lo]
  /\ ((word_of hi lo =? 0) = true -> hi = 0 /\ lo = 0).
Proof.
  intros Hh Hl. pose proof (byte_pair_checked hi lo Hh Hl) as H.
  unfold check_bytes in H. cbv zeta in H.
  apply andb_prop in H as [H Hz]. apply andb_prop in H as [H Hlo].
  apply andb_prop in H as [Hw Hhi].
  apply Z.eqb_eq in Hhi. apply Z.eqb_eq in Hlo.
  split; [exact Hw | split].
  - unfold asio.put_word. cbn [app]. rewrite Hhi, Hlo. reflexivity.
  - intros Hzero. rewrite Hzero in Hz. cbn in Hz.
    apply andb_prop in Hz as [H1 H2]. lia.
Qed.

Lemma store_words_cons (w : Z) (ws : list Z) :
  store_words (w :: ws) [] = asio.put_word w [] ++ store_words ws [].
Proof. cbn [store_words fold_left]. apply store_words_app. Qed.
Lemma format_words_with (src words : list Z) (best : asio.run) :
  forall (rest : list Z) (i : Z),
    asio.format_words src words best i rest
    = format_with (nth 5 words 0 =? 65535) (skipn 12 src) best i rest.
Proof.
  induction rest as [| w rest IH]; intros i;
    cbn [asio.format_words format_with]; [reflexivity |].
  rewrite !IH. unfold asio.encapsulated_ipv4. reflexivity.
Qed.

Lemma inet_ntop6_with (src : list Z) :
  asio.inet_ntop6 src
  = format_with (nth 5 (asio.words_of src) 0 =? 65535) (skipn 12 src)
      (asio.best_run (asio.words_of src)) 0 (asio.words_of src)
    ++ (if negb (asio.base (asio.best_run (asio.words_of src)) =? -1)
           && (asio.base (asio.best_run (asio.words_of src))
               + asio.len (asio.best_run (asio.words_of src)) =? 8)
        then txt ":" else []).
Proof.
  unfold asio.inet_ntop6. cbv zeta. rewrite format_words_with. reflexivity.
Qed.

Ltac flatten_text :=
  repeat first
    [ rewrite <- app_assoc
    | rewrite app_nil_r
    | progress cbn [app] ].

Lemma print_hex_ffff : print_hex 65535 = txt "ffff".
Proof. vm_compute. reflexivity. Qed.

Lemma render_shape_with (quad : list Z)
    (w0 w1 w2 w3 w4 w5 w6 w7 : Z) (b l : Z) :
  b = -1 \/ (0 <= b /\ 2 <= l /\ b + l <= 8) ->
  format_with (w5 =? 65535) quad (asio.make_run b l) 0
    [w0; w1; w2; w3; w4; w5; w6; w7]
  ++ (if negb (b =? -1) && (b + l =? 8) then txt ":" else [])
  = render (shape_with (w5 =? 65535) quad [w0; w1; w2; w3; w4; w5; w6; w7]
              (asio.make_run b l)).
Proof.
  intros Hrun.
  assert (Hm : (w5 =? 65535) = false \/ w5 = 65535)
    by (destruct (Z.eqb_spec w5 65535); auto).
  destruct Hm as [-> | ->]; [| change (65535 =? 65535) with true];
  (destruct Hrun as [-> | (Hb & Hl & Hbl)];
   [ cbv - [print_hex print_dec app asio.inet_ntop4]; flatten_text;
     reflexivity
   | assert (Hbv : b = 0 \/ b = 1 \/ b = 2 \/ b = 3 \/ b = 4 \/ b = 5 \/ b = 6)
       by lia;
     assert (Hlv : l = 2 \/ l = 3 \/ l = 4 \/ l = 5 \/ l = 6 \/ l = 7 \/ l = 8)
       by lia;
     destruct Hbv as [-> | [-> | [-> | [-> | [-> | [-> | ->]]]]]];
     destruct Hlv as [-> | [-> | [-> | [-> | [-> | [-> | ->]]]]]];
     try (exfalso; lia);
     cbv - [print_hex print_dec app asio.inet_ntop4];
     rewrite ?print_hex_ffff; cbv [txt list_ascii_of_string];
     flatten_text; reflexivity ]).
Qed.
Ltac split_bytes H :=
  repeat match type of H with
  | (_ && _) = true => let H1 := fresh "Hbyte" in apply andb_prop in H as [H1 H]
  end.

Lemma shape_with_bytes
    (b0 b1 b2 b3 b4 b5 b6 b7 b8 b9 b10 b11 b12 b13 b14 b15 : Z) (b l : Z) :
  forallb is_byte
    [b0; b1; b2; b3; b4; b5; b6; b7; b8; b9; b10; b11; b12; b13; b14; b15]
  = true ->
  let ws := [word_of b0 b1; word_of b2 b3; word_of b4 b5; word_of b6 b7;
             word_of b8 b9; word_of b10 b11; word_of b12 b13;
             word_of b14 b15] in
  run_ok (map (fun w => w =? 0) ws) (asio.make_run b l) = true ->
  let sh := shape_with (word_of b10 b11 =? 65535) [b12; b13; b14; b15] ws
              (asio.make_run b l) in
  shape_ok sh = true
  /\ shape_bytes sh
     = [b0; b1; b2; b3; b4; b5; b6; b7; b8; b9; b10; b11; b12; b13; b14; b15].
Proof.
  intros Hbytes ws Hrun sh. subst ws sh.
  cbn [forallb] in Hbytes.
  destruct (andb_prop _ _ Hbytes) as [Hb0 Hr0].
  destruct (andb_prop _ _ Hr0) as [Hb1 Hr1].
  destruct (andb_prop _ _ Hr1) as [Hb2 Hr2].
  destruct (andb_prop _ _ Hr2) as [Hb3 Hr3].
  destruct (andb_prop _ _ Hr3) as [Hb4 Hr4].
  destruct (andb_prop _ _ Hr4) as [Hb5 Hr5].
  destruct (andb_prop _ _ Hr5) as [Hb6 Hr6].
  destruct (andb_prop _ _ Hr6) as [Hb7 Hr7].
  destruct (andb_prop _ _ Hr7) as [Hb8 Hr8].
  destruct (andb_prop _ _ Hr8) as [Hb9 Hr9].
  destruct (andb_prop _ _ Hr9) as [Hb10 Hr10].
  destruct (andb_prop _ _ Hr10) as [Hb11 Hr11].
  destruct (andb_prop _ _ Hr11) as [Hb12 Hr12].
  destruct (andb_prop _ _ Hr12) as [Hb13 Hr13].
  destruct (andb_prop _ _ Hr13) as [Hb14 Hr14].
  destruct (andb_prop _ _ Hr14) as [Hb15 _].
  clear Hr0 Hr1 Hr2 Hr3 Hr4 Hr5 Hr6 Hr7 Hr8 Hr9 Hr10 Hr11 Hr12 Hr13 Hr14.
  destruct (word_of_bytes b0 b1 Hb0 Hb1) as (Hw0 & Hp0 & Hz0).
  destruct (word_of_bytes b2 b3 Hb2 Hb3) as (Hw1 & Hp1 & Hz1).
  destruct (word_of_bytes b4 b5 Hb4 Hb5) as (Hw2 & Hp2 & Hz2).
  destruct (word_of_bytes b6 b7 Hb6 Hb7) as (Hw3 & Hp3 & Hz3).
  destruct (word_of_bytes b8 b9 Hb8 Hb9) as (Hw4 & Hp4 & Hz4).
  destruct (word_of_bytes b10 b11 Hb10 Hb11) as (Hw5 & Hp5 & Hz5).
  destruct (word_of_bytes b12 b13 Hb12 Hb13) as (Hw6 & Hp6 & Hz6).
  destruct (word_of_bytes b14 b15 Hb14 Hb15) as (Hw7 & Hp7 & Hz7).
  assert (Hmapped : (word_of b10 b11 =? 65535) = true -> b10 = 255 /\ b11 = 255).
  { intros Hm. apply Z.eqb_eq in Hm. rewrite Hm in Hp5.
    injection Hp5 as <- <-. split; reflexivity. }
  remember (word_of b0 b1) as w0 eqn:E0.
  remember (word_of b2 b3) as w1 eqn:E1.
  remember (word_of b4 b5) as w2 eqn:E2.
  remember (word_of b6 b7) as w3 eqn:E3.
  remember (word_of b8 b9) as w4 eqn:E4.
  remember (word_of b10 b11) as w5 eqn:E5.
  remember (word_of b12 b13) as w6 eqn:E6.
  remember (word_of b14 b15) as w7 eqn:E7.
  clear E0 E1 E2 E3 E4 E5 E6 E7.
  unfold run_ok in Hrun. cbn [asio.base asio.len map] in Hrun.
  destruct (Z.eqb_spec b (-1)) as [-> | Hne].
  - unfold shape_with.
    change (asio.base (asio.make_run (-1) l) =? -1) with true. cbv iota.
    split.
    + cbn [shape_ok length forallb Nat.eqb].
      rewrite Hw0, Hw1, Hw2, Hw3, Hw4, Hw5, Hw6, Hw7. reflexivity.
    + cbn [shape_bytes]. rewrite !store_words_cons.
      rewrite Hp0, Hp1, Hp2, Hp3, Hp4, Hp5, Hp6, Hp7. reflexivity.
  - cbn [orb] in Hrun.
    apply andb_prop in Hrun as [Hrun Hzeros].
    apply andb_prop in Hrun as [Hrun Hbl].
    apply andb_prop in Hrun as [Hb Hl].
    apply Z.leb_le in Hb, Hl, Hbl.
    assert (Hbv : b = 0 \/ b = 1 \/ b = 2 \/ b = 3 \/ b = 4 \/ b = 5 \/ b = 6)
      by lia.
    assert (Hlv : l = 2 \/ l = 3 \/ l = 4 \/ l = 5 \/ l = 6 \/ l = 7 \/ l = 8)
      by lia.
    destruct (w5 =? 65535) eqn:Hm;
    [ destruct (Hmapped eq_refl) as [-> ->] | ]; clear Hmapped;
    destruct Hbv as [-> | [-> | [-> | [-> | [-> | [-> | ->]]]]]];
    destruct Hlv as [-> | [-> | [-> | [-> | [-> | [-> | ->]]]]]];
    try (exfalso; lia);
    cbv [Z.to_nat Pos.to_nat Pos.iter_op Init.Nat.add seq forallb nth] in Hzeros;
    repeat match type of Hzeros with
    | (_ && _) = true =>
        let H1 := fresh "Hzero" in apply andb_prop in Hzeros as [H1 Hzeros]
    end;
    repeat match goal with
    | Hz : (?w =? 0) = true -> _, H : (?w =? 0) = true |- _ =>
        destruct (Hz H); clear Hz; subst
    end;
    try match goal with
    | H : 255 = 0 |- _ => discriminate H
    end;
    (split;
     [ cbv - [is_word is_byte];
       rewrite ?Hw0, ?Hw1, ?Hw2, ?Hw3, ?Hw4, ?Hw5, ?Hw6, ?Hw7,
         ?Hb12, ?Hb13, ?Hb14, ?Hb15; reflexivity
     | cbv - [store_words asio.put_word app];
       rewrite ?store_words_cons;
       rewrite ?Hp0, ?Hp1, ?Hp2, ?Hp3, ?Hp4, ?Hp5, ?Hp6, ?Hp7;
       reflexivity ]).
Qed.
Lemma run_ok_bounds (zeros : list bool) (b l : Z) :
  run_ok zeros (asio.make_run b l) = true ->
  b = -1 \/ (0 <= b /\ 2 <= l /\ b + l <= 8).
Proof.
  unfold run_ok. cbn [asio.base asio.len]. intros H.
  apply orb_prop in H as [H | H]; [left; lia |].
  apply andb_prop in H as [H _]. apply andb_prop in H as [H Hbl].
  apply andb_prop in H as [Hb Hl]. right. lia.
Qed.

(** What [inet_ntop6] writes has one of the four forms, and the form
    holds the bytes of the address. *)
Lemma inet_ntop6_shape (src : list Z) :
  length src = 16%nat -> forallb is_byte src = true ->
  exists sh, shape_ok sh = true
    /\ asio.inet_ntop6 src = render sh /\ shape_bytes sh = src.
Proof.
  intros Hlen Hbytes.
  destruct src as [| b0 [| b1 [| b2 [| b3 [| b4 [| b5 [| b6 [| b7 [| b8
    [| b9 [| b10 [| b11 [| b12 [| b13 [| b14 [| b15 [| extra src]]]]]]]]]]]]]]]]];
    try discriminate Hlen.
  rewrite inet_ntop6_with.
  change (asio.words_of
    [b0; b1; b2; b3; b4; b5; b6; b7; b8; b9; b10; b11; b12; b13; b14; b15])
    with [word_of b0 b1; word_of b2 b3; word_of b4 b5; word_of b6 b7;
          word_of b8 b9; word_of b10 b11; word_of b12 b13; word_of b14 b15].
  unfold asio.best_run.
  pose proof (best_of_ok (word_of b0 b1 =? 0) (word_of b2 b3 =? 0)
    (word_of b4 b5 =? 0) (word_of b6 b7 =? 0) (word_of b8 b9 =? 0)
    (word_of b10 b11 =? 0) (word_of b12 b13 =? 0) (word_of b14 b15 =? 0))
    as Hrun.
  change [word_of b0 b1 =? 0; word_of b2 b3 =? 0; word_of b4 b5 =? 0;
          word_of b6 b7 =? 0; word_of b8 b9 =? 0; word_of b10 b11 =? 0;
          word_of b12 b13 =? 0; word_of b14 b15 =? 0]
    with (map (fun w => w =? 0)
           [word_of b0 b1; word_of b2 b3; word_of b4 b5; word_of b6 b7;
            word_of b8 b9; word_of b10 b11; word_of b12 b13; word_of b14 b15])
    in Hrun.
  destruct (asio.best_of _) as [b l].
  cbn [asio.base asio.len nth skipn].
  destruct (shape_with_bytes b0 b1 b2 b3 b4 b5 b6 b7 b8 b9 b10 b11 b12 b13
    b14 b15 b l Hbytes Hrun) as [Hok Hsrc].
  eexists. split; [exact Hok | split; [| exact Hsrc]].
  apply render_shape_with, (run_ok_bounds _ _ _ Hrun).
Qed.

(** [inet_pton6] reads back what [inet_ntop6] wrote. *)
Theorem inet_pton6_ntop6 (src : list Z) :
  length src = 16%nat -> forallb is_byte src = true ->
  asio.inet_pton6 (asio.inet_ntop6 src) = Some src.
Proof.
  intros Hlen Hbytes.
  destruct (inet_ntop6_shape src Hlen Hbytes) as (sh & Hok & Hrender & Hsrc).
  rewrite Hrender, (inet_pton6_render sh Hok), Hsrc. reflexivity.
Qed.

(** *** The characters of the address text *)

Lemma forallb_lower_hex_ipv6 (s : text) :
  forallb lower_hex s = true -> forallb config.ipv6_char s = true.
Proof.
  induction s as [| c s IH]; cbn [forallb]; [reflexivity |].
  intros H. apply andb_prop in H as [Hc Hs].
  rewrite (lower_hex_is_ipv6_char c Hc), (IH Hs). reflexivity.
Qed.

Lemma forallb_digit_ipv6 (s : text) :
  forallb is_digit s = true -> forallb config.ipv6_char s = true.
Proof.
  induction s as [| c s IH]; cbn [forallb]; [reflexivity |].
  intros H. apply andb_prop in H as [Hc Hs].
  rewrite (digit_or_dot_is_ipv6_char c (digit_is_digit_or_dot c Hc)), (IH Hs).
  reflexivity.
Qed.

Lemma tail_groups_chars (ws : list Z) :
  forallb is_word ws = true ->
  forallb config.ipv6_char (tail_groups ws) = true.
Proof.
  induction ws as [| w ws IH]; cbn [forallb tail_groups flat_map];
    [reflexivity |].
  intros H. apply andb_prop in H as [Hw Hws]. fold (tail_groups ws).
  cbn [app forallb]. rewrite forallb_app.
  rewrite (forallb_lower_hex_ipv6 _ (print_hex_lower w Hw)), (IH Hws).
  reflexivity.
Qed.

Lemma join_chars (ws : list Z) :
  forallb is_word ws = true -> forallb config.ipv6_char (join ws) = true.
Proof.
  destruct ws as [| w ws]; [reflexivity |]. cbn [forallb join].
  intros H. apply andb_prop in H as [Hw Hws]. rewrite forallb_app.
  rewrite (forallb_lower_hex_ipv6 _ (print_hex_lower w Hw)),
    (tail_groups_chars ws Hws). reflexivity.
Qed.

Lemma inet_ntop4_chars (quad : list Z) :
  (length quad =? 4)%nat && forallb is_byte quad = true ->
  forallb config.ipv6_char (asio.inet_ntop4 quad) = true.
Proof.
  intros H. destruct (quad_bytes quad H) as (a & b & c & d & -> & Ha & Hb & Hc & Hd).
  unfold asio.inet_ntop4. cbn [nth txt list_ascii_of_string].
  rewrite !forallb_app. cbn [forallb].
  destruct (print_dec_octet a Ha) as (_ & _ & Hda).
  destruct (print_dec_octet b Hb) as (_ & _ & Hdb).
  destruct (print_dec_octet c Hc) as (_ & _ & Hdc).
  destruct (print_dec_octet d Hd) as (_ & _ & Hdd).
  rewrite (forallb_digit_ipv6 _ Hda), (forallb_digit_ipv6 _ Hdb),
    (forallb_digit_ipv6 _ Hdc), (forallb_digit_ipv6 _ Hdd).
  reflexivity.
Qed.

Lemma render_chars (sh : shape) :
  shape_ok sh = true ->
  forallb config.ipv6_char (render sh) = true /\ is_empty (render sh) = false.
Proof.
  destruct sh as [ws | pre post | quad | quad]; cbn [shape_ok render]; intros H.
  - apply andb_prop in H as [Hlen Hws]. split; [apply join_chars, Hws |].
    destruct ws as [| w ws]; [discriminate Hlen |].
    cbn [forallb] in Hws. apply andb_prop in Hws as [Hw _].
    destruct (print_hex_cons w Hw) as (c & digits & Hc & _).
    cbn [join]. rewrite Hc. reflexivity.
  - apply andb_prop in H as [H Hpost]. apply andb_prop in H as [_ Hpre].
    split.
    + rewrite !forallb_app, (join_chars pre Hpre), (join_chars post Hpost).
      reflexivity.
    + destruct (join pre); reflexivity.
  - split; [| reflexivity].
    rewrite forallb_app, (inet_ntop4_chars quad H). reflexivity.
  - split; [| reflexivity].
    rewrite forallb_app, (inet_ntop4_chars quad H). reflexivity.
Qed.

Lemma to_string_chars (ip : list Z) :
  length ip = 16%nat -> forallb is_byte ip = true ->
  forallb config.ipv6_char (asio.to_string ip) = true
  /\ is_empty (asio.to_string ip) = false.
Proof.
  intros Hlen Hbytes. unfold asio.to_string.
  destruct (inet_ntop6_shape ip Hlen Hbytes) as (sh & Hok & -> & _).
  apply render_chars, Hok.
Qed.

(** *** The expression matchers on the formatted text *)

Lemma span_app (p : ascii -> bool) (taken : text) : forall rest : text,
  forallb p taken = true ->
  match rest with [] => True | c :: _ => p c = false end ->
  config.span p (taken ++ rest) = (taken, rest).
Proof.
  induction taken as [| c taken IH]; intros rest Htaken Hrest.
  - cbn [app]. destruct rest as [| c rest]; [reflexivity |].
    cbn [config.span]. rewrite Hrest. reflexivity.
  - cbn [forallb] in Htaken. apply andb_prop in Htaken as [Hc Htaken].
    cbn [app config.span]. rewrite Hc, (IH rest Htaken Hrest). reflexivity.
Qed.

Lemma strip_prefix_app (prefix : text) : forall s group : text,
  config.strip_prefix prefix s = Some group -> s = prefix ++ group.
Proof.
  induction prefix as [| p prefix IH]; intros s group H.
  - cbn in H. injection H as ->. reflexivity.
  - destruct s as [| c s]; [discriminate H |]. cbn [config.strip_prefix] in H.
    unfold char_eqb in H. destruct (Ascii.eqb_spec p c) as [-> | _];
      [| discriminate H].
    cbn [app]. f_equal. apply IH, H.
Qed.

Lemma extract_word (s : text) :
  forallb (fun c => negb (is_space c)) s = true -> config.extract s = s.
Proof.
  intros H. unfold config.extract.
  assert (Hskip : config.skip_space s = s).
  { destruct s as [| c s]; [reflexivity |]. cbn [forallb] in H.
    apply andb_prop in H as [Hc _]. cbn [config.skip_space].
    destruct (is_space c); [discriminate Hc | reflexivity]. }
  rewrite Hskip. rewrite <- (app_nil_r s) at 1.
  rewrite (span_app _ s [] H I). reflexivity.
Qed.

Lemma forallb_ipv6_not_space (s : text) :
  forallb config.ipv6_char s = true ->
  forallb (fun c => negb (is_space c)) s = true.
Proof.
  induction s as [| c s IH]; cbn [forallb]; [reflexivity |].
  intros H. apply andb_prop in H as [Hc Hs].
  rewrite (ipv6_char_not_space c Hc), (IH Hs). reflexivity.
Qed.

Lemma forallb_digit_or_dot_ipv6 (s : text) :
  forallb config.digit_or_dot s = true -> forallb config.ipv6_char s = true.
Proof.
  induction s as [| c s IH]; cbn [forallb]; [reflexivity |].
  intros H. apply andb_prop in H as [Hc Hs].
  rewrite (digit_or_dot_is_ipv6_char c Hc), (IH Hs). reflexivity.
Qed.

Lemma digit_or_dot_no_colon (s : text) :
  forallb config.digit_or_dot s = true -> config.contains_char ":" s = false.
Proof.
  unfold config.contains_char.
  induction s as [| c s IH]; cbn [forallb existsb]; [reflexivity |].
  intros H. apply andb_prop in H as [Hc Hs].
  destruct (digit_or_dot_not_colon c Hc) as [Hcolon _].
  rewrite Hcolon, (IH Hs). reflexivity.
Qed.

(** The port part of the formatted text, and what [operator>>] reads
    from it. *)
Lemma port_suffix_parsed (p : Z) :
  0 <= p < 65536 ->
  let suffix := if negb (is_zero p) then txt ":" ++ print_dec p else [] in
  exists group5,
    config.match_port suffix = Some group5
    /\ (if is_empty group5 then Some 0
        else config.lexical_cast_uint16 group5) = Some p
    /\ forallb config.ipv6_char suffix = true
    /\ match suffix with [] => True | c :: _ => c = ":"%char end.
Proof.
  intros Hp suffix. subst suffix. unfold is_zero.
  destruct (Z.eqb_spec p 0) as [-> | Hne]; cbn [negb].
  - exists []. repeat split.
  - pose proof (port_checked p Hp) as Hc. unfold check_port in Hc.
    cbv zeta in Hc. apply andb_prop in Hc as [Hc Hdigits].
    apply andb_prop in Hc as [Hc Hlen]. apply andb_prop in Hc as [Hcast Hne'].
    exists (print_dec p). cbn [txt list_ascii_of_string app].
    repeat split.
    + cbn [config.match_port]. change (char_eqb ":" ":") with true.
      rewrite Hne', Hlen, Hdigits. reflexivity.
    + apply negb_true_iff in Hne'. rewrite Hne'.
      destruct (config.lexical_cast_uint16 (print_dec p)); [| discriminate].
      f_equal. lia.
    + cbn [forallb]. rewrite (forallb_digit_ipv6 _ Hdigits). reflexivity.
Qed.

Lemma valid_parts (a : config.authority) :
  config.valid a = true ->
  length (config.ip_ a) = 16%nat
  /\ forallb is_byte (config.ip_ a) = true
  /\ 0 <= config.port_ a < 65536.
Proof.
  unfold config.valid. intros H.
  apply andb_prop in H as [H Hhi]. apply andb_prop in H as [H Hlo].
  apply andb_prop in H as [Hlen Hbytes]. apply Nat.eqb_eq in Hlen.
  repeat split; [exact Hlen | exact Hbytes | lia | lia].
Qed.

(** The text [operator<<] writes, from the address text [s] and the port
    part [suffix], read back by [operator>>]. *)
Lemma parse_written (s suffix group5 : text) (ip : list Z) (p : Z) :
  asio.from_string s = Some ip ->
  forallb config.ipv6_char s = true -> is_empty s = false ->
  config.match_port suffix = Some group5 ->
  (if is_empty group5 then Some 0 else config.lexical_cast_uint16 group5)
    = Some p ->
  forallb config.ipv6_char suffix = true ->
  match suffix with [] => True | c :: _ => c = ":"%char end ->
  config.parse
    (config.to_host_name
       (if is_empty (match config.mapped_regular s with
                     | None => []
                     | Some group => group
                     end)
        then txt "[" ++ s ++ txt "]"
        else match config.mapped_regular s with
             | None => []
             | Some group => group
             end)
     ++ suffix)
  = Some (config.make_authority ip p).
Proof.
  intros Hread Hchars Hne Hport Hcast Hsuffix Hhead.
  destruct (config.mapped_regular s) as [group |] eqn:Hmapped.
  - (* the dotted form *)
    unfold config.mapped_regular in Hmapped.
    destruct (config.strip_prefix (txt "::ffff:") s) as [g |] eqn:Hstrip;
      [| discriminate Hmapped].
    destruct (negb (is_empty g) && forallb config.digit_or_dot g) eqn:Hg;
      [| discriminate Hmapped].
    injection Hmapped as <-.
    apply andb_prop in Hg as [Hgne Hgd]. apply negb_true_iff in Hgne.
    apply strip_prefix_app in Hstrip.
    rewrite Hgne. unfold config.to_host_name.
    rewrite (digit_or_dot_no_colon g Hgd). cbn [negb orb].
    unfold config.parse.
    rewrite extract_word
      by (apply forallb_ipv6_not_space; rewrite forallb_app,
            (forallb_digit_or_dot_ipv6 g Hgd), Hsuffix; reflexivity).
    unfold config.regular.
    assert (Hopen : config.starts_with_char "[" (g ++ suffix) = false).
    { destruct g as [| c g]; [discriminate Hgne |]. cbn [forallb] in Hgd.
      apply andb_prop in Hgd as [Hc _].
      destruct (digit_or_dot_not_colon c Hc) as [_ Hb]. exact Hb. }
    rewrite Hopen.
    rewrite (span_app config.digit_or_dot g suffix Hgd)
      by (destruct suffix; [exact I | rewrite Hhead; reflexivity]).
    rewrite Hgne, Hport. cbn [is_empty].
    unfold config.to_ipv6. rewrite <- Hstrip.
    rewrite Hread, Hcast. reflexivity.
  - (* the bracketed form *)
    cbn [is_empty]. unfold config.to_host_name.
    cbn [txt list_ascii_of_string app config.starts_with_char].
    change (char_eqb "[" "[") with true. rewrite orb_true_r.
    unfold config.parse.
    rewrite extract_word.
    2:{ cbn [app forallb]. rewrite <- app_assoc, forallb_app. cbn [app forallb].
        rewrite !(forallb_ipv6_not_space _ Hchars),
          (forallb_ipv6_not_space _ Hsuffix). reflexivity. }
    unfold config.regular.
    cbn [app config.starts_with_char tl]. change (char_eqb "[" "[") with true.
    cbv iota. rewrite <- app_assoc. cbn [app].
    rewrite (span_app config.ipv6_char s ("]"%char :: suffix) Hchars)
      by reflexivity.
    rewrite Hne. cbn [config.starts_with_char tl].
    change (char_eqb "]" "]") with true. cbv iota.
    rewrite Hport, Hne.
    rewrite Hread, Hcast. reflexivity.
Qed.
(** The round trip, for the authority with address bytes [ip] and port
    [p]. *)
Lemma parse_format (ip : list Z) (p : Z) :
  length ip = 16%nat -> forallb is_byte ip = true -> 0 <= p < 65536 ->
  config.parse (config.format (config.make_authority ip p))
  = Some (config.make_authority ip p).
Proof.
  intros Hlen Hbytes Hp.
  destruct (to_string_chars ip Hlen Hbytes) as [Hchars Hne].
  destruct (port_suffix_parsed p Hp)
    as (group5 & Hport & Hcast & Hsuffix & Hhead).
  exact (parse_written (asio.to_string ip) _ group5 ip p
           (inet_pton6_ntop6 ip Hlen Hbytes) Hchars Hne Hport Hcast Hsuffix
           Hhead).
Qed.

(** C4: for every valid authority (sixteen address bytes and a 16-bit
    port), parsing the text [operator<<] writes gives the authority back;
    and the two texts of the tests parse to the expected bytes and port and
    are written back unchanged. *)
Theorem authority_round_trip :
  (forall a : config.authority,
     config.valid a = true -> config.parse (config.format a) = Some a)
  /\ config.parse (txt "[2001:db8::2]:42") = Some ipv6_authority
  /\ config.format ipv6_authority = txt "[2001:db8::2]:42"
  /\ config.parse (txt "1.2.240.1:42") = Some ipv4_authority
  /\ config.format ipv4_authority = txt "1.2.240.1:42".
Proof.
  split.
  - intros [ip p] Hvalid.
    destruct (valid_parts _ Hvalid) as (Hlen & Hbytes & Hp).
    apply parse_format; assumption.
  - repeat split; vm_compute; reflexivity.
Qed.

Lemma authority_round_trip_witness :
  config.valid ipv6_authority = true
  /\ config.parse (config.format ipv6_authority) = Some ipv6_authority.
Proof.
  split; [reflexivity |].
  apply (proj1 authority_round_trip ipv6_authority). reflexivity.
Defined.

(** * Further properties of the code *)

(** ** error.cpp: asio_to_error_code *)

(** X1: an asio error is reported as [success] only when it is success;
    no failure is lost in the mapping. *)
Theorem asio_to_error_code_success_iff :
  forall ec : boost.boost_error_t,
    asio_to_error_code ec = success <-> ec = boost.success.
Proof.
  intros ec. split.
  - destruct ec; vm_compute; intros H; first [reflexivity | discriminate H].
  - intros ->. reflexivity.
Qed.

(** X2: a cancelled operation maps to [operation_canceled], and whatever
    the asio error, the mapping never yields a stop code
    ([service_stopped], [channel_stopped], [subscriber_stopped]) nor
    [bypassed]: its results are the ten codes listed. *)
Theorem asio_to_error_code_range :
  forall ec : boost.boost_error_t,
    (asio_is_canceled ec = true -> asio_to_error_code ec = operation_canceled)
    /\ In (asio_to_error_code ec)
         [success; operation_canceled; operation_failed; resolve_failed;
          connect_failed; address_in_use; bad_stream; channel_timeout;
          file_system; unknown].
Proof.
  intros ec. split.
  - destruct ec; vm_compute; intros H; first [reflexivity | discriminate H].
  - destruct ec; vm_compute; tauto.
Qed.

Lemma asio_to_error_code_range_witness :
  asio_to_error_code boost.operation_canceled = operation_canceled.
Proof.
  apply (proj1 (asio_to_error_code_range boost.operation_canceled)).
  reflexivity.
Defined.

(** ** subscriber.ipp *)

Lemma subscriber_run_app {Handler Args : Type}
    (calls1 calls2 : list (subscriber.call Handler Args)) :
  forall s : subscriber.t Handler,
    subscriber.run (calls1 ++ calls2) s
    = (fst (subscriber.run calls2 (fst (subscriber.run calls1 s))),
       snd (subscriber.run calls1 s)
       ++ snd (subscriber.run calls2 (fst (subscriber.run calls1 s)))).
Proof.
  induction calls1 as [| c calls1 IH]; intros s; cbn [app subscriber.run].
  - cbn [fst snd app]. destruct (subscriber.run calls2 s). reflexivity.
  - destruct (subscriber.step c s) as [s1 posts1]. rewrite IH.
    destruct (subscriber.run calls1 s1) as [s2 posts2]. cbn [fst snd].
    rewrite <- app_assoc. reflexivity.
Qed.

Lemma subscriber_subscribe_all {Handler Args : Type} (handlers : list Handler) :
  forall queue : list Handler,
    subscriber.run (Args := Args) (map subscriber.call_subscribe handlers)
      (subscriber.make false queue)
    = (subscriber.make false (queue ++ handlers), []).
Proof.
  induction handlers as [| h handlers IH]; intros queue;
    cbn [map subscriber.run].
  - rewrite app_nil_r. reflexivity.
  - cbn. rewrite IH, <- app_assoc. reflexivity.
Qed.

(** X3: on a subscriber that has not been stopped, [notify] posts every
    subscribed handler once, with the arguments of the call, in the order
    of subscription, and leaves the subscriptions in place. *)
Theorem subscriber_notify_in_order :
  forall (Handler Args : Type) (handlers : list Handler) (args : Args),
    subscriber.run
      (map subscriber.call_subscribe handlers ++ [subscriber.call_notify args])
      subscriber.create
    = (subscriber.make false handlers, map (fun h => (h, args)) handlers).
Proof.
  intros Handler Args handlers args.
  rewrite subscriber_run_app. unfold subscriber.create.
  rewrite subscriber_subscribe_all. cbn. rewrite app_nil_r. reflexivity.
Qed.

(** X4: [stop] is absorbing: once a subscriber is stopped, whatever is
    called on it afterwards (subscribe, notify or stop) posts no handler
    and leaves it stopped; a subscriber stopped by [stop] has an empty
    queue and keeps it. *)
Theorem subscriber_stopped_is_absorbing :
  forall (Handler Args : Type) (calls : list (subscriber.call Handler Args))
         (s : subscriber.t Handler),
    subscriber.stopped_ s = true -> subscriber.run calls s = (s, []).
Proof.
  intros Handler Args calls. induction calls as [| c calls IH]; intros s Hs.
  - reflexivity.
  - cbn [subscriber.run].
    assert (Hstep : subscriber.step c s = (s, [])).
    { destruct c; cbn [subscriber.step]; unfold subscriber.subscribe,
        subscriber.notify, subscriber.stop; rewrite Hs; reflexivity. }
    rewrite Hstep, (IH s Hs). reflexivity.
Qed.

Lemma subscriber_stopped_is_absorbing_witness :
  subscriber.run
    [subscriber.call_subscribe 3%nat; subscriber.call_notify success;
     subscriber.call_stop service_stopped]
    (fst (subscriber.stop channel_stopped (subscriber.make false [1%nat])))
  = (subscriber.make true [], []).
Proof.
  apply (subscriber_stopped_is_absorbing nat code). reflexivity.
Defined.

(** ** The protocols the sessions attach *)

(** X5: [session_inbound::attach_handshake] selects the handshake protocol
    that [session::attach_handshake] selects, whatever the settings; the
    selected class is [version_70002] exactly when reject is enabled and the
    configured maximum has reached bip61.  [session_outbound::attach_handshake]
    goes by the negotiated version alone and never selects
    [version_70001]. *)
Theorem inbound_handshake_agrees_with_session :
  forall (level : protocols.protocol_levels)
         (cfg : protocols.protocol_settings) (negotiated_version : Z),
    protocols.session_inbound_attach_handshake level cfg
    = protocols.session_attach_handshake level cfg
    /\ (protocols.session_attach_handshake level cfg = protocols.version_70002
        <-> protocols.enable_reject cfg = true
            /\ protocols.bip61 level <= protocols.protocol_maximum cfg)
    /\ protocols.session_outbound_attach_handshake level negotiated_version
       <> protocols.version_70001
    /\ (protocols.session_outbound_attach_handshake level negotiated_version
          = protocols.version_70002
        <-> protocols.bip61 level <= negotiated_version).
Proof.
  intros level cfg negotiated_version.
  unfold protocols.session_inbound_attach_handshake,
    protocols.session_attach_handshake,
    protocols.session_outbound_attach_handshake. cbv zeta.
  split; [reflexivity |]. split; [| split].
  - destruct (protocols.enable_reject cfg); cbn [andb].
    + destruct (Z.geb_spec (protocols.protocol_maximum cfg)
                  (protocols.bip61 level)) as [Hge | Hlt].
      * split; [intros _; split; [reflexivity | lia] | reflexivity].
      * destruct (protocols.protocol_maximum cfg >=? protocols.bip37 level);
          split; try discriminate; intros [_ Hle]; lia.
    + destruct (protocols.protocol_maximum cfg >=? protocols.bip37 level);
        split; try discriminate; intros [Hno _]; discriminate Hno.
  - destruct (negotiated_version >=? protocols.bip61 level); discriminate.
  - destruct (Z.geb_spec negotiated_version (protocols.bip61 level));
      split; try discriminate; try lia; reflexivity.
Qed.

(** X6: of the protocols attached after the handshake, the ping protocol
    is [ping_60001] from bip31 on and [ping_31402] below, for every
    session; the base session attaches [reject_70002] only when reject is
    enabled and the negotiated version has reached bip61, the outbound
    session from bip61 on whatever the setting. *)
Theorem attached_protocols_by_version :
  forall (level : protocols.protocol_levels)
         (cfg : protocols.protocol_settings) (version : Z),
    let base := protocols.session_attach_protocols level cfg version in
    let outbound := protocols.session_outbound_attach_protocols level version in
    (In protocols.ping_60001 base <-> protocols.bip31 level <= version)
    /\ (In protocols.ping_31402 base <-> version < protocols.bip31 level)
    /\ (In protocols.ping_60001 outbound <-> protocols.bip31 level <= version)
    /\ (In protocols.ping_31402 outbound <-> version < protocols.bip31 level)
    /\ (In protocols.reject_70002 base
        <-> protocols.enable_reject cfg = true
            /\ protocols.bip61 level <= version)
    /\ (In protocols.reject_70002 outbound <-> protocols.bip61 level <= version)
    /\ last base = Some protocols.address_31402
    /\ last outbound = Some protocols.address_31402.
Proof.
  intros level cfg version.
  unfold protocols.session_attach_protocols,
    protocols.session_outbound_attach_protocols. cbv zeta.
  destruct (Z.geb_spec version (protocols.bip31 level)) as [H31 | H31];
  destruct (Z.geb_spec version (protocols.bip61 level)) as [H61 | H61];
  destruct (protocols.enable_reject cfg);
  destruct (protocols.enable_alert cfg);
  cbn [andb app In last];
  repeat split; intros; try lia; try discriminate; try tauto;
  repeat match goal with
  | H : _ \/ _ |- _ => destruct H
  | H : _ /\ _ |- _ => destruct H
  | H : False |- _ => destruct H
  end; try discriminate; try lia; auto.
Qed.

(** ** Sessions *)

Lemma authority_eqb_eq (a b : config.authority) :
  config.eqb a b = true <-> a = b.
Proof.
  unfold config.eqb, config.port, config.ip. destruct a as [ia pa], b as [ib pb].
  cbn [config.ip_ config.port_]. split.
  - intros H. apply andb_prop in H as [Hp Hi]. apply Z.eqb_eq in Hp.
    apply bool_decide_eq_true in Hi. subst. reflexivity.
  - intros H. injection H as -> ->. rewrite Z.eqb_refl.
    rewrite bool_decide_eq_true_2; reflexivity.
Qed.

Lemma blacklisted_in (cfg : settings) (a : config.authority) :
  session.blacklisted cfg a = true <-> In a (blacklists cfg).
Proof.
  unfold session.blacklisted. rewrite existsb_exists. split.
  - intros (b & Hin & Heq). apply authority_eqb_eq in Heq. subst. exact Hin.
  - intros Hin. exists a. split; [exact Hin | apply authority_eqb_eq; reflexivity].
Qed.

(** X7: [session::blacklisted] holds exactly of the authorities that are
    in the configured blacklist (same address bytes and same port); in
    particular an authority with the listed address and another port is
    not blacklisted unless it is listed itself. *)
Theorem blacklisted_iff_listed :
  forall (cfg : settings) (a : config.authority),
    (session.blacklisted cfg a = true <-> In a (blacklists cfg))
    /\ (session.blacklisted cfg a = false
        <-> forall b, In b (blacklists cfg) ->
              config.ip b <> config.ip a \/ config.port b <> config.port a).
Proof.
  intros cfg a. split; [apply blacklisted_in |].
  split.
  - intros Hno b Hin.
    destruct (decide (config.ip b = config.ip a)) as [Hip | Hip];
      [| left; exact Hip].
    right. intros Hport.
    assert (b = a) by (destruct a, b; cbn in *; subst; reflexivity).
    subst b. apply blacklisted_in in Hin. rewrite Hin in Hno. discriminate.
  - intros Hall. destruct (session.blacklisted cfg a) eqn:Hb; [| reflexivity].
    apply blacklisted_in in Hb. destruct (Hall a Hb) as [H | H];
      exfalso; apply H; reflexivity.
Qed.

(** X8: [start_batch] asks a connector to connect only on a running
    session, after a successful fetch, to a host that is not blacklisted;
    a blacklisted host is never dialed: the batch handler gets an error
    code and no channel instead. *)
Theorem start_batch_never_dials_blacklisted :
  forall (cfg : settings) (ec : code) (host : config.authority)
         (k : connector) (handler : channel_handler) (w : world),
    (stopped_ w = false -> ec = success -> ~ In host (blacklists cfg) ->
       session_outbound.start_batch cfg ec host k handler w
       = emit (connect_requested k host) w)
    /\ (In host (blacklists cfg) ->
        exists failure : code,
          to_bool failure = true
          /\ session_outbound.start_batch cfg ec host k handler w
             = handler failure None w).
Proof.
  intros cfg ec host k handler w. unfold session_outbound.start_batch. split.
  - intros -> -> Hout. change (to_bool success) with false. cbv iota.
    destruct (session.blacklisted cfg host) eqn:Hb; [| reflexivity].
    apply blacklisted_in in Hb. contradiction.
  - intros Hin. apply blacklisted_in in Hin. rewrite Hin.
    destruct (stopped_ w); [exists service_stopped; split; reflexivity |].
    destruct (to_bool ec) eqn:Hec; [exists ec; split; [exact Hec | reflexivity] |].
    exists address_blocked. split; reflexivity.
Qed.

Lemma start_batch_never_dials_blacklisted_witness :
  session_outbound.start_batch two_connector_settings success
    (authority peer_socket) 0%nat (fun ec _ => external 9 ec)
    (set_stopped false (session.create ∅ 3 0))
  = emit (connect_requested 0%nat (authority peer_socket))
      (set_stopped false (session.create ∅ 3 0)).
Proof.
  apply (proj1 (start_batch_never_dials_blacklisted two_connector_settings
    success (authority peer_socket) 0%nat (fun ec _ => external 9 ec)
    (set_stopped false (session.create ∅ 3 0)))); [reflexivity | reflexivity |].
  intros [].
Defined.

(** X9: [handle_connect] absorbs a failed batch: for every error code but
    [service_stopped] it only arms the retry timer with [connect_timeout],
    for [service_stopped] it does nothing; and a channel connected while
    the session stopped is stopped with [service_stopped] and not started.
    In all three cases the pending set and the nonce table stay as they
    are. *)
Theorem handle_connect_without_start :
  forall (cfg : settings) (ec : code) (c : option channel) (ch : channel)
         (connectors : list connector) (w : world),
    (ec = service_stopped ->
       session_outbound.handle_connect cfg ec c connectors w = w)
    /\ (to_bool ec = true -> ec <> service_stopped ->
       session_outbound.handle_connect cfg ec c connectors w
       = emit (timer_started connectors (connect_timeout cfg)) w)
    /\ (stopped_ w = true ->
       session_outbound.handle_connect cfg success (Some ch) connectors w
       = emit (channel_stop ch service_stopped) w)
    /\ (to_bool ec = true \/ stopped_ w = true ->
       pending_ (session_outbound.handle_connect cfg ec c connectors w)
         = pending_ w
       /\ nonces_ (session_outbound.handle_connect cfg ec c connectors w)
         = nonces_ w).
Proof.
  intros cfg ec c ch connectors w. unfold session_outbound.handle_connect.
  split; [| split; [| split]].
  - intros ->. reflexivity.
  - intros Hec Hne. rewrite Hec.
    replace (error.eqb ec service_stopped) with false; [reflexivity |].
    symmetry. apply bool_decide_eq_false. exact Hne.
  - intros Hs. cbn. rewrite Hs. reflexivity.
  - intros H. destruct (error.eqb ec service_stopped); [auto |].
    destruct (to_bool ec) eqn:Hec; [auto |].
    destruct H as [H | Hs]; [discriminate H |].
    destruct c as [c |]; [| auto]. rewrite Hs. auto.
Qed.

Lemma handle_connect_without_start_witness :
  session_outbound.handle_connect two_connector_settings address_blocked None
    [0%nat; 1%nat] started_outbound
  = emit (timer_started [0%nat; 1%nat] 5) started_outbound.
Proof.
  apply (proj1 (proj2 (handle_connect_without_start two_connector_settings
    address_blocked None peer_channel [0%nat; 1%nat] started_outbound)));
    [reflexivity | discriminate].
Defined.

(** *** The batch counter *)

Lemma repeat_action_last (n : nat) (a : action) (w : world) :
  repeat_action (S n) a w = a (repeat_action n a w).
Proof.
  revert w. induction n as [| n IH]; intros w; [reflexivity |].
  change (repeat_action (S (S n)) a w) with (repeat_action (S n) a (a w)).
  rewrite IH. reflexivity.
Qed.

Lemma set_count_same (w : world) : set_count (count_ w) w = w.
Proof. destruct w. reflexivity. Qed.

Lemma handle_batch_failure_early (ec : code) (ks : list connector)
    (handler : channel_handler) (w : world) :
  to_bool ec = true ->
  0 <= count_ w -> count_ w + 1 < batch_ w -> batch_ w <= 2 ^ 64 ->
  session_outbound.handle_batch ec None ks handler w
  = set_count (count_ w + 1) w.
Proof.
  intros Hec H0 Hlt Hmax. unfold session_outbound.handle_batch.
  rewrite Hec. cbn [negb].
  assert (Hw : wrap64 (count_ w + 1) = count_ w + 1)
    by (unfold wrap64; apply Z.mod_small; lia).
  rewrite Hw. cbn [count_ batch_ set_count].
  destruct (Z.eqb_spec (count_ w + 1) (batch_ w)); [lia | reflexivity].
Qed.

Lemma failures_before_finish (ec : code) (ks : list connector)
    (handler : channel_handler) (n : nat) :
  forall w : world,
    to_bool ec = true ->
    0 <= count_ w -> count_ w + Z.of_nat n < batch_ w -> batch_ w <= 2 ^ 64 ->
    repeat_action n (session_outbound.handle_batch ec None ks handler) w
    = set_count (count_ w + Z.of_nat n) w.
Proof.
  induction n as [| n IH]; intros w Hec H0 Hlt Hmax.
  - cbn [repeat_action skip]. rewrite Z.add_0_r, set_count_same. reflexivity.
  - cbn [repeat_action]. unfold seq_action.
    rewrite handle_batch_failure_early by (auto; lia).
    rewrite IH.
    + unfold set_count. cbn [count_ batch_ stopped_ pending_ nonces_
        address_count inbound_channel_count next_connector trace].
      f_equal; lia.
    + exact Hec.
    + cbn [count_ batch_ set_count]. lia.
    + cbn [count_ batch_ set_count]. lia.
    + cbn [count_ batch_ set_count]. lia.
Qed.

(** X10: in a batch that starts with the counter at zero, the attempts
    that fail before the last one report nothing, and the failure that
    completes the batch calls the handler once, with [connect_failed] and
    no channel. *)
Theorem first_batch_failure_reported_once :
  forall (ec : code) (ks : list connector) (handler : channel_handler)
         (w : world) (n : nat),
    to_bool ec = true ->
    count_ w = 0 -> batch_ w = Z.of_nat (S n) -> batch_ w < 2 ^ 64 ->
    (forall k : nat, (k <= n)%nat ->
       repeat_action k (session_outbound.handle_batch ec None ks handler) w
       = set_count (Z.of_nat k) w)
    /\ repeat_action (S n) (session_outbound.handle_batch ec None ks handler) w
       = handler connect_failed None (set_count (batch_ w) w).
Proof.
  intros ec ks handler w n Hec Hc Hb Hmax.
  assert (Hbefore : forall k : nat, (k <= n)%nat ->
    repeat_action k (session_outbound.handle_batch ec None ks handler) w
    = set_count (Z.of_nat k) w).
  { intros k Hk. rewrite failures_before_finish; auto; try lia.
    rewrite Hc. reflexivity. }
  split; [exact Hbefore |].
  rewrite repeat_action_last, (Hbefore n (le_n n)).
  unfold session_outbound.handle_batch. rewrite Hec. cbn [negb].
  cbn [count_ batch_ set_count].
  assert (Hw : wrap64 (Z.of_nat n + 1) = batch_ w)
    by (unfold wrap64; rewrite Z.mod_small; lia).
  rewrite Hw, Z.eqb_refl. reflexivity.
Qed.

Lemma first_batch_failure_reported_once_witness :
  repeat_action 2 attempt_fails started_outbound
  = session_outbound.batch_handler two_connector_settings [0%nat; 1%nat]
      connect_failed None (set_count 2 started_outbound).
Proof.
  apply (proj2 (first_batch_failure_reported_once connect_failed
    [0%nat; 1%nat]
    (session_outbound.batch_handler two_connector_settings [0%nat; 1%nat])
    started_outbound 1 eq_refl eq_refl eq_refl eq_refl)).
Defined.




(** *** The start sequence of the outbound session *)

Lemma for_each_emit (f : connector -> event) (ks : list connector) :
  forall w : world,
    session_outbound.for_each (fun k => emit (f k)) ks w
    = make_world (stopped_ w) (pending_ w) (batch_ w) (count_ w) (nonces_ w)
        (address_count w) (inbound_channel_count w) (next_connector w)
        (trace w ++ map f ks).
Proof.
  induction ks as [| k ks IH]; intros w.
  - cbn [session_outbound.for_each skip map]. rewrite app_nil_r.
    destruct w; reflexivity.
  - cbn [session_outbound.for_each map]. unfold seq_action. rewrite IH.
    unfold emit. cbn [stopped_ pending_ batch_ count_ nonces_ address_count
      inbound_channel_count next_connector trace].
    rewrite <- app_assoc. reflexivity.
Qed.

Lemma start_peers_trace (n : nat) :
  forall w : world,
    stopped_ w = false ->
    session_outbound.start_peers n w
    = make_world false (pending_ w) (batch_ w) (count_ w) (nonces_ w)
        (address_count w) (inbound_channel_count w)
        (next_connector w + n * Z.to_nat (batch_ w))
        (trace w
         ++ slots_events (next_connector w) (Z.to_nat (batch_ w)) n).
Proof.
  induction n as [| n IH]; intros w Hrun.
  - cbn [session_outbound.start_peers skip slots_events].
    rewrite app_nil_r, Nat.mul_0_l, Nat.add_0_r.
    destruct w; cbn in Hrun; subst; reflexivity.
  - cbn [session_outbound.start_peers slots_events].
    unfold session_outbound.create_connectors. cbv beta iota zeta.
    unfold seq_action.
    rewrite (for_each_emit connector_stop_subscribed).
    unfold session_outbound.start_connect, session_outbound.batch.
    unfold emit, set_next_connector.
    cbn [stopped_ pending_ batch_ count_ nonces_ address_count
      inbound_channel_count next_connector trace].
    rewrite Hrun. rewrite (for_each_emit fetch_requested).
    cbn [stopped_ pending_ batch_ count_ nonces_ address_count
      inbound_channel_count next_connector trace].
    rewrite IH by reflexivity.
    cbn [stopped_ pending_ batch_ count_ nonces_ address_count
      inbound_channel_count next_connector trace].
    unfold slot_events.
    f_equal; [lia |].
    rewrite <- !app_assoc. cbn [app]. rewrite <- !app_assoc. reflexivity.
Qed.

(** X12: [start] on a stopped session that is configured for outbound
    connections and knows addresses marks the session started and, for
    each of the [outbound_connections] slots in turn, creates [batch_]
    new connectors, registers each for the stop and fetches a host for
    each; only then is the handler called, with [success].  It changes
    neither the counter nor the pending sets. *)
Theorem session_outbound_start_sequence :
  forall (cfg : settings) (h : nat) (w : world),
    0 < outbound_connections cfg ->
    0 < host_pool_capacity cfg ->
    0 < address_count w ->
    stopped_ w = true ->
    session_outbound.start cfg (external h) w
    = make_world false (pending_ w) (batch_ w) (count_ w) (nonces_ w)
        (address_count w) (inbound_channel_count w)
        (next_connector w
         + Z.to_nat (outbound_connections cfg) * Z.to_nat (batch_ w))
        (trace w
         ++ slots_events (next_connector w) (Z.to_nat (batch_ w))
              (Z.to_nat (outbound_connections cfg))
         ++ [handler_invoked h success]).
Proof.
  intros cfg h w Hout Hpool Haddr Hstop.
  unfold session_outbound.start, is_zero.
  destruct (Z.eqb_spec (outbound_connections cfg) 0); [lia |].
  destruct (Z.eqb_spec (host_pool_capacity cfg) 0); [lia |].
  destruct (Z.eqb_spec (address_count w) 0); [lia |].
  cbn [orb]. unfold session.start. rewrite Hstop. cbn [negb].
  unfold seq_action, session_outbound.handle_started.
  change (to_bool success) with false. cbv iota.
  unfold seq_action. rewrite start_peers_trace by reflexivity.
  unfold external, emit, set_stopped.
  cbn [stopped_ pending_ batch_ count_ nonces_ address_count
    inbound_channel_count next_connector trace].
  rewrite <- app_assoc. reflexivity.
Qed.

Lemma session_outbound_start_sequence_witness :
  started_outbound
  = make_world false ∅ 2 0 ∅ 3 0 2
      [connectors_created [0%nat; 1%nat];
       connector_stop_subscribed 0%nat; connector_stop_subscribed 1%nat;
       fetch_requested 0%nat; fetch_requested 1%nat;
       handler_invoked 0 success].
Proof.
  apply (session_outbound_start_sequence two_connector_settings 0%nat
    (session_outbound.create two_connector_settings ∅ 3 0)
    eq_refl eq_refl eq_refl eq_refl).
Defined.

(** X13: the two ways [start] fails on a session configured for
    outbound connections.  Without addresses the handler is called with
    [address_not_found] and the session is left as it was, not started;
    with addresses, on a session that is already started, the handler is
    called with [operation_failed].  In both cases nothing else happens:
    no connector is created and no host is fetched. *)
Theorem session_outbound_start_failures :
  forall (cfg : settings) (handler : result_handler) (w : world),
    0 < outbound_connections cfg ->
    0 < host_pool_capacity cfg ->
    (address_count w = 0 ->
       session_outbound.start cfg handler w = handler address_not_found w)
    /\ (0 < address_count w -> stopped_ w = false ->
       session_outbound.start cfg handler w = handler operation_failed w).
Proof.
  intros cfg handler w Hout Hpool.
  unfold session_outbound.start, is_zero.
  destruct (Z.eqb_spec (outbound_connections cfg) 0); [lia |].
  destruct (Z.eqb_spec (host_pool_capacity cfg) 0); [lia |].
  cbn [orb]. split.
  - intros Haddr. rewrite Haddr. reflexivity.
  - intros Haddr Hrun.
    destruct (Z.eqb_spec (address_count w) 0); [lia |].
    unfold session.start. rewrite Hrun. reflexivity.
Qed.

Lemma session_outbound_start_failures_witness :
  session_outbound.start two_connector_settings (external 1)
    (session_outbound.create two_connector_settings ∅ 0 0)
  = external 1 address_not_found
      (session_outbound.create two_connector_settings ∅ 0 0)
  /\ session_outbound.start two_connector_settings (external 1)
       started_outbound
     = external 1 operation_failed started_outbound.
Proof.
  split.
  - apply (proj1 (session_outbound_start_failures two_connector_settings
      (external 1) (session_outbound.create two_connector_settings ∅ 0 0)
      eq_refl eq_refl) eq_refl).
  - apply (proj2 (session_outbound_start_failures two_connector_settings
      (external 1) started_outbound eq_refl eq_refl) eq_refl eq_refl).
Defined.

(** *** The inbound session *)

(** X14: whatever is accepted, [handle_accept] leaves the started flag,
    the batch counters and the set of pended nonces alone (an inbound
    channel's nonce is never pended), and the pending channels grow by at
    most the new channel. *)
Theorem handle_accept_keeps_nonces :
  forall (cfg : settings) (ec : code) (s : option socket) (a : acceptor)
         (fresh : channel) (w : world),
    let w' := session_inbound.handle_accept cfg ec s a fresh w in
    nonces_ w' = nonces_ w
    /\ stopped_ w' = stopped_ w
    /\ count_ w' = count_ w /\ batch_ w' = batch_ w
    /\ (pending_ w' = pending_ w
        \/ pending_ w' = {[ channel_ptr fresh ]} ∪ pending_ w).
Proof.
  intros cfg ec s a fresh w.
  unfold session_inbound.handle_accept, session_inbound.start_accept.
  destruct (stopped_ w) eqn:Hstop.
  - destruct s; cbn; auto 10.
  - change (to_bool success) with false. cbv iota.
    destruct (to_bool ec); [cbn; auto 10 |].
    destruct s as [sock |]; [| cbn; auto 10].
    destruct (negb (session.whitelisted cfg (authority sock)));
      [cbn; auto 10 |].
    destruct (session.blacklisted cfg (authority sock)); [cbn; auto 10 |].
    destruct (inbound_connections cfg <=? _); [cbn; auto 10 |].
    unfold seq_action, session_inbound.create_channel, session.start_channel.
    cbn [emit stopped_]. rewrite Hstop.
    unfold session_inbound.inbound. cbv iota beta.
    cbn. auto 10.
Qed.

(** *** The ping protocol over several events *)

(** X15: an incoming ping is answered with a pong that carries the nonce
    of the ping, and the subscription is kept; neither [handle_receive_ping]
    nor [handle_send_ping] ever changes the pending flag, whatever the
    code, and the only other thing they do is stop the channel with the
    code they were given. *)
Theorem ping_60001_incoming_ping :
  forall (stopped : ping.protocol -> code -> bool) (ec : code)
         (message_nonce : Z) (p : ping.protocol),
    (stopped p success = false ->
       ping.handle_receive_ping stopped success message_nonce p
       = (true, ping.make (ping.pending_ p) (ping.channel_stopped p)
                  (ping.effects p ++ [ping.send_pong_message message_nonce])))
    /\ ping.pending_
         (snd (ping.handle_receive_ping stopped ec message_nonce p))
       = ping.pending_ p
    /\ ping.pending_ (ping.handle_send_ping stopped ec p) = ping.pending_ p
    /\ (fst (ping.handle_receive_ping stopped ec message_nonce p) = false ->
        snd (ping.handle_receive_ping stopped ec message_nonce p) = p
        \/ snd (ping.handle_receive_ping stopped ec message_nonce p)
           = ping.do_stop ec p).
Proof.
  intros stopped ec message_nonce p.
  unfold ping.handle_receive_ping, ping.handle_send_ping.
  repeat split.
  - intros Hrun. rewrite Hrun. reflexivity.
  - destruct (stopped p ec); [reflexivity |].
    destruct (to_bool ec); reflexivity.
  - destruct (stopped p ec); [reflexivity |].
    destruct (to_bool ec); reflexivity.
  - destruct (stopped p ec); [left; reflexivity |].
    destruct (to_bool ec); [right; reflexivity | discriminate].
Qed.

Lemma ping_60001_incoming_ping_witness :
  ping.handle_receive_ping ping.channel_state_stopped success 5 ping.create
  = (true, ping.make false false [ping.send_pong_message 5]).
Proof.
  apply (proj1 (ping_60001_incoming_ping ping.channel_state_stopped success 5
    ping.create) eq_refl).
Defined.

(** X16: two heartbeats in a row on a running channel with no ping
    outstanding.  If the pong for the first ping (same nonce) arrives in
    between, the second heartbeat sends a new ping with its own nonce and
    the channel stays up; if nothing arrives, the second heartbeat stops
    the channel with [channel_timeout] and sends nothing. *)
Theorem ping_60001_two_heartbeats :
  forall (stopped : ping.protocol -> code -> bool) (r1 r2 : Z)
         (p : ping.protocol),
    (forall (q : ping.protocol) (ec : code),
       ping.channel_stopped q = false ->
       ec = success \/ ec = channel_timeout ->
       stopped q ec = false) ->
    ping.channel_stopped p = false ->
    ping.pending_ p = false ->
    let sent := ping.send_ping stopped channel_timeout r1 p in
    let answered := snd (ping.handle_receive_pong stopped success r1 r1 sent) in
    ping.send_ping stopped channel_timeout r2 answered
    = ping.make true false
        (ping.effects p
         ++ [ping.subscribe_pong r1; ping.send_ping_message r1;
             ping.subscribe_pong r2; ping.send_ping_message r2])
    /\ ping.send_ping stopped channel_timeout r2 sent
       = ping.make true true
           (ping.effects p
            ++ [ping.subscribe_pong r1; ping.send_ping_message r1;
                ping.stop channel_timeout]).
Proof.
  intros stopped r1 r2 p Hrun Hup Hidle sent answered.
  assert (Hok : forall q, ping.channel_stopped q = false ->
            stopped q success = false) by (intros q Hq; apply Hrun; auto).
  assert (Htimer : forall q, ping.channel_stopped q = false ->
            stopped q channel_timeout = false)
    by (intros q Hq; apply Hrun; auto).
  assert (Hsent : sent = ping.make true false
            (ping.effects p
             ++ [ping.subscribe_pong r1; ping.send_ping_message r1])).
  { subst sent. unfold ping.send_ping. rewrite (Htimer p Hup).
    change (to_bool channel_timeout && negb (error.eqb channel_timeout
      channel_timeout)) with false. cbv iota. rewrite Hidle.
    unfold ping.do_effect, ping.set_pending. cbn. rewrite Hup.
    rewrite <- app_assoc. reflexivity. }
  assert (Hanswered : answered = ping.make false false
            (ping.effects p
             ++ [ping.subscribe_pong r1; ping.send_ping_message r1])).
  { subst answered. rewrite Hsent. unfold ping.handle_receive_pong.
    rewrite Hok by reflexivity.
    change (to_bool success) with false. cbv iota.
    rewrite Z.eqb_refl. reflexivity. }
  split.
  - rewrite Hanswered. unfold ping.send_ping.
    rewrite Htimer by reflexivity.
    change (to_bool channel_timeout && negb (error.eqb channel_timeout
      channel_timeout)) with false. cbv iota.
    unfold ping.do_effect, ping.set_pending. cbn.
    rewrite <- !app_assoc. reflexivity.
  - rewrite Hsent. unfold ping.send_ping.
    rewrite Htimer by reflexivity.
    change (to_bool channel_timeout && negb (error.eqb channel_timeout
      channel_timeout)) with false. cbv iota.
    unfold ping.do_stop. cbn.
    rewrite <- !app_assoc. reflexivity.
Qed.

Lemma ping_60001_two_heartbeats_witness :
  ping.send_ping ping.channel_state_stopped channel_timeout 8
    (snd (ping.handle_receive_pong ping.channel_state_stopped success 7 7
       (ping.send_ping ping.channel_state_stopped channel_timeout 7
          ping.create)))
  = ping.make true false
      [ping.subscribe_pong 7; ping.send_ping_message 7;
       ping.subscribe_pong 8; ping.send_ping_message 8].
Proof.
  apply (proj1 (ping_60001_two_heartbeats ping.channel_state_stopped 7 8
    ping.create (fun q ec Hq _ => Hq) eq_refl eq_refl)).
Defined.

(** *** The headers message on the wire *)

Module wire_facts.
Import system.

Lemma read_bytes_app (bs : list Z) : forall rest : list Z,
  read_bytes (length bs) (make_reader (bs ++ rest) true)
  = (bs, make_reader rest true).
Proof.
  induction bs as [| b bs IH]; intros rest; [reflexivity |].
  cbn [length read_bytes app]. unfold read_byte. cbn [valid remaining].
  rewrite IH. reflexivity.
Qed.

Lemma low_byte_and_rest (v : Z) :
  Z.lor (Z.land v 0xff) (Z.shiftl (Z.shiftr v 8) 8) = v.
Proof.
  apply Z.bits_inj'. intros i Hi.
  rewrite Z.lor_spec, Z.land_spec.
  change 0xff with (Z.ones 8).
  destruct (Z.ltb_spec i 8) as [Hlow | Hhigh].
  - rewrite Z.ones_spec_low by lia.
    rewrite Z.shiftl_spec_low by lia.
    rewrite andb_true_r, orb_false_r. reflexivity.
  - rewrite Z.ones_spec_high by lia.
    rewrite Z.shiftl_spec by lia. rewrite Z.shiftr_spec by lia.
    rewrite andb_false_r. cbn [orb]. f_equal. lia.
Qed.

Lemma from_to_little_endian (n : nat) (v : Z) :
  from_little_endian (to_little_endian n v ++ [])
  = Z.land v (Z.ones (8 * Z.of_nat n)).
Proof.
  rewrite app_nil_r. revert v.
  induction n as [| n IH]; intros v.
  - cbn [to_little_endian from_little_endian].
    change (8 * Z.of_nat 0) with 0. change (Z.ones 0) with 0.
    rewrite Z.land_0_r. reflexivity.
  - cbn [to_little_endian from_little_endian]. rewrite IH.
    apply Z.bits_inj'. intros i Hi.
    rewrite Z.lor_spec, !Z.land_spec.
    change 0xff with (Z.ones 8).
    destruct (Z.ltb_spec i 8) as [Hlow | Hhigh].
    + rewrite Z.ones_spec_low by lia.
      rewrite Z.shiftl_spec_low by lia.
      rewrite Z.ones_spec_low by lia.
      rewrite orb_false_r. reflexivity.
    + rewrite (Z.ones_spec_high 8) by lia.
      rewrite Z.shiftl_spec by lia. rewrite Z.land_spec.
      rewrite Z.shiftr_spec by lia.
      rewrite andb_false_r. cbn [orb].
      replace (i - 8 + 8) with i by lia.
      f_equal.
      destruct (Z.ltb_spec i (8 * Z.of_nat (S n))) as [Hin | Hout].
      * rewrite !Z.ones_spec_low by lia. reflexivity.
      * rewrite !Z.ones_spec_high by lia. reflexivity.
Qed.

Lemma little_endian_round_trip (n : nat) (v : Z) :
  0 <= v < 2 ^ (8 * Z.of_nat n) ->
  from_little_endian (to_little_endian n v) = v.
Proof.
  intros Hv. pose proof (from_to_little_endian n v) as H.
  rewrite app_nil_r in H. rewrite H.
  rewrite Z.land_ones by lia. apply Z.mod_small. exact Hv.
Qed.

Lemma length_to_le (n : nat) : forall v : Z,
  length (to_little_endian n v) = n.
Proof.
  induction n as [| n IH]; intros v; cbn [to_little_endian length];
    [reflexivity | rewrite IH; reflexivity].
Qed.

Lemma read_little_endian_written (n : nat) (v : Z) (rest : list Z) :
  0 <= v < 2 ^ (8 * Z.of_nat n) ->
  read_little_endian n (make_reader (to_little_endian n v ++ rest) true)
  = (v, make_reader rest true).
Proof.
  intros Hv. unfold read_little_endian.
  pose proof (read_bytes_app (to_little_endian n v) rest) as H.
  rewrite length_to_le in H. rewrite H.
  rewrite (little_endian_round_trip n v Hv). reflexivity.
Qed.

Lemma write_variable_sink (v : Z) (sink : writer) :
  write_variable v sink = sink ++ write_variable v [].
Proof.
  unfold write_variable, write_little_endian, write_bytes, write_byte.
  repeat match goal with
  | |- context [if ?c then _ else _] => destruct c
  end; rewrite ?app_nil_l, <- ?app_assoc; reflexivity.
Qed.

Lemma read_variable_written (v : Z) (rest : list Z) :
  0 <= v < 2 ^ 64 ->
  read_variable (make_reader (write_variable v [] ++ rest) true)
  = (v, make_reader rest true).
Proof.
  intros Hv.
  unfold write_variable, write_little_endian, write_bytes, write_byte,
    varint_two_bytes, varint_four_bytes, varint_eight_bytes.
  destruct (Z.ltb_spec v 0xfd) as [H1 | H1].
  - unfold read_variable, read_byte. cbn [app valid remaining].
    unfold varint_two_bytes, varint_four_bytes, varint_eight_bytes.
    destruct (Z.eqb_spec v 0xff); [lia |].
    destruct (Z.eqb_spec v 0xfe); [lia |].
    destruct (Z.eqb_spec v 0xfd); [lia |]. reflexivity.
  - destruct (Z.leb_spec v 0xffff) as [H2 | H2].
    + unfold read_variable, read_byte. cbn [app valid remaining].
      change (0xfd =? varint_eight_bytes) with false.
      change (0xfd =? varint_four_bytes) with false.
      change (0xfd =? varint_two_bytes) with true. cbv iota.
      apply read_little_endian_written.
      change (2 ^ (8 * Z.of_nat 2)) with 65536. lia.
    + destruct (Z.leb_spec v 0xffffffff) as [H3 | H3].
      * unfold read_variable, read_byte. cbn [app valid remaining].
        change (0xfe =? varint_eight_bytes) with false.
        change (0xfe =? varint_four_bytes) with true. cbv iota.
        apply read_little_endian_written.
        change (2 ^ (8 * Z.of_nat 4)) with 4294967296. lia.
      * unfold read_variable, read_byte. cbn [app valid remaining].
        change (0xff =? varint_eight_bytes) with true. cbv iota.
        apply read_little_endian_written.
        change (2 ^ (8 * Z.of_nat 8)) with (2 ^ 64). lia.
Qed.

Lemma uint32_range (v : Z) :
  is_uint32 v = true -> 0 <= v < 2 ^ (8 * Z.of_nat 4).
Proof.
  unfold is_uint32. intros H. apply andb_prop in H as [H0 H1].
  change (2 ^ (8 * Z.of_nat 4)) with (2 ^ 32). lia.
Qed.

Lemma to_data_sink (h : header) (sink : writer) :
  to_data h sink
  = sink ++ to_little_endian 4 (version h) ++ previous_block_hash h
      ++ merkle_root h ++ to_little_endian 4 (timestamp h)
      ++ to_little_endian 4 (bits h) ++ to_little_endian 4 (nonce h).
Proof.
  unfold to_data, write_little_endian, write_bytes.
  rewrite <- !app_assoc. reflexivity.
Qed.

Lemma header_ok_parts (h : header) :
  header_ok h = true ->
  length (previous_block_hash h) = hash_size
  /\ length (merkle_root h) = hash_size
  /\ is_uint32 (version h) = true /\ is_uint32 (timestamp h) = true
  /\ is_uint32 (bits h) = true /\ is_uint32 (nonce h) = true.
Proof.
  unfold header_ok, well_formed. intros H.
  repeat match goal with
  | H : _ && _ = true |- _ => apply andb_prop in H as [H ?]
  end.
  apply Nat.eqb_eq in H.
  repeat split; try assumption.
  match goal with H' : (_ =? _)%nat = true |- _ => apply Nat.eqb_eq in H'; exact H' end.
Qed.

Lemma read_header_written (h : header) (rest : list Z) :
  header_ok h = true ->
  read_header (make_reader (to_data h [] ++ rest) true)
  = (uncached h, make_reader rest true).
Proof.
  intros Hok.
  destruct (header_ok_parts h Hok) as (Hp & Hm & Hv & Ht & Hb & Hn).
  rewrite to_data_sink. rewrite app_nil_l, <- !app_assoc.
  unfold read_header.
  rewrite (read_little_endian_written 4 _ _ (uint32_range _ Hv)).
  rewrite <- Hp at 1. rewrite read_bytes_app.
  rewrite <- Hm at 1. rewrite read_bytes_app.
  rewrite (read_little_endian_written 4 _ _ (uint32_range _ Ht)).
  rewrite (read_little_endian_written 4 _ _ (uint32_range _ Hb)).
  rewrite (read_little_endian_written 4 _ _ (uint32_range _ Hn)).
  reflexivity.
Qed.

Lemma length_to_data_nil (h : header) :
  header_ok h = true -> length (to_data h []) = 80%nat.
Proof.
  intros Hok.
  destruct (header_ok_parts h Hok) as (Hp & Hm & _).
  rewrite to_data_sink. rewrite !length_app, !length_to_le, Hp, Hm.
  reflexivity.
Qed.

End wire_facts.

Lemma headers_serialize_written (version : Z) (message : messages.headers.t) :
  forall sink : system.writer,
    messages.headers.serialize version message sink
    = sink ++ system.write_variable (Z.of_nat (length message)) []
        ++ flat_map header_entry message.
Proof.
  unfold messages.headers.serialize. intros sink.
  rewrite wire_facts.write_variable_sink.
  generalize (system.write_variable (Z.of_nat (length message)) []).
  intros prefix. rewrite app_assoc.
  generalize (sink ++ prefix). clear sink prefix.
  induction message as [| h rest IH]; intros sink; cbn [fold_left flat_map].
  - rewrite app_nil_r. reflexivity.
  - rewrite IH. unfold header_entry, system.write_byte.
    rewrite (wire_facts.to_data_sink h sink), (wire_facts.to_data_sink h []).
    rewrite app_nil_l, <- !app_assoc. reflexivity.
Qed.

(** Reading back the entries of [message], when [more] entries are still
    expected after them. *)
Lemma read_header_ptrs_written (message : messages.headers.t) (more : nat)
    (rest : list Z) :
  forallb header_ok message = true ->
  messages.headers.read_header_ptrs (length message + more)
    (system.make_reader (flat_map header_entry message ++ rest) true)
  = (map uncached message
       ++ fst (messages.headers.read_header_ptrs more
                 (system.make_reader rest true)),
     snd (messages.headers.read_header_ptrs more
            (system.make_reader rest true))).
Proof.
  induction message as [| h tail IH]; intros Hok.
  - cbn [length flat_map app map Nat.add].
    destruct (messages.headers.read_header_ptrs more _); reflexivity.
  - cbn [forallb] in Hok. apply andb_prop in Hok as [Hh Htail].
    cbn [length flat_map map Nat.add messages.headers.read_header_ptrs].
    unfold header_entry at 1. unfold system.write_byte.
    rewrite <- !app_assoc.
    rewrite (wire_facts.read_header_written h _ Hh).
    cbn [app]. unfold system.read_byte. cbn [system.valid system.remaining].
    change (messages.headers.trail =? messages.headers.trail) with true.
    cbn [negb]. rewrite (IH Htail). reflexivity.
Qed.

Lemma set_hashes_written (bitcoin_hash : list Z -> list Z)
    (message : messages.headers.t) :
  forallb header_ok message = true ->
  messages.headers.set_hashes bitcoin_hash (map uncached message)
    (flat_map header_entry message)
  = map (fun h => system.set_hash (bitcoin_hash (system.to_data h [])) h)
      message.
Proof.
  induction message as [| h tail IH]; intros Hok; [reflexivity |].
  cbn [forallb] in Hok. apply andb_prop in Hok as [Hh Htail].
  cbn [map flat_map messages.headers.set_hashes].
  change (header_entry h)
    with (system.to_data h [] ++ [messages.headers.trail]).
  change (Z.to_nat system.serialized_size) with 80%nat.
  change (Z.to_nat (system.serialized_size + 1)) with 81%nat.
  pose proof (wire_facts.length_to_data_nil h Hh) as Hlen.
  rewrite <- !app_assoc.
  rewrite (take_app_length' (system.to_data h []) _ 80 (eq_sym Hlen)).
  rewrite (app_assoc (system.to_data h [])).
  rewrite (drop_app_length' (system.to_data h [] ++ [messages.headers.trail])
             _ 81) by (rewrite length_app, Hlen; reflexivity).
  rewrite (IH Htail). reflexivity.
Qed.

Lemma size_variable_written (v : Z) :
  0 <= v ->
  system.size_variable
    (match system.write_variable v [] with b :: _ => b | [] => 0 end)
  = system.variable_size v
  /\ length (system.write_variable v []) = Z.to_nat (system.variable_size v).
Proof.
  intros Hv.
  unfold system.write_variable, system.variable_size, system.size_variable,
    system.write_little_endian, system.write_bytes, system.write_byte,
    system.varint_two_bytes, system.varint_four_bytes,
    system.varint_eight_bytes.
  destruct (Z.ltb_spec v 0xfd) as [H1 | H1].
  - cbn [app]. destruct (Z.eqb_spec v 0xff); [lia |].
    destruct (Z.eqb_spec v 0xfe); [lia |].
    destruct (Z.eqb_spec v 0xfd); [lia |]. split; reflexivity.
  - destruct (Z.leb_spec v 0xffff); [split; reflexivity |].
    destruct (Z.leb_spec v 0xffffffff); split; reflexivity.
Qed.

(** X17: in general [size] and the bytes [serialize] writes differ by the
    number of headers less one: [serialize] writes the count prefix and 81
    bytes per header, [size] counts the trail byte once.  They agree
    exactly for messages of one header. *)
Theorem headers_size_against_serialize :
  forall (version : Z) (message : messages.headers.t) (sink : system.writer),
    forallb system.well_formed message = true ->
    messages.headers.bytes_written version message sink
    = system.variable_size (Z.of_nat (length message))
      + 81 * Z.of_nat (length message)
    /\ messages.headers.bytes_written version message sink
       - messages.headers.size version message
       = Z.of_nat (length message) - 1
    /\ (messages.headers.size version message
          = messages.headers.bytes_written version message sink
        <-> length message = 1%nat).
Proof.
  intros version message sink Hwf.
  pose proof (headers_bytes_written version message sink Hwf) as Hw.
  pose proof (headers_size_value version message) as Hs.
  repeat split; lia.
Qed.

Lemma headers_size_against_serialize_witness :
  messages.headers.bytes_written 70001
    [sample_header; sample_header; sample_header] [7]
  - messages.headers.size 70001 [sample_header; sample_header; sample_header]
  = 2.
Proof.
  apply (proj1 (proj2 (headers_size_against_serialize 70001
    [sample_header; sample_header; sample_header] [7] eq_refl))).
Defined.

(** X18: what [serialize] writes for a message of at most
    [max_get_headers] headers is read back by [deserialize], at every
    version in range: the reader is consumed to the end and stays valid,
    the headers come back with their fields, and the hash set on each is
    the hash of its own 80 bytes.  So the hashes of the message read are
    the hashes of the headers' bytes; they are the hashes of the message
    written when no header written carries a cached hash other than the
    hash of its bytes (a cached hash is not on the wire). *)
Theorem headers_round_trip :
  forall (level : messages.levels) (bitcoin_hash : list Z -> list Z)
         (version : Z) (message : messages.headers.t),
    messages.headers.version_minimum level <= version
      <= messages.headers.version_maximum level ->
    Z.of_nat (length message) <= messages.max_get_headers level ->
    messages.max_get_headers level < 2 ^ 64 ->
    forallb header_ok message = true ->
    let data := messages.headers.serialize version message [] in
    messages.headers.deserialize level version (system.reader_of data)
    = (map uncached message, system.make_reader [] true)
    /\ messages.headers.deserialize_ptr level bitcoin_hash version data
       = Some (map (fun h =>
                 system.set_hash (bitcoin_hash (system.to_data h [])) h)
               message)
    /\ (forall read,
          messages.headers.deserialize_ptr level bitcoin_hash version data
            = Some read ->
          headers_queries.to_hashes bitcoin_hash read
          = map (fun h => bitcoin_hash (system.to_data h [])) message
          /\ ((forall h, In h message ->
                 system.hash h = None
                 \/ system.hash h
                    = Some (bitcoin_hash (system.to_data h []))) ->
              headers_queries.to_hashes bitcoin_hash read
              = headers_queries.to_hashes bitcoin_hash message)).
Proof.
  intros level bitcoin_hash version message Hversion Hcount Hmax Hok data.
  assert (Hdata : data
    = system.write_variable (Z.of_nat (length message)) []
        ++ flat_map header_entry message ++ []).
  { subst data. rewrite headers_serialize_written, app_nil_l, app_nil_r.
    reflexivity. }
  assert (Hread :
    messages.headers.deserialize level version (system.reader_of data)
    = (map uncached message, system.make_reader [] true)).
  { unfold messages.headers.deserialize.
    destruct (Z.ltb_spec version (messages.headers.version_minimum level));
      [lia |].
    replace (version >? messages.headers.version_maximum level) with false
      by (symmetry; rewrite Z.gtb_ltb; apply Z.ltb_ge; lia).
    cbn [orb]. unfold system.read_size, system.reader_of. rewrite Hdata.
    rewrite wire_facts.read_variable_written by lia.
    replace (Z.of_nat (length message) >? messages.max_get_headers level)
      with false by (symmetry; rewrite Z.gtb_ltb; apply Z.ltb_ge; lia).
    rewrite Nat2Z.id.
    pose proof (read_header_ptrs_written message 0 [] Hok) as Hptrs.
    rewrite Nat.add_0_r in Hptrs. rewrite Hptrs.
    cbn [messages.headers.read_header_ptrs fst snd]. rewrite app_nil_r.
    reflexivity. }
  assert (Hptr :
    messages.headers.deserialize_ptr level bitcoin_hash version data
    = Some (map (fun h =>
              system.set_hash (bitcoin_hash (system.to_data h [])) h)
            message)).
  { unfold messages.headers.deserialize_ptr. rewrite Hread.
    cbn [system.valid negb]. f_equal.
    destruct (size_variable_written (Z.of_nat (length message))
                ltac:(lia)) as [Hfront Hlen].
    rewrite Hdata.
    replace (match
               system.write_variable (Z.of_nat (length message)) []
                 ++ flat_map header_entry message ++ []
             with b :: _ => b | [] => 0 end)
      with (match system.write_variable (Z.of_nat (length message)) []
            with b :: _ => b | [] => 0 end).
    2:{ destruct (system.write_variable (Z.of_nat (length message)) []);
          [discriminate Hlen || (cbn in Hlen; exfalso; revert Hlen;
             unfold system.variable_size;
             repeat match goal with
             | |- context [if ?c then _ else _] => destruct c
             end; discriminate) | reflexivity]. }
    rewrite Hfront, <- Hlen.
    rewrite skipn_app, Nat.sub_diag, skipn_all. cbn [app skipn].
    rewrite app_nil_r. apply set_hashes_written. exact Hok. }
  split; [exact Hread | split; [exact Hptr |]].
  intros read Hsome. rewrite Hptr in Hsome. injection Hsome as <-.
  assert (Hwire :
    headers_queries.to_hashes bitcoin_hash
      (map (fun h => system.set_hash (bitcoin_hash (system.to_data h [])) h)
         message)
    = map (fun h => bitcoin_hash (system.to_data h [])) message).
  { unfold headers_queries.to_hashes. rewrite map_map.
    apply map_ext. intros h. reflexivity. }
  split; [exact Hwire |].
  intros Hcache. rewrite Hwire. unfold headers_queries.to_hashes.
  apply map_ext_in. intros h Hin. unfold headers_queries.hash.
  destruct (Hcache h Hin) as [-> | ->]; reflexivity.
Qed.

Lemma headers_round_trip_witness :
  messages.headers.deserialize sample_levels 70001
    (system.reader_of
       (messages.headers.serialize 70001 [sample_header; sample_header] []))
  = ([sample_header; sample_header], system.make_reader [] true).
Proof.
  apply (proj1 (headers_round_trip sample_levels (fun bs => bs) 70001
    [sample_header; sample_header] ltac:(split; discriminate)
    ltac:(discriminate) eq_refl eq_refl)).
Defined.

Module consume_facts.
Import system.

Lemma read_byte_valid (r : reader) :
  valid (snd (read_byte r)) = true ->
  length (remaining r) = S (length (remaining (snd (read_byte r)))).
Proof.
  unfold read_byte. destruct (valid r) eqn:Hv.
  - destruct (remaining r) as [| b rest]; cbn; [discriminate | reflexivity].
  - cbn [snd]. rewrite Hv. discriminate.
Qed.

Lemma read_bytes_valid (n : nat) : forall r : reader,
  valid (snd (read_bytes n r)) = true ->
  length (remaining r) = (n + length (remaining (snd (read_bytes n r))))%nat.
Proof.
  induction n as [| n IH]; intros r; cbn [read_bytes]; [reflexivity |].
  pose proof (read_byte_valid r) as Hb.
  pose proof (reader_facts.read_bytes_invalid n (snd (read_byte r))) as Hinv.
  destruct (read_byte r) as [b r1]. cbn [snd] in Hb, Hinv.
  specialize (IH r1).
  destruct (read_bytes n r1) as [bs r2]. cbn [snd] in *.
  intros Hv. destruct (valid r1).
  - rewrite (Hb eq_refl), (IH Hv). reflexivity.
  - rewrite (Hinv eq_refl) in Hv. discriminate.
Qed.

Lemma read_little_endian_valid (n : nat) (r : reader) :
  valid (snd (read_little_endian n r)) = true ->
  length (remaining r)
  = (n + length (remaining (snd (read_little_endian n r))))%nat.
Proof.
  unfold read_little_endian. pose proof (read_bytes_valid n r) as H.
  destruct (read_bytes n r) as [bs r1]. exact H.
Qed.

Lemma read_variable_valid (r : reader) :
  valid (snd (read_variable r)) = true ->
  (S (length (remaining (snd (read_variable r)))) <= length (remaining r))%nat.
Proof.
  unfold read_variable.
  pose proof (read_byte_valid r) as Hb.
  pose proof (fun n => reader_facts.read_little_endian_invalid n
                         (snd (read_byte r))) as Hinv.
  pose proof (fun n => read_little_endian_valid n (snd (read_byte r))) as Hle.
  destruct (read_byte r) as [value r1]. cbn [snd] in Hb, Hinv, Hle.
  assert (Hcase : forall n,
    valid (snd (read_little_endian n r1)) = true ->
    (S (length (remaining (snd (read_little_endian n r1))))
     <= length (remaining r))%nat).
  { intros n Hv. destruct (valid r1) eqn:Hr1.
    - rewrite (Hb eq_refl), (Hle n Hv). lia.
    - rewrite (Hinv n eq_refl) in Hv. discriminate. }
  repeat match goal with
  | |- context [if ?c then _ else _] => destruct c
  end; try apply Hcase.
  cbn [snd]. intros Hv. rewrite (Hb Hv). lia.
Qed.

Lemma read_header_valid (r : reader) :
  valid (snd (read_header r)) = true ->
  length (remaining r) = (80 + length (remaining (snd (read_header r))))%nat.
Proof.
  unfold read_header.
  pose proof (read_little_endian_valid 4 r) as H1.
  pose proof (reader_facts.read_little_endian_invalid 4 r) as I1.
  destruct (read_little_endian 4 r) as [v r1]. cbn [snd] in H1, I1.
  pose proof (read_bytes_valid hash_size r1) as H2.
  pose proof (reader_facts.read_bytes_invalid hash_size r1) as I2.
  destruct (read_bytes hash_size r1) as [previous r2]. cbn [snd] in H2, I2.
  pose proof (read_bytes_valid hash_size r2) as H3.
  pose proof (reader_facts.read_bytes_invalid hash_size r2) as I3.
  destruct (read_bytes hash_size r2) as [merkle r3]. cbn [snd] in H3, I3.
  pose proof (read_little_endian_valid 4 r3) as H4.
  pose proof (reader_facts.read_little_endian_invalid 4 r3) as I4.
  destruct (read_little_endian 4 r3) as [time r4]. cbn [snd] in H4, I4.
  pose proof (read_little_endian_valid 4 r4) as H5.
  pose proof (reader_facts.read_little_endian_invalid 4 r4) as I5.
  destruct (read_little_endian 4 r4) as [b r5]. cbn [snd] in H5, I5.
  pose proof (read_little_endian_valid 4 r5) as H6.
  pose proof (reader_facts.read_little_endian_invalid 4 r5) as I6.
  destruct (read_little_endian 4 r5) as [n r6]. cbn [snd] in H6, I6.
  intros Hv. cbn [snd] in Hv |- *. unfold hash_size in *.
  destruct (valid r5) eqn:E5; [| rewrite (I6 eq_refl) in Hv; discriminate].
  destruct (valid r4) eqn:E4; [| discriminate (I5 eq_refl)].
  destruct (valid r3) eqn:E3; [| discriminate (I4 eq_refl)].
  destruct (valid r2) eqn:E2; [| discriminate (I3 eq_refl)].
  destruct (valid r1) eqn:E1; [| discriminate (I2 eq_refl)].
  rewrite (H1 eq_refl), (H2 eq_refl), (H3 eq_refl), (H4 eq_refl),
    (H5 eq_refl), (H6 Hv). lia.
Qed.

Lemma read_header_ptrs_valid (count : nat) : forall r : reader,
  valid (snd (messages.headers.read_header_ptrs count r)) = true ->
  length (remaining r)
  = (81 * count
     + length (remaining (snd (messages.headers.read_header_ptrs count r))))%nat.
Proof.
  induction count as [| k IH]; intros r;
    cbn [messages.headers.read_header_ptrs]; [intros _; cbn; lia |].
  pose proof (read_header_valid r) as Hh.
  pose proof (reader_facts.read_header_invalid r) as Ih.
  destruct (read_header r) as [h s1]. cbn [snd] in Hh, Ih.
  pose proof (read_byte_valid s1) as Hb.
  pose proof (reader_facts.read_byte_invalid s1) as Ib.
  destruct (read_byte s1) as [b s2]. cbn [snd] in Hb, Ib.
  set (s3 := if negb (b =? messages.headers.trail) then invalidate s2 else s2).
  pose proof (reader_facts.read_header_ptrs_invalid k s3) as Ip.
  specialize (IH s3).
  destruct (messages.headers.read_header_ptrs k s3) as [rest s4].
  cbn [snd] in *. intros Hv.
  destruct (valid s3) eqn:E3; [| rewrite (Ip eq_refl) in Hv; discriminate].
  assert (Hs3 : s3 = s2 /\ valid s2 = true).
  { subst s3. destruct (negb (b =? messages.headers.trail));
      [discriminate E3 | split; [reflexivity | exact E3]]. }
  destruct Hs3 as [Hs3 E2].
  destruct (valid s1) eqn:E1; [| rewrite (Ib eq_refl) in E2; discriminate].
  rewrite (Hh eq_refl), (Hb E2), <- Hs3, (IH Hv). lia.
Qed.

Lemma length_read_header_ptrs (count : nat) : forall r : reader,
  length (fst (messages.headers.read_header_ptrs count r)) = count.
Proof.
  induction count as [| k IH]; intros r;
    cbn [messages.headers.read_header_ptrs]; [reflexivity |].
  destruct (read_header r) as [h s1]. destruct (read_byte s1) as [b s2].
  specialize (IH (if negb (b =? messages.headers.trail)
                  then invalidate s2 else s2)).
  destruct (messages.headers.read_header_ptrs k _) as [rest s4].
  cbn [fst length] in *. rewrite IH. reflexivity.
Qed.

Lemma set_hashes_cached (bitcoin_hash : list Z -> list Z)
    (message : messages.headers.t) : forall data : list Z,
  length (messages.headers.set_hashes bitcoin_hash message data)
    = length message
  /\ Forall (fun h => hash h <> None)
       (messages.headers.set_hashes bitcoin_hash message data).
Proof.
  induction message as [| h rest IH]; intros data;
    cbn [messages.headers.set_hashes length].
  - split; [reflexivity | constructor].
  - destruct (IH (skipn (Z.to_nat (serialized_size + 1)) data)) as [Hl Hf].
    split; [rewrite Hl; reflexivity |].
    constructor; [discriminate | exact Hf].
Qed.

End consume_facts.

(** X19: a message produced by [deserialize] from a data chunk was
    decoded at a version in range, holds at most [max_get_headers]
    headers, each with its hash set, and the chunk was long enough for
    them: at least one byte of count and 81 bytes per header. *)
Theorem headers_deserialized_is_bounded :
  forall (level : messages.levels) (bitcoin_hash : list Z -> list Z)
         (version : Z) (data : list Z) (message : messages.headers.t),
    0 <= messages.max_get_headers level ->
    messages.headers.deserialize_ptr level bitcoin_hash version data
      = Some message ->
    messages.headers.version_minimum level <= version
      <= messages.headers.version_maximum level
    /\ Z.of_nat (length message) <= messages.max_get_headers level
    /\ (1 + 81 * length message <= length data)%nat
    /\ Forall (fun h => system.hash h <> None) message.
Proof.
  intros level bitcoin_hash version data message Hlimit Hsome.
  assert (Hrange : messages.headers.version_minimum level <= version
                   <= messages.headers.version_maximum level).
  { destruct (Z.ltb_spec version (messages.headers.version_minimum level))
      as [Hlo | Hlo].
    - pose proof (headers_deserialize_out_of_range level version
        (system.reader_of data) (or_introl Hlo)) as Hv.
      unfold messages.headers.deserialize_ptr in Hsome.
      destruct (messages.headers.deserialize _ _ _) as [m r].
      cbn [snd] in Hv. rewrite Hv in Hsome. discriminate.
    - destruct (Z.ltb_spec (messages.headers.version_maximum level) version)
        as [Hhi | Hhi]; [| lia].
      pose proof (headers_deserialize_out_of_range level version
        (system.reader_of data) (or_intror (Z.lt_gt _ _ Hhi))) as Hv.
      unfold messages.headers.deserialize_ptr in Hsome.
      destruct (messages.headers.deserialize _ _ _) as [m r].
      cbn [snd] in Hv. rewrite Hv in Hsome. discriminate. }
  split; [exact Hrange |].
  unfold messages.headers.deserialize_ptr, messages.headers.deserialize in Hsome.
  replace ((version <? messages.headers.version_minimum level)
           || (version >? messages.headers.version_maximum level))
    with false in Hsome.
  2:{ symmetry. apply orb_false_iff. split; [apply Z.ltb_ge; lia |].
      rewrite Z.gtb_ltb. apply Z.ltb_ge. lia. }
  unfold system.read_size in Hsome.
  pose proof (consume_facts.read_variable_valid (system.reader_of data))
    as Hvar.
  destruct (system.read_variable (system.reader_of data)) as [size r1].
  cbn [snd system.reader_of system.remaining] in Hvar.
  set (sized := if size >? messages.max_get_headers level
                then (0, system.invalidate r1) else (size, r1)) in Hsome.
  assert (Hsized : system.valid (snd sized) = true ->
            fst sized <= messages.max_get_headers level
            /\ snd sized = r1 /\ system.valid r1 = true).
  { subst sized. destruct (Z.gtb_spec size (messages.max_get_headers level));
      cbn [fst snd]; [discriminate |].
    intros Hv. repeat split; [lia | exact Hv]. }
  destruct sized as [count s1]. cbn [fst snd] in Hsized.
  pose proof (consume_facts.read_header_ptrs_valid (Z.to_nat count) s1)
    as Hbody.
  pose proof (reader_facts.read_header_ptrs_invalid (Z.to_nat count) s1)
    as Hinv.
  pose proof (consume_facts.length_read_header_ptrs (Z.to_nat count) s1)
    as Hlen.
  destruct (messages.headers.read_header_ptrs (Z.to_nat count) s1)
    as [read s4].
  cbn [fst snd] in Hbody, Hinv, Hlen.
  destruct (system.valid s4) eqn:E4; [| discriminate Hsome].
  cbn [negb] in Hsome. injection Hsome as <-.
  destruct (consume_facts.set_hashes_cached bitcoin_hash read
              (skipn (Z.to_nat (system.size_variable
                 match data with b :: _ => b | [] => 0 end)) data))
    as [Hl Hf].
  destruct (system.valid s1) eqn:E1; [| discriminate (Hinv eq_refl)].
  destruct (Hsized eq_refl) as (Hcount & -> & Hr1).
  specialize (Hvar Hr1). specialize (Hbody eq_refl).
  rewrite Hl, Hlen. repeat split; [lia | lia | exact Hf].
Qed.

Lemma headers_deserialized_is_bounded_witness :
  (1 + 81 * 1
   <= length (messages.headers.serialize 70001 [sample_header] []))%nat.
Proof.
  apply (proj1 (proj2 (proj2 (headers_deserialized_is_bounded sample_levels
    (fun bs => bs) 70001 (messages.headers.serialize 70001 [sample_header] [])
    [system.set_hash (system.to_data sample_header []) sample_header]
    ltac:(discriminate) eq_refl)))).
Defined.

Lemma headers_invalid_is_null (level : messages.levels)
    (bitcoin_hash : list Z -> list Z) (version : Z) (data : list Z) :
  system.valid
    (snd (messages.headers.deserialize level version (system.reader_of data)))
    = false ->
  messages.headers.deserialize_ptr level bitcoin_hash version data = None.
Proof.
  unfold messages.headers.deserialize_ptr.
  destruct (messages.headers.deserialize _ _ _) as [m r]. cbn [snd].
  intros ->. reflexivity.
Qed.

Lemma headers_version_cases (level : messages.levels) (version : Z) :
  (version < messages.headers.version_minimum level
   \/ version > messages.headers.version_maximum level)
  \/ (version <? messages.headers.version_minimum level)
     || (version >? messages.headers.version_maximum level) = false.
Proof.
  destruct (Z.ltb_spec version (messages.headers.version_minimum level));
    [left; left; assumption |].
  destruct (Z.gtb_spec version (messages.headers.version_maximum level));
    [left; right; lia | right; reflexivity].
Qed.

(** X20: a chunk whose count prefix is above [max_get_headers] yields no
    message, at any version and whatever follows the count. *)
Theorem headers_count_above_limit :
  forall (level : messages.levels) (bitcoin_hash : list Z -> list Z)
         (version count : Z) (rest : list Z),
    messages.max_get_headers level < count < 2 ^ 64 ->
    0 <= count ->
    messages.headers.deserialize_ptr level bitcoin_hash version
      (system.write_variable count [] ++ rest) = None.
Proof.
  intros level bitcoin_hash version count rest Hcount H0.
  apply headers_invalid_is_null.
  destruct (headers_version_cases level version) as [Hout | Hin].
  - apply headers_deserialize_out_of_range. exact Hout.
  - unfold messages.headers.deserialize. rewrite Hin.
    unfold system.read_size, system.reader_of.
    rewrite wire_facts.read_variable_written by lia.
    destruct (Z.gtb_spec count (messages.max_get_headers level)); [| lia].
    reflexivity.
Qed.

Lemma headers_count_above_limit_witness :
  messages.headers.deserialize_ptr sample_levels (fun bs => bs) 70001
    (system.write_variable 2001 [] ++ [1; 2; 3]) = None.
Proof.
  apply (headers_count_above_limit sample_levels (fun bs => bs) 70001 2001
    [1; 2; 3] ltac:(split; reflexivity) ltac:(discriminate)).
Defined.

(** X21: one header whose trail byte is not zero spoils the whole chunk:
    whatever headers come before it, however many are announced after it
    and whatever bytes follow, no message is produced. *)
Theorem headers_nonzero_trail_rejected :
  forall (level : messages.levels) (bitcoin_hash : list Z -> list Z)
         (version : Z) (before : messages.headers.t) (h : system.header)
         (b : Z) (more : nat) (rest : list Z),
    forallb header_ok before = true -> header_ok h = true ->
    b <> messages.headers.trail ->
    Z.of_nat (length before + S more) < 2 ^ 64 ->
    messages.headers.deserialize_ptr level bitcoin_hash version
      (system.write_variable (Z.of_nat (length before + S more)) []
       ++ flat_map header_entry before
       ++ system.to_data h [] ++ b :: rest) = None.
Proof.
  intros level bitcoin_hash version before h b more rest Hbefore Hh Hb Hmax.
  apply headers_invalid_is_null.
  destruct (headers_version_cases level version) as [Hout | Hin].
  - apply headers_deserialize_out_of_range. exact Hout.
  - unfold messages.headers.deserialize. rewrite Hin.
    unfold system.read_size, system.reader_of.
    rewrite wire_facts.read_variable_written by lia.
    destruct (Z.gtb_spec (Z.of_nat (length before + S more))
                (messages.max_get_headers level)).
    + apply reader_facts.read_header_ptrs_invalid. reflexivity.
    + rewrite Nat2Z.id.
      rewrite (read_header_ptrs_written before (S more) _ Hbefore).
      cbn [snd messages.headers.read_header_ptrs].
      rewrite (wire_facts.read_header_written h _ Hh).
      unfold system.read_byte. cbn [system.valid system.remaining].
      destruct (Z.eqb_spec b messages.headers.trail) as [Heq | _];
        [contradiction |].
      cbn [negb].
      pose proof (reader_facts.read_header_ptrs_invalid more
        (system.invalidate (system.make_reader rest true)) eq_refl) as Hv.
      destruct (messages.headers.read_header_ptrs more _) as [tl s4].
      exact Hv.
Qed.

Lemma headers_nonzero_trail_rejected_witness :
  messages.headers.deserialize_ptr sample_levels (fun bs => bs) 70001
    (system.write_variable 2 [] ++ header_entry sample_header
       ++ system.to_data sample_header [] ++ [1]) = None.
Proof.
  apply (headers_nonzero_trail_rejected sample_levels (fun bs => bs) 70001
    [sample_header] sample_header 1 0 [] eq_refl eq_refl
    ltac:(discriminate) eq_refl).
Defined.

(** *** Queries on the headers message *)

(** X22: [is_sequential] holds exactly when every header after the first
    names the hash of the header before it as its previous block hash. *)
Theorem headers_is_sequential_iff :
  forall (bitcoin_hash : list Z -> list Z) (message : messages.headers.t),
    headers_queries.is_sequential bitcoin_hash message = true
    <-> (forall (i : nat) (h next : system.header),
           message !! i = Some h -> message !! S i = Some next ->
           system.previous_block_hash next
           = headers_queries.hash bitcoin_hash h).
Proof.
  intros bitcoin_hash message.
  destruct message as [| front rest].
  - split; [intros _ i h next Hi; discriminate Hi | reflexivity].
  - cbn [headers_queries.is_sequential].
    revert front. induction rest as [| h' rest IH]; intros front.
    + split; [| reflexivity].
      intros _ [| i] h next Hi Hn; discriminate Hn.
    + cbn [headers_queries.linked].
      destruct (decide (system.previous_block_hash h'
                        = headers_queries.hash bitcoin_hash front)) as [He | Hne].
      * rewrite bool_decide_eq_true_2 by exact He. cbn [negb].
        rewrite IH. split.
        -- intros Hrest [| i] h next Hi Hn.
           ++ injection Hi as <-. injection Hn as <-. exact He.
           ++ exact (Hrest i h next Hi Hn).
        -- intros Hall i h next Hi Hn. exact (Hall (S i) h next Hi Hn).
      * rewrite bool_decide_eq_false_2 by exact Hne. cbn [negb].
        split; [discriminate |].
        intros Hall. exfalso. apply Hne.
        exact (Hall 0%nat front h' eq_refl eq_refl).
Qed.

(** *** The authority: host names and ports *)

(** X23: [to_host_name] is idempotent: a host it has bracketed, or left
    alone, is left alone the second time. *)
Theorem to_host_name_idempotent :
  forall host : text,
    config.to_host_name (config.to_host_name host) = config.to_host_name host.
Proof.
  intros host.
  destruct (negb (config.contains_char ":" host)
            || config.starts_with_char "[" host) eqn:Hcase.
  - assert (E : config.to_host_name host = host)
      by (unfold config.to_host_name; rewrite Hcase; reflexivity).
    rewrite !E. reflexivity.
  - assert (E : config.to_host_name host = "["%char :: host ++ txt "]")
      by (unfold config.to_host_name; rewrite Hcase; reflexivity).
    rewrite E. unfold config.to_host_name.
    cbn [config.starts_with_char].
    change (char_eqb "[" "[") with true. rewrite orb_true_r. reflexivity.
Qed.

(** The text ["[" s "]" suffix], read by [operator>>]. *)
Lemma parse_bracketed (s suffix group5 : text) (ip : list Z) :
  asio.from_string s = Some ip ->
  forallb config.ipv6_char s = true -> is_empty s = false ->
  config.match_port suffix = Some group5 ->
  forallb config.ipv6_char suffix = true ->
  config.parse (txt "[" ++ s ++ txt "]" ++ suffix)
  = match (if is_empty group5 then Some 0
           else config.lexical_cast_uint16 group5) with
    | None => None
    | Some p => Some (config.make_authority ip p)
    end.
Proof.
  intros Hread Hchars Hne Hport Hsuffix.
  unfold config.parse.
  rewrite extract_word.
  2:{ cbn [txt list_ascii_of_string app forallb]. rewrite forallb_app.
      cbn [app forallb].
      rewrite !(forallb_ipv6_not_space _ Hchars),
        (forallb_ipv6_not_space _ Hsuffix). reflexivity. }
  unfold config.regular.
  cbn [txt list_ascii_of_string app config.starts_with_char tl].
  change (char_eqb "[" "[") with true. cbv iota.
  rewrite (span_app config.ipv6_char s ("]"%char :: suffix) Hchars)
    by reflexivity.
  rewrite Hne. cbn [config.starts_with_char tl].
  change (char_eqb "]" "]") with true. cbv iota.
  rewrite Hport, Hne, Hread. reflexivity.
Qed.

(** The text [g suffix] with a dotted IPv4 host [g], read by
    [operator>>]. *)
Lemma parse_dotted (g suffix group5 : text) (ip : list Z) :
  asio.from_string (config.to_ipv6 g) = Some ip ->
  forallb config.digit_or_dot g = true -> is_empty g = false ->
  config.match_port suffix = Some group5 ->
  forallb config.ipv6_char suffix = true ->
  match suffix with [] => True | c :: _ => c = ":"%char end ->
  config.parse (g ++ suffix)
  = match (if is_empty group5 then Some 0
           else config.lexical_cast_uint16 group5) with
    | None => None
    | Some p => Some (config.make_authority ip p)
    end.
Proof.
  intros Hread Hgd Hgne Hport Hsuffix Hhead.
  unfold config.parse.
  rewrite extract_word
    by (apply forallb_ipv6_not_space; rewrite forallb_app,
          (forallb_digit_or_dot_ipv6 g Hgd), Hsuffix; reflexivity).
  unfold config.regular.
  assert (Hopen : config.starts_with_char "[" (g ++ suffix) = false).
  { destruct g as [| c g]; [discriminate Hgne |]. cbn [forallb] in Hgd.
    apply andb_prop in Hgd as [Hc _].
    destruct (digit_or_dot_not_colon c Hc) as [_ Hb]. exact Hb. }
  rewrite Hopen.
  rewrite (span_app config.digit_or_dot g suffix Hgd)
    by (destruct suffix; [exact I | rewrite Hhead; reflexivity]).
  rewrite Hgne, Hport. cbn [is_empty]. rewrite Hread. reflexivity.
Qed.

Lemma existsb_colon_app (a b : text) :
  config.contains_char ":" (a ++ txt ":" ++ b) = true.
Proof.
  unfold config.contains_char. rewrite existsb_app.
  cbn [txt list_ascii_of_string app existsb].
  change (char_eqb ":" ":") with true. rewrite orb_true_r. reflexivity.
Qed.

Lemma render_has_colon (sh : shape) :
  shape_ok sh = true -> config.contains_char ":" (render sh) = true.
Proof.
  destruct sh as [ws | pre post | quad | quad]; cbn [shape_ok render]; intros H.
  - apply andb_prop in H as [Hlen _].
    destruct ws as [| w [| w' ws]]; try discriminate Hlen.
    cbn [join tail_groups flat_map].
    apply (existsb_colon_app (print_hex w) (print_hex w' ++ tail_groups ws)).
  - apply (existsb_colon_app (join pre) (txt ":" ++ join post)).
  - reflexivity.
  - reflexivity.
Qed.

Lemma to_host_name_bracketed (s : text) :
  config.contains_char ":" s = true ->
  config.starts_with_char "[" s = false ->
  config.to_host_name s = "["%char :: s ++ txt "]".
Proof. unfold config.to_host_name. intros -> ->. reflexivity. Qed.

Lemma to_host_name_open (s : text) :
  config.to_host_name ("["%char :: s) = "["%char :: s.
Proof.
  unfold config.to_host_name. cbn [config.starts_with_char].
  change (char_eqb "[" "[") with true. rewrite orb_true_r. reflexivity.
Qed.

Lemma ipv6_text_not_bracketed (s : text) :
  forallb config.ipv6_char s = true -> config.starts_with_char "[" s = false.
Proof.
  destruct s as [| c s]; [reflexivity |]. cbn [forallb]. intros H.
  apply andb_prop in H as [Hc _].
  exact (proj2 (ipv6_char_not_bracket c Hc)).
Qed.

Lemma to_string_has_colon (ip : list Z) :
  length ip = 16%nat -> forallb is_byte ip = true ->
  config.contains_char ":" (asio.to_string ip) = true.
Proof.
  intros Hlen Hbytes.
  destruct (inet_ntop6_shape ip Hlen Hbytes) as (sh & Hok & Hsh & _).
  unfold asio.to_string. rewrite Hsh. exact (render_has_colon sh Hok).
Qed.

(** The constructor from a host and a port, on an address text [s],
    plain and in brackets. *)
Lemma from_host_text (s : text) (ip : list Z) (p : Z) :
  asio.from_string s = Some ip ->
  forallb config.ipv6_char s = true -> is_empty s = false ->
  config.contains_char ":" s = true ->
  0 <= p < 65536 ->
  from_host s p = Some (config.make_authority ip p)
  /\ from_host ("["%char :: s ++ txt "]") p
     = Some (config.make_authority ip p).
Proof.
  intros Hread Hchars Hne Hcolon Hp.
  destruct (port_suffix_parsed p Hp)
    as (group5 & Hport & Hcast & Hsuffix & Hhead).
  cbv zeta in Hport, Hsuffix.
  pose proof (parse_bracketed s _ group5 ip Hread Hchars Hne Hport Hsuffix)
    as Hparse.
  rewrite Hcast in Hparse.
  change (txt "[" ++ s ++ txt "]"
          ++ (if negb (is_zero p) then txt ":" ++ print_dec p else []))
    with ("["%char :: s ++ txt "]"
          ++ (if negb (is_zero p) then txt ":" ++ print_dec p else []))
    in Hparse.
  assert (Hbracketed : from_host ("["%char :: s ++ txt "]") p
                       = Some (config.make_authority ip p)).
  { unfold from_host, config.to_text. rewrite to_host_name_open.
    rewrite <- app_comm_cons, <- app_assoc. exact Hparse. }
  split; [| exact Hbracketed].
  unfold from_host, config.to_text.
  rewrite (to_host_name_bracketed s Hcolon (ipv6_text_not_bracketed s Hchars)).
  rewrite <- app_comm_cons, <- app_assoc. exact Hparse.
Qed.

(** X24: the constructor from a host and a port accepts an IPv6 host with
    or without brackets, as its comment says.  For every valid authority,
    the plain text of its address (not bracketed: "2001:db8::2",
    "::ffff:1.2.240.1") and that text in brackets both give the authority
    back, with its port. *)
Theorem authority_from_host_spellings :
  forall a : config.authority,
    config.valid a = true ->
    from_host (asio.to_string (config.ip a)) (config.port a) = Some a
    /\ from_host ("["%char :: asio.to_string (config.ip a) ++ txt "]")
         (config.port a) = Some a.
Proof.
  intros [ip p] Hvalid.
  destruct (valid_parts _ Hvalid) as (Hlen & Hbytes & Hp).
  destruct (to_string_chars ip Hlen Hbytes) as [Hchars Hne].
  exact (from_host_text (asio.to_string ip) ip p
           (inet_pton6_ntop6 ip Hlen Hbytes) Hchars Hne
           (to_string_has_colon ip Hlen Hbytes) Hp).
Qed.

Lemma authority_from_host_spellings_witness :
  config.valid ipv4_authority = true
  /\ from_host (asio.to_string (config.ip ipv4_authority))
       (config.port ipv4_authority) = Some ipv4_authority.
Proof.
  split; [reflexivity |].
  apply (proj1 (authority_from_host_spellings ipv4_authority eq_refl)).
Defined.

Lemma all_large_ports_checked :
  all_from check_large_port (Z.to_nat 34464) 65536 = true.
Proof. vm_compute. reflexivity. Qed.

(** The host name written for the address text [s], followed by a port
    that the cast refuses. *)
Lemma parse_port_refused (s digits : text) (ip : list Z) :
  asio.from_string s = Some ip ->
  forallb config.ipv6_char s = true -> is_empty s = false ->
  config.match_port (txt ":" ++ digits) = Some digits ->
  forallb config.ipv6_char (txt ":" ++ digits) = true ->
  (if is_empty digits then Some 0 else config.lexical_cast_uint16 digits)
    = None ->
  config.parse
    ((if is_empty (match config.mapped_regular s with
                   | None => []
                   | Some group => group
                   end)
      then txt "[" ++ s ++ txt "]"
      else match config.mapped_regular s with
           | None => []
           | Some group => group
           end)
     ++ txt ":" ++ digits)
  = None.
Proof.
  intros Hread Hchars Hne Hport Hsuffix Hnone.
  destruct (config.mapped_regular s) as [group |] eqn:Hmapped.
  - unfold config.mapped_regular in Hmapped.
    destruct (config.strip_prefix (txt "::ffff:") s) as [g |] eqn:Hstrip;
      [| discriminate Hmapped].
    destruct (negb (is_empty g) && forallb config.digit_or_dot g) eqn:Hg;
      [| discriminate Hmapped].
    injection Hmapped as <-.
    apply andb_prop in Hg as [Hgne Hgd]. apply negb_true_iff in Hgne.
    apply strip_prefix_app in Hstrip.
    rewrite Hgne.
    rewrite (parse_dotted g _ digits ip); [rewrite Hnone; reflexivity
      | | exact Hgd | exact Hgne | exact Hport | exact Hsuffix | reflexivity].
    unfold config.to_ipv6. rewrite <- Hstrip. exact Hread.
  - cbn [is_empty]. rewrite <- !app_assoc.
    rewrite (parse_bracketed s _ digits ip Hread Hchars Hne Hport Hsuffix).
    rewrite Hnone. reflexivity.
Qed.

Lemma large_port_digits (p : Z) :
  65535 < p < 100000 ->
  config.match_port (txt ":" ++ print_dec p) = Some (print_dec p)
  /\ forallb config.ipv6_char (txt ":" ++ print_dec p) = true
  /\ (if is_empty (print_dec p) then Some 0
      else config.lexical_cast_uint16 (print_dec p)) = None.
Proof.
  intros Hp.
  assert (Hin : 65536 <= p < 65536 + Z.of_nat (Z.to_nat 34464)) by lia.
  pose proof (all_from_spec _ _ _ all_large_ports_checked p Hin) as Hc.
  unfold check_large_port in Hc. cbv zeta in Hc.
  apply andb_prop in Hc as [Hc Hdigits].
  apply andb_prop in Hc as [Hc Hdlen]. apply andb_prop in Hc as [Hcast Hdne].
  split; [| split].
  - cbn [txt list_ascii_of_string app config.match_port].
    change (char_eqb ":" ":") with true. rewrite Hdne, Hdlen, Hdigits.
    reflexivity.
  - cbn [txt list_ascii_of_string app forallb].
    rewrite (forallb_digit_ipv6 _ Hdigits). reflexivity.
  - apply negb_true_iff in Hdne. rewrite Hdne.
    destruct (config.lexical_cast_uint16 (print_dec p));
      [discriminate Hcast | reflexivity].
Qed.

(** X25: a port above 65535 is refused.  For every valid authority, its
    host name followed by a colon and a number from 65536 to 99999 (five
    digits, so the expression matches) does not parse: the cast to
    [uint16_t] fails and [operator>>] throws. *)
Theorem authority_port_overflow_rejected :
  forall (a : config.authority) (p : Z),
    config.valid a = true -> 65535 < p < 100000 ->
    config.parse (config.to_hostname a ++ txt ":" ++ print_dec p) = None.
Proof.
  intros a p Hvalid Hp.
  destruct (valid_parts _ Hvalid) as (Hlen & Hbytes & _).
  destruct (to_string_chars _ Hlen Hbytes) as [Hchars Hne].
  destruct (large_port_digits p Hp) as (Hport & Hsuffix & Hnone).
  exact (parse_port_refused (asio.to_string (config.ip_ a)) (print_dec p)
           (config.ip_ a) (inet_pton6_ntop6 _ Hlen Hbytes) Hchars Hne
           Hport Hsuffix Hnone).
Qed.

Lemma authority_port_overflow_rejected_witness :
  config.parse (config.to_hostname ipv4_authority ++ txt ":" ++ print_dec 65536)
  = None.
Proof.
  apply (authority_port_overflow_rejected ipv4_authority 65536);
    [vm_compute; reflexivity | split; reflexivity].
Defined.

(** *** What [operator>>] can produce *)

Lemma land_byte (x : Z) : is_byte (Z.land x 0xff) = true.
Proof.
  change 0xff with (Z.ones 8). rewrite Z.land_ones by lia.
  apply is_byte_range. apply Z.mod_pos_bound. lia.
Qed.

Lemma put_word_bytes (val : Z) (tp : list Z) :
  forallb is_byte tp = true ->
  forallb is_byte (asio.put_word val tp) = true
  /\ length (asio.put_word val tp) = (length tp + 2)%nat.
Proof.
  intros H. unfold asio.put_word. rewrite forallb_app, length_app, H.
  cbn [forallb length]. rewrite !land_byte. split; reflexivity.
Qed.

Lemma forallb_repeat_zero (n : nat) : forallb is_byte (repeat 0 n) = true.
Proof. induction n as [| n IH]; [reflexivity | exact IH]. Qed.

Lemma pton4_loop_bytes (src : text) :
  forall (done : list Z) (cur : Z) (saw_digit : bool) (octets : Z)
         (out : list Z),
    asio.pton4_loop src done cur saw_digit octets = Some out ->
    forallb is_byte done = true -> 0 <= cur <= 255 ->
    octets = Z.of_nat (length done) + (if saw_digit then 1 else 0) ->
    octets <= 4 -> (saw_digit = false -> octets <= 3) ->
    length out = 4%nat /\ forallb is_byte out = true.
Proof.
  induction src as [| ch rest IH];
    intros done cur saw_digit octets out Hout Hdone Hcur Hoct Hmax Hgap;
    cbn [asio.pton4_loop] in Hout.
  - destruct (Z.ltb_spec octets 4); [discriminate Hout |].
    injection Hout as <-.
    destruct saw_digit; [| specialize (Hgap eq_refl); lia].
    rewrite length_app, forallb_app, Hdone. cbn [length forallb].
    split; [lia |].
    assert (Hb : is_byte cur = true) by (apply is_byte_range; lia).
    rewrite Hb. reflexivity.
  - destruct (is_digit ch) eqn:Hdigit.
    + unfold is_digit in Hdigit. apply andb_prop in Hdigit as [Hlo Hhi].
      destruct (saw_digit && (cur =? 0)); [discriminate Hout |].
      destruct (Z.gtb_spec (cur * 10 + (char_code ch - 48)) 255);
        [discriminate Hout |].
      destruct saw_digit; cbn [negb] in Hout.
      * apply (IH _ _ _ _ _ Hout Hdone); [lia | exact Hoct | exact Hmax |].
        discriminate.
      * destruct (Z.gtb_spec (octets + 1) 4); [discriminate Hout |].
        apply (IH _ _ _ _ _ Hout Hdone); [lia | lia | lia | discriminate].
    + destruct (char_eqb ch "." && saw_digit) eqn:Hdot; [| discriminate Hout].
      apply andb_prop in Hdot as [_ ->].
      destruct (Z.eqb_spec octets 4); [discriminate Hout |].
      apply (IH _ _ _ _ _ Hout).
      * rewrite forallb_app, Hdone. cbn [forallb].
        assert (Hb : is_byte cur = true) by (apply is_byte_range; lia).
        rewrite Hb. reflexivity.
      * lia.
      * rewrite length_app. cbn [length]. lia.
      * lia.
      * intros _. lia.
Qed.

Lemma pton6_finish_bytes (tp : list Z) (colonp : option nat)
    (xdigits_seen val : Z) (out : list Z) :
  asio.pton6_finish tp colonp xdigits_seen val = Some out ->
  forallb is_byte tp = true -> (length tp <= 16)%nat ->
  length out = 16%nat /\ forallb is_byte out = true.
Proof.
  intros Hout Htp Hlen. unfold asio.pton6_finish in Hout.
  destruct (if xdigits_seen >? 0
            then if Z.of_nat (length tp) + 2 >? 16 then None
                 else Some (asio.put_word val tp)
            else Some tp) as [tp1 |] eqn:Hstored; [| discriminate Hout].
  assert (Htp1 : forallb is_byte tp1 = true /\ (length tp1 <= 16)%nat).
  { destruct (xdigits_seen >? 0).
    - destruct (Z.gtb_spec (Z.of_nat (length tp) + 2) 16);
        [discriminate Hstored |].
      injection Hstored as <-.
      destruct (put_word_bytes val tp Htp) as [Hb Hl]. split; [exact Hb | lia].
    - injection Hstored as <-. split; assumption. }
  destruct Htp1 as [Hb1 Hl1].
  destruct colonp as [gap |].
  - destruct (Nat.eqb_spec (length tp1) 16); [discriminate Hout |].
    injection Hout as <-.
    pose proof (firstn_skipn gap tp1) as Hsplit.
    assert (Hparts : forallb is_byte (firstn gap tp1) = true
                     /\ forallb is_byte (skipn gap tp1) = true).
    { rewrite <- Hsplit in Hb1. rewrite forallb_app in Hb1.
      apply andb_prop in Hb1. exact Hb1. }
    destruct Hparts as [Hf Hs].
    assert (Hsum : (length (firstn gap tp1) + length (skipn gap tp1)
                    = length tp1)%nat)
      by (rewrite <- length_app, Hsplit; reflexivity).
    rewrite !length_app, repeat_length, !forallb_app, Hf, Hs.
    split; [lia |].
    rewrite forallb_repeat_zero. reflexivity.
  - destruct (Nat.eqb_spec (length tp1) 16); [| discriminate Hout].
    injection Hout as <-. split; assumption.
Qed.

Lemma pton6_loop_bytes (src : text) :
  forall (curtok : text) (tp : list Z) (colonp : option nat)
         (xdigits_seen val : Z) (out : list Z),
    asio.pton6_loop src curtok tp colonp xdigits_seen val = Some out ->
    forallb is_byte tp = true -> (length tp <= 16)%nat ->
    length out = 16%nat /\ forallb is_byte out = true.
Proof.
  induction src as [| ch rest IH];
    intros curtok tp colonp xdigits_seen val out Hout Htp Hlen;
    cbn [asio.pton6_loop] in Hout.
  - exact (pton6_finish_bytes _ _ _ _ _ Hout Htp Hlen).
  - destruct (asio.hex_digit_value ch) as [digit |].
    + destruct (xdigits_seen =? 4); [discriminate Hout |].
      destruct (Z.lor (Z.shiftl val 4) digit >? 0xffff);
        [discriminate Hout |].
      exact (IH _ _ _ _ _ _ Hout Htp Hlen).
    + destruct (char_eqb ch ":").
      * destruct (xdigits_seen =? 0).
        -- destruct colonp; [discriminate Hout |].
           exact (IH _ _ _ _ _ _ Hout Htp Hlen).
        -- destruct (is_empty rest); [discriminate Hout |].
           destruct (Z.gtb_spec (Z.of_nat (length tp) + 2) 16);
             [discriminate Hout |].
           destruct (put_word_bytes val tp Htp) as [Hb Hl].
           apply (IH _ _ _ _ _ _ Hout Hb). lia.
      * destruct (char_eqb ch "." && (Z.of_nat (length tp) + 4 <=? 16))
          eqn:Hdot; [| discriminate Hout].
        apply andb_prop in Hdot as [_ Hroom]. apply Z.leb_le in Hroom.
        destruct (asio.inet_pton4 curtok) as [octets |] eqn:Hquad;
          [| discriminate Hout].
        unfold asio.inet_pton4 in Hquad.
        destruct (pton4_loop_bytes curtok [] 0 false 0 octets Hquad eq_refl
                    ltac:(lia) eq_refl ltac:(lia) ltac:(intros _; lia))
          as [Hl4 Hb4].
        apply (pton6_finish_bytes _ _ _ _ _ Hout).
        -- rewrite forallb_app, Htp, Hb4. reflexivity.
        -- rewrite length_app, Hl4. lia.
Qed.

Lemma from_string_bytes (s : text) (ip : list Z) :
  asio.from_string s = Some ip ->
  length ip = 16%nat /\ forallb is_byte ip = true.
Proof.
  unfold asio.from_string, asio.inet_pton6.
  destruct s as [| ch rest]; [discriminate |].
  destruct (char_eqb ch ":").
  - destruct rest as [| ch' rest']; [discriminate |].
    destruct (char_eqb ch' ":"); [| discriminate].
    intros H. apply (pton6_loop_bytes _ _ _ _ _ _ _ H); [reflexivity |].
    cbn. lia.
  - intros H. apply (pton6_loop_bytes _ _ _ _ _ _ _ H); [reflexivity |].
    cbn. lia.
Qed.

Lemma decimal_value_nonneg (digits : text) :
  forallb is_digit digits = true -> 0 <= config.decimal_value digits.
Proof.
  unfold config.decimal_value.
  assert (H : forall acc, 0 <= acc -> forallb is_digit digits = true ->
    0 <= fold_left (fun n c => n * 10 + (char_code c - 48)) digits acc).
  { induction digits as [| c digits IH]; intros acc Hacc Hd; [exact Hacc |].
    cbn [forallb] in Hd. apply andb_prop in Hd as [Hc Hd].
    unfold is_digit in Hc. apply andb_prop in Hc as [Hlo Hhi].
    cbn [fold_left]. apply IH; [lia | exact Hd]. }
  apply H. lia.
Qed.

Lemma lexical_cast_range (digits : text) (p : Z) :
  config.lexical_cast_uint16 digits = Some p -> 0 <= p < 65536.
Proof.
  unfold config.lexical_cast_uint16.
  destruct (negb (is_empty digits) && forallb is_digit digits
            && (config.decimal_value digits <=? 65535)) eqn:H;
    [| discriminate].
  intros Hp. injection Hp as <-.
  apply andb_prop in H as [H Hmax]. apply andb_prop in H as [_ Hd].
  pose proof (decimal_value_nonneg digits Hd). lia.
Qed.

(** X26: every authority [operator>>] produces is valid, sixteen address
    bytes and a 16-bit port, whatever the text it was read from; and
    writing it with [operator<<] gives a text that reads back as the same
    authority. *)
Theorem authority_parsed_is_canonical :
  forall (input : text) (a : config.authority),
    config.parse input = Some a ->
    config.valid a = true /\ config.parse (config.format a) = Some a.
Proof.
  intros input a Hparse.
  assert (Hparts : length (config.ip_ a) = 16%nat
                   /\ forallb is_byte (config.ip_ a) = true
                   /\ 0 <= config.port_ a < 65536).
  { unfold config.parse in Hparse.
    destruct (config.regular (config.extract input))
      as [[[group2 group3] group5] |]; [| discriminate Hparse].
    destruct (asio.from_string
                (if is_empty group3 then config.to_ipv6 group2 else group3))
      as [ip |] eqn:Hip; [| discriminate Hparse].
    destruct (if is_empty group5 then Some 0
              else config.lexical_cast_uint16 group5) as [p |] eqn:Hp;
      [| discriminate Hparse].
    injection Hparse as <-. cbn [config.ip_ config.port_].
    destruct (from_string_bytes _ _ Hip) as [Hl Hb].
    repeat split; try assumption;
      (destruct (is_empty group5);
       [injection Hp as <-; lia
       | apply lexical_cast_range in Hp; lia]). }
  destruct Hparts as (Hl & Hb & Hp).
  split.
  - unfold config.valid. rewrite Hl. cbn [Nat.eqb andb].
    change (forallb (fun b => (0 <=? b) && (b <? 256)) (config.ip_ a))
      with (forallb is_byte (config.ip_ a)).
    rewrite Hb. cbn [andb].
    destruct (Z.leb_spec 0 (config.port_ a)); [| lia].
    destruct (Z.ltb_spec (config.port_ a) 65536); [reflexivity | lia].
  - destruct a as [ip p]. apply parse_format; assumption.
Qed.

Lemma authority_parsed_is_canonical_witness :
  config.valid ipv4_authority = true
  /\ config.parse (config.format ipv4_authority) = Some ipv4_authority.
Proof.
  apply (authority_parsed_is_canonical (txt " 1.2.240.1:42 ") ipv4_authority).
  vm_compute. reflexivity.
Defined.
